(** * lcz_lwm2m_ble_sensor: BLE sensor advertisements to LwM2M objects

    A shallow embedding of [source/lcz_lwm2m_ble_sensor.c] and the
    properties of its event filter, index resolution, value conversion,
    scan-response and name correlators and removal callback.

    Conventions of the embedding:
    - C integers are [Z]; a conversion to a narrower or unsigned type is
      written out ([u8], [u16], [u32], [s16], [s32]).
    - [double] is Rocq's primitive binary64 [float], so conversions compute.
    - A pointer that may be [NULL] is an [option].
    - The module's static [lbs] structure, the state of the external
      collaborators (gateway object directory, measurement sinks, scan
      module) and the list of calls made to them are threaded through a
      state monad; an access to [lbs.table] outside the array makes the
      computation fault ([None]).
    - A collaborator answers a call from its own state and arbitrarily; it
      does not call back into this module while doing so. The removal
      callback [gw_obj_removed] is an entry point of its own, run between
      frames.
    - Values of Kconfig symbols and of constants declared in headers that
      are not part of this file are class parameters; a [switch] is the
      chain of comparisons in the order of its case labels.
    - The order of evaluation of the arguments of a call, which C does not
      fix, is a parameter of the build as well. *)

From Stdlib Require Import ZArith Bool Floats Uint63.
From stdpp Require Import base decidable list.

Set Warnings "-inexact-float".
Local Open Scope Z_scope.

(** ** Integer and floating-point conversions *)

Definition u8 (z : Z) : Z := z mod 2 ^ 8.
Definition u16 (z : Z) : Z := z mod 2 ^ 16.
Definition u32 (z : Z) : Z := z mod 2 ^ 32.

Definition s16 (z : Z) : Z :=
  let u := z mod 2 ^ 16 in if u <? 2 ^ 15 then u else u - 2 ^ 16.

Definition s32 (z : Z) : Z :=
  let u := z mod 2 ^ 32 in if u <? 2 ^ 31 then u else u - 2 ^ 32.

(** [(double)z] for an integer of at most 32 bits: exact. *)
Definition double_of_Z (z : Z) : float :=
  if z <? 0 then PrimFloat.opp (PrimFloat.of_uint63 (Uint63.of_Z (- z)))
  else PrimFloat.of_uint63 (Uint63.of_Z z).

(** [(double)f] for a binary32 [f] given by its 32 bits: exact. *)
Definition double_of_float_bits (bits : Z) : float :=
  let e := Z.land (Z.shiftr bits 23) 255 in
  let m := Z.land bits (2 ^ 23 - 1) in
  let mag :=
    if e =? 255 then (if m =? 0 then PrimFloat.infinity else PrimFloat.nan)
    else if e =? 0 then Z.ldexp (double_of_Z m) (-149)
    else Z.ldexp (double_of_Z (m + 2 ^ 23)) (e - 150) in
  if Z.testbit bits 31 then PrimFloat.opp mag else mag.

(** ** errno values *)

Definition EPERM : Z := 1.
Definition ENOMEM : Z := 12.

(** ** Data model *)

(** [bt_addr_le_t]: address type and 48-bit address. *)
Record bt_addr_le_t := { addr_type : Z; addr_val : Z }.

(** Modelled from the spec: the event record of lcz_sensor_adv_format.h,
    which is not among the sources. Of [LczSensorAdEvent_t] the code reads
    [recordType] (8 bits), [id] (16 bits) and the [data] union, whose views
    the spec gives as an unsigned 16-bit integer, a signed 32-bit integer or
    a single-precision float; [data] is the union's 32 bits as a
    little-endian word. *)
Record LczSensorAdEvent_t := { recordType : Z; id : Z; data : Z }.

Definition data_u16 (p : LczSensorAdEvent_t) : Z := Z.land (data p) (2 ^ 16 - 1).
Definition data_s32 (p : LczSensorAdEvent_t) : Z := s32 (data p).
Definition data_f (p : LczSensorAdEvent_t) : Z := u32 (data p).

(** [LczSensorRsp_t]: only [productId] (16 bits) is read. *)
Record LczSensorRsp_t := { productId : Z }.

(** [AdHandle_t]: the located element of an advertisement. *)
Record AdHandle_t := { pPayload : option (list Z); size : Z }.

(** [struct lwm2m_ble_sensor] *)
Record lwm2m_ble_sensor := {
  last_record_type : Z;
  last_event_id : Z;
  product_id : Z
}.

(** The fields of [struct stats]. *)
Inductive stat_field :=
  | ads | legacy_ads | rsp_ads | coded_ads | accepted_ads
  | indexed_ads | processed_ads | set_events | set_errors | name_updates.

#[global] Instance stat_field_eq_dec : EqDecision stat_field.
Proof. solve_decision. Defined.

(** ** Parameters of the build *)

(** Kconfig symbols used by the file. *)
Class Kconfig := {
  CONFIG_LCZ_LWM2M_GATEWAY_MAX_INSTANCES : Z;
  CONFIG_LCZ_LWM2M_BLE_EVENT_TIMEOUT_SECONDS : Z;
  CONFIG_LCZ_LWM2M_TEMPERATURE : bool;
  CONFIG_LCZ_LWM2M_CURRENT : bool;
  CONFIG_LCZ_LWM2M_PRESSURE : bool;
  CONFIG_LCZ_LWM2M_BATTERY : bool;
  CONFIG_LCZ_LWM2M_FILL_LEVEL : bool;
  CONFIG_LCZ_LWM2M_BLE_SENSOR_LED : bool;
  CONFIG_LCZ_LWM2M_BLE_SENSOR_STATS : bool;
  CONFIG_LCZ_LWM2M_BLE_SENSOR_LOG_LEVEL_DBG : bool;
  CONFIG_LCZ_LWM2M_BLE_CREATE_LOG_VERBOSE : bool
}.

(** What C leaves to the compiler: the order in which the arguments of
    one call are evaluated. The file has one call whose arguments are
    themselves calls into a collaborator, the [LOG_DBG] of [get_index]. *)
Class Toolchain := {
  args_left_to_right : bool
}.

(** Constants of lcz_sensor_event.h, lcz_sensor_adv_format.h and
    bluetooth.h. *)
Class SensorConstants := {
  SENSOR_EVENT_TEMPERATURE : Z;
  SENSOR_EVENT_BATTERY_GOOD : Z;
  SENSOR_EVENT_BATTERY_BAD : Z;
  SENSOR_EVENT_TEMPERATURE_1 : Z;
  SENSOR_EVENT_TEMPERATURE_2 : Z;
  SENSOR_EVENT_TEMPERATURE_3 : Z;
  SENSOR_EVENT_TEMPERATURE_4 : Z;
  SENSOR_EVENT_CURRENT_1 : Z;
  SENSOR_EVENT_CURRENT_2 : Z;
  SENSOR_EVENT_CURRENT_3 : Z;
  SENSOR_EVENT_CURRENT_4 : Z;
  SENSOR_EVENT_PRESSURE_1 : Z;
  SENSOR_EVENT_PRESSURE_2 : Z;
  SENSOR_EVENT_ULTRASONIC_1 : Z;
  BT510_PRODUCT_ID : Z;
  BT6XX_PRODUCT_ID : Z;
  INVALID_PRODUCT_ID : Z;
  BT_DATA_MANUFACTURER_DATA : Z;
  BT_DATA_INVALID : Z
}.

(** Pure helpers of other modules: the advertisement parser and matcher,
    the views of a matched payload as the packed structures, and the two
    battery curves. *)
Class SensorLib := {
  AdFind_Type : list Z -> Z -> Z -> AdHandle_t;
  AdFind_Name : list Z -> AdHandle_t;
  lcz_sensor_adv_match_1m : AdHandle_t -> bool;
  lcz_sensor_adv_match_coded : AdHandle_t -> bool;
  lcz_sensor_adv_match_rsp : AdHandle_t -> bool;
  as_LczSensorAdEvent : list Z -> LczSensorAdEvent_t;
  as_LczSensorAdCoded : list Z -> LczSensorAdEvent_t * LczSensorRsp_t;
  as_LczSensorRspWithHeader : list Z -> LczSensorRsp_t;
  lcz_lwm2m_battery_get_level_bt510 : float -> Z;
  lcz_lwm2m_battery_get_level_bt610 : float -> Z
}.

(** Calls into stateful collaborators. *)
Inductive call :=
  | lcz_lwm2m_gw_obj_lookup_ble (addr : bt_addr_le_t)
  | lcz_lwm2m_gw_obj_create (addr : bt_addr_le_t)
  | lcz_lwm2m_gw_obj_get_instance (idx : Z)
  | lcz_lwm2m_gw_obj_get_endpoint_name (idx : Z)
  | lcz_lwm2m_gw_obj_set_lifetime (idx lifetime : Z)
  | lcz_lwm2m_gw_obj_inst_created (idx : Z)
  | lcz_lwm2m_gw_obj_set_endpoint_name (idx : Z) (name : list Z) (len : Z)
  | lcz_lwm2m_managed_temperature_set (idx offset : Z) (value : float)
  | lcz_lwm2m_managed_battery_set (idx offset : Z) (value : float) (level : Z)
  | lcz_lwm2m_managed_current_set (idx offset : Z) (value : float)
  | lcz_lwm2m_managed_pressure_set (idx offset : Z) (value : float)
  | lcz_lwm2m_managed_fill_level_set (idx offset : Z) (value : float)
  | lcz_led_blink
  | lcz_bt_scan_register
  | lcz_bt_scan_update_parameters
  | lcz_bt_scan_start
  | lcz_lwm2m_util_register_agent.

(** The collaborators own a state [W]; a call returns a C [int] (a [bool]
    as 0 or 1, nothing meaningful for a [void] function) and the next
    state. The scan user id lives in [W]: the scan module writes it and is
    the only one to read it. *)
Class Collaborators (W : Type) := {
  respond : call -> W -> Z * W
}.

(** ** State *)

Record state (W : Type) := {
  table_full : bool;
  table : list lwm2m_ble_sensor;
  stats : stat_field -> Z;
  world : W;
  trace : list call
}.
Arguments table_full {W} _.
Arguments table {W} _.
Arguments stats {W} _.
Arguments world {W} _.
Arguments trace {W} _.
Arguments Build_state {W} _ _ _ _ _.

(** A computation: [None] is a fault (table access out of bounds). *)
Definition M (W A : Type) : Type := state W -> option (A * state W).

Definition ret {W A} (a : A) : M W A := fun s => Some (a, s).

Definition bind {W A B} (c : M W A) (k : A -> M W B) : M W B :=
  fun s => match c s with
           | Some (a, s') => k a s'
           | None => None
           end.

Notation "x <- c1 ;; c2" := (bind c1 (fun x => c2))
  (at level 100, c1 at next level, right associativity).
Notation "c1 ;; c2" := (bind c1 (fun _ => c2))
  (at level 100, right associativity).

Section Program.

Context {W : Type} `{!Kconfig} `{!SensorConstants} `{!SensorLib}
        `{!Collaborators W} `{!Toolchain}.

Definition LIFETIME : Z := CONFIG_LCZ_LWM2M_BLE_EVENT_TIMEOUT_SECONDS.
Definition MAX_INSTANCES : Z := CONFIG_LCZ_LWM2M_GATEWAY_MAX_INSTANCES.

(** A call to a collaborator: its answer and the state after it, the call
    appended to the trace. *)
Definition after_call (c : call) (s : state W) : state W :=
  Build_state (table_full s) (table s) (stats s)
              (snd (respond c (world s))) (trace s ++ [c]).

Definition extern (c : call) : M W Z := fun s =>
  Some (fst (respond c (world s)), after_call c s).

(** [lbs.table[idx]] as an rvalue. *)
Definition load_slot (idx : Z) : M W lwm2m_ble_sensor := fun s =>
  if 0 <=? idx then
    match table s !! Z.to_nat idx with
    | Some e => Some (e, s)
    | None => None
    end
  else None.

(** [lbs.table[idx].field = ...]: [f] rewrites the fields assigned. *)
Definition with_table (t : list lwm2m_ble_sensor) (s : state W) : state W :=
  Build_state (table_full s) t (stats s) (world s) (trace s).

Definition store_slot (idx : Z) (f : lwm2m_ble_sensor -> lwm2m_ble_sensor)
  : M W unit := fun s =>
  if 0 <=? idx then
    match table s !! Z.to_nat idx with
    | Some e => Some (tt, with_table (<[Z.to_nat idx := f e]> (table s)) s)
    | None => None
    end
  else None.

Definition get_table_full : M W bool := fun s => Some (table_full s, s).

Definition with_table_full (b : bool) (s : state W) : state W :=
  Build_state b (table s) (stats s) (world s) (trace s).

Definition set_table_full (b : bool) : M W unit := fun s =>
  Some (tt, with_table_full b s).

(** [INCR_STAT(field)]: a 32-bit counter, compiled in with the STATS option. *)
Definition incr_stat (field : stat_field) (s : state W) : state W :=
  if CONFIG_LCZ_LWM2M_BLE_SENSOR_STATS then
    Build_state (table_full s) (table s)
      (fun g => if decide (g = field) then u32 (stats s g + 1) else stats s g)
      (world s) (trace s)
  else s.

Definition INCR_STAT (field : stat_field) : M W unit := fun s =>
  Some (tt, incr_stat field s).

Definition set_last_event (i t : Z) (e : lwm2m_ble_sensor) : lwm2m_ble_sensor :=
  {| last_record_type := t; last_event_id := i; product_id := product_id e |}.

Definition set_product_id (v : Z) (e : lwm2m_ble_sensor) : lwm2m_ble_sensor :=
  {| last_record_type := last_record_type e;
     last_event_id := last_event_id e;
     product_id := v |}.

(** *** [valid_index] *)
Definition valid_index (idx : Z) : bool :=
  (0 <=? idx) && (idx <? MAX_INSTANCES).

(** *** [get_name] (debug builds): reads the endpoint name for a log line. *)
Definition get_name (idx : Z) : M W unit :=
  extern (lcz_lwm2m_gw_obj_get_endpoint_name idx) ;; ret tt.

(** *** [get_index] *)
Definition get_index (addr : bt_addr_le_t) (add : bool) : M W Z :=
  idx <- extern (lcz_lwm2m_gw_obj_lookup_ble addr) ;;
  full <- get_table_full ;;
  idx <- (if negb (valid_index idx) && add && negb full then
            idx <- extern (lcz_lwm2m_gw_obj_create addr) ;;
            (* the arguments of LOG_DBG, in the order the compiler
               evaluates them *)
            (if CONFIG_LCZ_LWM2M_BLE_SENSOR_LOG_LEVEL_DBG
                && (negb (idx =? - EPERM)
                    || CONFIG_LCZ_LWM2M_BLE_CREATE_LOG_VERBOSE)
             then
               if args_left_to_right then
                 extern (lcz_lwm2m_gw_obj_get_instance idx) ;; get_name idx
               else
                 get_name idx ;; extern (lcz_lwm2m_gw_obj_get_instance idx) ;;
                 ret tt
             else ret tt) ;;
            (if idx =? - ENOMEM then set_table_full true else ret tt) ;;
            ret idx
          else ret idx) ;;
  if MAX_INSTANCES <=? idx then ret (- EPERM) else ret idx.

(** *** [ad_discard] *)
Definition ad_discard (p : LczSensorAdEvent_t) : bool :=
  let t := recordType p in
  if t =? SENSOR_EVENT_TEMPERATURE then
    negb CONFIG_LCZ_LWM2M_TEMPERATURE
  else if (t =? SENSOR_EVENT_BATTERY_GOOD) || (t =? SENSOR_EVENT_BATTERY_BAD) then
    negb CONFIG_LCZ_LWM2M_BATTERY
  else if (t =? SENSOR_EVENT_TEMPERATURE_1) || (t =? SENSOR_EVENT_TEMPERATURE_2)
          || (t =? SENSOR_EVENT_TEMPERATURE_3) || (t =? SENSOR_EVENT_TEMPERATURE_4) then
    negb CONFIG_LCZ_LWM2M_TEMPERATURE
  else if (t =? SENSOR_EVENT_CURRENT_1) || (t =? SENSOR_EVENT_CURRENT_2)
          || (t =? SENSOR_EVENT_CURRENT_3) || (t =? SENSOR_EVENT_CURRENT_4) then
    negb CONFIG_LCZ_LWM2M_CURRENT
  else if (t =? SENSOR_EVENT_PRESSURE_1) || (t =? SENSOR_EVENT_PRESSURE_2) then
    negb CONFIG_LCZ_LWM2M_PRESSURE
  else if t =? SENSOR_EVENT_ULTRASONIC_1 then
    negb CONFIG_LCZ_LWM2M_FILL_LEVEL
  else true.

(** The battery conversion selected by the slot's product id: the value in
    volts and the level in percent (a [uint8_t]). *)
Definition battery_convert (pid : Z) (p : LczSensorAdEvent_t) : float * Z :=
  if pid =? BT510_PRODUCT_ID then
    let v := PrimFloat.div (double_of_Z (u32 (data_u16 p))) 1000 in
    (v, u8 (lcz_lwm2m_battery_get_level_bt510 v))
  else if pid =? BT6XX_PRODUCT_ID then
    let v := PrimFloat.div (double_of_Z (u32 (data_s32 p))) 1000 in
    (v, u8 (lcz_lwm2m_battery_get_level_bt610 v))
  else (0%float, 0).

(** *** [ad_process] *)
Definition ad_process (idx : Z) (p : LczSensorAdEvent_t) (rssi : Z) : M W unit :=
  let t := recordType p in
  r <- (if t =? SENSOR_EVENT_TEMPERATURE then
          if CONFIG_LCZ_LWM2M_TEMPERATURE then
            extern (lcz_lwm2m_managed_temperature_set idx 0
                      (PrimFloat.div (double_of_Z (s16 (data_u16 p))) 100))
          else ret (- EPERM)
        else if (t =? SENSOR_EVENT_TEMPERATURE_1) || (t =? SENSOR_EVENT_TEMPERATURE_2)
                || (t =? SENSOR_EVENT_TEMPERATURE_3) || (t =? SENSOR_EVENT_TEMPERATURE_4) then
          if CONFIG_LCZ_LWM2M_TEMPERATURE then
            extern (lcz_lwm2m_managed_temperature_set idx
                      (u16 (t - SENSOR_EVENT_TEMPERATURE_1))
                      (double_of_float_bits (data_f p)))
          else ret (- EPERM)
        else if (t =? SENSOR_EVENT_BATTERY_GOOD) || (t =? SENSOR_EVENT_BATTERY_BAD) then
          if CONFIG_LCZ_LWM2M_BATTERY then
            e <- load_slot idx ;;
            let '(v, level) := battery_convert (product_id e) p in
            extern (lcz_lwm2m_managed_battery_set idx 0 v level)
          else ret (- EPERM)
        else if (t =? SENSOR_EVENT_CURRENT_1) || (t =? SENSOR_EVENT_CURRENT_2)
                || (t =? SENSOR_EVENT_CURRENT_3) || (t =? SENSOR_EVENT_CURRENT_4) then
          if CONFIG_LCZ_LWM2M_CURRENT then
            extern (lcz_lwm2m_managed_current_set idx
                      (u16 (t - SENSOR_EVENT_CURRENT_1))
                      (double_of_float_bits (data_f p)))
          else ret (- EPERM)
        else if (t =? SENSOR_EVENT_PRESSURE_1) || (t =? SENSOR_EVENT_PRESSURE_2) then
          if CONFIG_LCZ_LWM2M_PRESSURE then
            extern (lcz_lwm2m_managed_pressure_set idx
                      (u16 (t - SENSOR_EVENT_PRESSURE_1))
                      (double_of_float_bits (data_f p)))
          else ret (- EPERM)
        else if t =? SENSOR_EVENT_ULTRASONIC_1 then
          if CONFIG_LCZ_LWM2M_FILL_LEVEL then
            extern (lcz_lwm2m_managed_fill_level_set idx 0
                      (PrimFloat.div (double_of_float_bits (data_f p)) 10))
          else ret (- EPERM)
        else ret (- EPERM)) ;;
  INCR_STAT processed_ads ;;
  if r =? 0 then INCR_STAT set_events else INCR_STAT set_errors.

(** The duplicate test of [ad_filter]. *)
Definition is_duplicate (p : LczSensorAdEvent_t) (e : lwm2m_ble_sensor) : bool :=
  negb (id p =? 0) && (id p =? last_event_id e)
  && (recordType p =? last_record_type e).

(** *** [ad_filter] *)
Definition ad_filter (addr : bt_addr_le_t) (p : option LczSensorAdEvent_t)
                     (rssi : Z) : M W Z :=
  match p with
  | None => ret (- EPERM)
  | Some p =>
      if ad_discard p then ret (- EPERM)
      else
        INCR_STAT accepted_ads ;;
        idx <- get_index addr true ;;
        if negb (valid_index idx) then ret idx
        else
          INCR_STAT indexed_ads ;;
          e <- load_slot idx ;;
          if is_duplicate p e then ret idx
          else
            store_slot idx (set_last_event (id p) (recordType p)) ;;
            (if CONFIG_LCZ_LWM2M_BLE_SENSOR_LED then extern lcz_led_blink ;; ret tt
             else ret tt) ;;
            ad_process idx p rssi ;;
            extern (lcz_lwm2m_gw_obj_set_lifetime idx LIFETIME) ;;
            ret idx
  end.

(** *** [rsp_handler] *)
Definition rsp_handler (addr : bt_addr_le_t) (p : option LczSensorRsp_t) : M W Z :=
  match p with
  | None => ret (- EPERM)
  | Some p =>
      idx <- get_index addr false ;;
      if 0 <=? idx then
        store_slot idx (set_product_id (productId p)) ;; ret idx
      else ret idx
  end.

(** *** [name_handler] *)
Definition name_handler (idx : Z) (ad : list Z) : M W unit :=
  if negb (valid_index idx) then ret tt
  else
    let handle := AdFind_Name ad in
    match pPayload handle with
    | None => ret tt
    | Some name =>
        created <- extern (lcz_lwm2m_gw_obj_inst_created idx) ;;
        if negb (created =? 0) then ret tt
        else
          r <- extern (lcz_lwm2m_gw_obj_set_endpoint_name idx name (size handle)) ;;
          if r =? 0 then INCR_STAT name_updates else ret tt
    end.

(** *** [gw_obj_removed] *)
Definition gw_obj_removed (idx : Z) : M W Z :=
  (if valid_index idx then
     set_table_full false ;;
     store_slot idx (set_product_id INVALID_PRODUCT_ID)
   else ret tt) ;;
  ret 0.

(** *** [ad_handler]

    Forming [&coded->ad] or [&...->rsp] from a null payload is undefined:
    the model faults there. *)
Definition ad_handler (addr : bt_addr_le_t) (rssi : Z) (type : Z) (ad : list Z)
  : M W unit :=
  INCR_STAT ads ;;
  let handle := AdFind_Type ad BT_DATA_MANUFACTURER_DATA BT_DATA_INVALID in
  if lcz_sensor_adv_match_1m handle then
    ad_filter addr (option_map as_LczSensorAdEvent (pPayload handle)) rssi ;;
    INCR_STAT legacy_ads
  else if lcz_sensor_adv_match_coded handle then
    INCR_STAT coded_ads ;;
    match pPayload handle with
    | None => fun _ => None
    | Some bytes =>
        let coded := as_LczSensorAdCoded bytes in
        ad_filter addr (Some (fst coded)) rssi ;;
        idx <- rsp_handler addr (Some (snd coded)) ;;
        name_handler idx ad
    end
  else if lcz_sensor_adv_match_rsp handle then
    INCR_STAT rsp_ads ;;
    match pPayload handle with
    | None => fun _ => None
    | Some bytes =>
        idx <- rsp_handler addr (Some (as_LczSensorRspWithHeader bytes)) ;;
        name_handler idx ad
    end
  else ret tt.

(** *** [lcz_lwm2m_ble_sensor_init] *)
Fixpoint init_loop (n : nat) (idx : Z) : M W unit :=
  match n with
  | O => ret tt
  | S n' =>
      if idx <? MAX_INSTANCES then
        store_slot idx (set_product_id INVALID_PRODUCT_ID) ;;
        init_loop n' (idx + 1)
      else ret tt
  end.

Definition lcz_lwm2m_ble_sensor_init : M W Z :=
  init_loop (Z.to_nat MAX_INSTANCES) 0 ;;
  extern lcz_bt_scan_register ;;
  extern lcz_bt_scan_update_parameters ;;
  extern lcz_bt_scan_start ;;
  extern lcz_lwm2m_util_register_agent ;;
  ret 0.

(** The zero-initialised static [lbs] at boot. *)
Definition boot (w : W) : state W :=
  Build_state false
    (replicate (Z.to_nat MAX_INSTANCES)
       {| last_record_type := 0; last_event_id := 0; product_id := 0 |})
    (fun _ => 0) w [].

(** The table has exactly [MAX_INSTANCES] slots. *)
Definition table_ok (s : state W) : Prop :=
  Z.of_nat (length (table s)) = MAX_INSTANCES.

End Program.

(** ** Counting calls in a trace *)

Definition is_create (c : call) : bool :=
  match c with lcz_lwm2m_gw_obj_create _ => true | _ => false end.

Definition is_lookup (c : call) : bool :=
  match c with lcz_lwm2m_gw_obj_lookup_ble _ => true | _ => false end.

Fixpoint count_calls (f : call -> bool) (t : list call) : nat :=
  match t with
  | [] => O
  | c :: t' => if f c then S (count_calls f t') else count_calls f t'
  end.

(** ** Summaries of a run

    What every frame-processing function guarantees, whatever it does
    otherwise: the table keeps its length, a set capacity flag stays set,
    and at most [k] creation requests are made. *)

Record step_ok {W} (k : nat) (s s' : state W) : Prop := {
  step_length : length (table s') = length (table s);
  step_latch : table_full s = true -> table_full s' = true;
  step_creates_lower :
    (count_calls is_create (trace s) <= count_calls is_create (trace s'))%nat;
  step_creates :
    (count_calls is_create (trace s') <= count_calls is_create (trace s) + k)%nat
}.

(** [c] returns from [s], within the summary, with a result in [Q]. *)
Definition runs {W A} (c : M W A) (k : nat) (s : state W)
                (Q : A -> state W -> Prop) : Prop :=
  exists a s', c s = Some (a, s') /\ step_ok k s s' /\ Q a s'.

(** The result leaves the table and the capacity flag as they were in [s]. *)
Definition keeps {W A} (s : state W) : A -> state W -> Prop :=
  fun _ s' => table s' = table s /\ table_full s' = table_full s.

(** ** The case labels *)

Section Labels.

Context `{!Kconfig} `{!SensorConstants}.

Definition temperature_labels : list Z :=
  [SENSOR_EVENT_TEMPERATURE; SENSOR_EVENT_TEMPERATURE_1;
   SENSOR_EVENT_TEMPERATURE_2; SENSOR_EVENT_TEMPERATURE_3;
   SENSOR_EVENT_TEMPERATURE_4].

Definition battery_labels : list Z :=
  [SENSOR_EVENT_BATTERY_GOOD; SENSOR_EVENT_BATTERY_BAD].

Definition current_labels : list Z :=
  [SENSOR_EVENT_CURRENT_1; SENSOR_EVENT_CURRENT_2;
   SENSOR_EVENT_CURRENT_3; SENSOR_EVENT_CURRENT_4].

Definition pressure_labels : list Z :=
  [SENSOR_EVENT_PRESSURE_1; SENSOR_EVENT_PRESSURE_2].

Definition fill_level_labels : list Z := [SENSOR_EVENT_ULTRASONIC_1].

Definition sensor_event_labels : list Z :=
  temperature_labels ++ battery_labels ++ current_labels
  ++ pressure_labels ++ fill_level_labels.

Fixpoint distinct (l : list Z) : bool :=
  match l with
  | [] => true
  | x :: l' => forallb (fun y => negb (x =? y)) l' && distinct l'
  end.

(** What a C compiler demands of the [switch] statements: no two case
    labels are equal, in the switches on the record type and in the switch
    on the product id. *)
Definition case_labels_distinct : bool := distinct sensor_event_labels.

Definition product_labels_distinct : bool :=
  negb (BT510_PRODUCT_ID =? BT6XX_PRODUCT_ID).

(** The record type is none of the case labels. *)
Definition record_type_unknown (p : LczSensorAdEvent_t) : Prop :=
  ~ In (recordType p) sensor_event_labels.

(** The record type belongs to a measurement category that is compiled out. *)
Definition record_type_disabled (p : LczSensorAdEvent_t) : Prop :=
  (In (recordType p) temperature_labels /\ CONFIG_LCZ_LWM2M_TEMPERATURE = false)
  \/ (In (recordType p) battery_labels /\ CONFIG_LCZ_LWM2M_BATTERY = false)
  \/ (In (recordType p) current_labels /\ CONFIG_LCZ_LWM2M_CURRENT = false)
  \/ (In (recordType p) pressure_labels /\ CONFIG_LCZ_LWM2M_PRESSURE = false)
  \/ (In (recordType p) fill_level_labels /\ CONFIG_LCZ_LWM2M_FILL_LEVEL = false).

End Labels.

(** ** A sample build and a simulated directory

    Concrete values to run the functions on: a build with four instances
    and every measurement category compiled in, sample values for the
    header constants, a toy wire format, and a gateway directory that
    allocates indices in order. *)

Module Sample.

Definition kconfig : Kconfig := {|
  CONFIG_LCZ_LWM2M_GATEWAY_MAX_INSTANCES := 4;
  CONFIG_LCZ_LWM2M_BLE_EVENT_TIMEOUT_SECONDS := 3600;
  CONFIG_LCZ_LWM2M_TEMPERATURE := true;
  CONFIG_LCZ_LWM2M_CURRENT := true;
  CONFIG_LCZ_LWM2M_PRESSURE := false;
  CONFIG_LCZ_LWM2M_BATTERY := true;
  CONFIG_LCZ_LWM2M_FILL_LEVEL := true;
  CONFIG_LCZ_LWM2M_BLE_SENSOR_LED := true;
  CONFIG_LCZ_LWM2M_BLE_SENSOR_STATS := true;
  CONFIG_LCZ_LWM2M_BLE_SENSOR_LOG_LEVEL_DBG := true;
  CONFIG_LCZ_LWM2M_BLE_CREATE_LOG_VERBOSE := false
|}.

Definition constants : SensorConstants := {|
  SENSOR_EVENT_TEMPERATURE := 1;
  SENSOR_EVENT_BATTERY_GOOD := 12;
  SENSOR_EVENT_BATTERY_BAD := 16;
  SENSOR_EVENT_TEMPERATURE_1 := 20;
  SENSOR_EVENT_TEMPERATURE_2 := 21;
  SENSOR_EVENT_TEMPERATURE_3 := 22;
  SENSOR_EVENT_TEMPERATURE_4 := 23;
  SENSOR_EVENT_CURRENT_1 := 24;
  SENSOR_EVENT_CURRENT_2 := 25;
  SENSOR_EVENT_CURRENT_3 := 26;
  SENSOR_EVENT_CURRENT_4 := 27;
  SENSOR_EVENT_PRESSURE_1 := 28;
  SENSOR_EVENT_PRESSURE_2 := 29;
  SENSOR_EVENT_ULTRASONIC_1 := 30;
  BT510_PRODUCT_ID := 0;
  BT6XX_PRODUCT_ID := 1;
  INVALID_PRODUCT_ID := 65535;
  BT_DATA_MANUFACTURER_DATA := 255;
  BT_DATA_INVALID := 0
|}.

Definition toolchain : Toolchain := {| args_left_to_right := true |}.

(** Toy wire format: [shape; recordType; id; data; productId; name...],
    shape 1 for a 1M event, 2 for coded PHY, 3 for a scan response. *)
Definition field (n : nat) (bytes : list Z) : Z := nth n bytes 0.

Definition find_name (ad : list Z) : AdHandle_t :=
  match drop 5 ad with
  | [] => {| pPayload := None; size := 0 |}
  | name => {| pPayload := Some name; size := Z.of_nat (length name) |}
  end.

Definition event_of (bytes : list Z) : LczSensorAdEvent_t :=
  {| recordType := field 1 bytes; id := field 2 bytes; data := field 3 bytes |}.

Definition rsp_of (bytes : list Z) : LczSensorRsp_t :=
  {| productId := field 4 bytes |}.

Definition level_of (v : float) : Z :=
  if PrimFloat.ltb v 3 then 50 else 100.

Definition lib : SensorLib := {|
  AdFind_Type := fun ad _ _ =>
    {| pPayload := Some ad; size := Z.of_nat (length ad) |};
  AdFind_Name := find_name;
  lcz_sensor_adv_match_1m := fun h =>
    match pPayload h with Some (1 :: _) => true | _ => false end;
  lcz_sensor_adv_match_coded := fun h =>
    match pPayload h with Some (2 :: _) => true | _ => false end;
  lcz_sensor_adv_match_rsp := fun h =>
    match pPayload h with Some (3 :: _) => true | _ => false end;
  as_LczSensorAdEvent := event_of;
  as_LczSensorAdCoded := fun bytes => (event_of bytes, rsp_of bytes);
  as_LczSensorRspWithHeader := rsp_of;
  lcz_lwm2m_battery_get_level_bt510 := level_of;
  lcz_lwm2m_battery_get_level_bt610 := level_of
|}.

(** The simulated gateway directory: the addresses with a record, in index
    order; the blocked addresses; the capacity; the names set so far. *)
Record directory := {
  known : list bt_addr_le_t;
  blocked : list bt_addr_le_t;
  capacity : nat;
  names : list (Z * list Z)
}.

Definition addr_eqb (a b : bt_addr_le_t) : bool :=
  (addr_type a =? addr_type b) && (addr_val a =? addr_val b).

Fixpoint index_of (a : bt_addr_le_t) (l : list bt_addr_le_t) (i : Z) : Z :=
  match l with
  | [] => -2
  | b :: l' => if addr_eqb a b then i else index_of a l' (i + 1)
  end.

Definition named (idx : Z) (d : directory) : bool :=
  existsb (fun e => fst e =? idx) (names d).

Definition answer (c : call) (d : directory) : Z * directory :=
  match c with
  | lcz_lwm2m_gw_obj_lookup_ble a => (index_of a (known d) 0, d)
  | lcz_lwm2m_gw_obj_create a =>
      if existsb (addr_eqb a) (blocked d) then (- EPERM, d)
      else if (capacity d <=? length (known d))%nat then (- ENOMEM, d)
      else (Z.of_nat (length (known d)),
            {| known := known d ++ [a]; blocked := blocked d;
               capacity := capacity d; names := names d |})
  | lcz_lwm2m_gw_obj_inst_created idx => (if named idx d then 1 else 0, d)
  | lcz_lwm2m_gw_obj_set_endpoint_name idx name _ =>
      (0, {| known := known d; blocked := blocked d; capacity := capacity d;
             names := names d ++ [(idx, name)] |})
  | _ => (0, d)
  end.

Definition collaborators : Collaborators directory := {| respond := answer |}.

Definition A1 : bt_addr_le_t := {| addr_type := 1; addr_val := 1 |}.
Definition A2 : bt_addr_le_t := {| addr_type := 1; addr_val := 2 |}.

Definition empty_slot : lwm2m_ble_sensor :=
  {| last_record_type := 0; last_event_id := 0; product_id := 65535 |}.

(** The table after initialisation, nothing counted or called yet, over
    directory [d], with the capacity flag as given. *)
Definition fresh (full : bool) (d : directory) : state directory :=
  Build_state full (replicate 4 empty_slot) (fun _ => 0) d [].

Definition dir (k : list bt_addr_le_t) (cap : nat) : directory :=
  {| known := k; blocked := []; capacity := cap; names := [] |}.

(** As [fresh], with slot 0 holding [e]. *)
Definition tracked (e : lwm2m_ble_sensor) (full : bool) (d : directory)
  : state directory :=
  Build_state full (e :: replicate 3 empty_slot) (fun _ => 0) d [].

Definition slot (t i pid : Z) : lwm2m_ble_sensor :=
  {| last_record_type := t; last_event_id := i; product_id := pid |}.

Definition event (t i d : Z) : LczSensorAdEvent_t :=
  {| recordType := t; id := i; data := d |}.

(** The same directory, refusing every name. *)
Definition refusing : Collaborators directory := {|
  respond := fun c d =>
    match c with
    | lcz_lwm2m_gw_obj_set_endpoint_name _ _ _ => (- EPERM, d)
    | _ => answer c d
    end
|}.

(** The state a computation ends in ([s] itself if it faults). *)
Definition state_after {A} (c : M directory A) (s : state directory)
  : state directory :=
  match c s with
  | Some (_, s') => s'
  | None => s
  end.

End Sample.

(** ** Footprints

    What a function may do to the state, as a set of primitive steps: the
    collaborator calls it may make, the counters it may increment, whether
    it may write the duplicate markers or the product id of a slot, set or
    clear the capacity flag, and whether it may run the value conversion. *)

Record footprint := {
  fp_call : call -> bool;
  fp_stat : stat_field -> bool;
  fp_markers : bool;
  fp_product : bool;
  fp_set_full : bool;
  fp_clear_full : bool;
  fp_convert : bool
}.

(** Every run of [c] that returns relates the state before to the state
    after by [R]. *)
Definition respects {W A} (R : state W -> state W -> Prop) (c : M W A) : Prop :=
  forall s a s', c s = Some (a, s') -> R s s'.

Definition includes (small big : footprint) : Prop :=
  (forall c, fp_call small c = true -> fp_call big c = true)
  /\ (forall f, fp_stat small f = true -> fp_stat big f = true)
  /\ (fp_markers small = true -> fp_markers big = true)
  /\ (fp_product small = true -> fp_product big = true)
  /\ (fp_set_full small = true -> fp_set_full big = true)
  /\ (fp_clear_full small = true -> fp_clear_full big = true)
  /\ (fp_convert small = true -> fp_convert big = true).

Definition directory_query (c : call) : bool :=
  match c with
  | lcz_lwm2m_gw_obj_lookup_ble _ => true
  | _ => false
  end.

Definition creation_call (c : call) : bool :=
  match c with
  | lcz_lwm2m_gw_obj_create _
  | lcz_lwm2m_gw_obj_get_instance _
  | lcz_lwm2m_gw_obj_get_endpoint_name _ => true
  | _ => false
  end.

Definition sink_call (c : call) : bool :=
  match c with
  | lcz_lwm2m_managed_temperature_set _ _ _
  | lcz_lwm2m_managed_battery_set _ _ _ _
  | lcz_lwm2m_managed_current_set _ _ _
  | lcz_lwm2m_managed_pressure_set _ _ _
  | lcz_lwm2m_managed_fill_level_set _ _ _ => true
  | _ => false
  end.

Definition name_call (c : call) : bool :=
  match c with
  | lcz_lwm2m_gw_obj_inst_created _
  | lcz_lwm2m_gw_obj_set_endpoint_name _ _ _ => true
  | _ => false
  end.

Definition acceptance_call (c : call) : bool :=
  match c with
  | lcz_led_blink
  | lcz_lwm2m_gw_obj_set_lifetime _ _ => true
  | _ => false
  end.

Definition startup_call (c : call) : bool :=
  match c with
  | lcz_bt_scan_register
  | lcz_bt_scan_update_parameters
  | lcz_bt_scan_start
  | lcz_lwm2m_util_register_agent => true
  | _ => false
  end.

Definition conversion_stat (f : stat_field) : bool :=
  match f with
  | processed_ads | set_events | set_errors => true
  | _ => false
  end.

(** [get_index]: the lookup, and with [add] the creation, its log line and
    the capacity flag. *)
Definition fp_get_index (add : bool) : footprint := {|
  fp_call := fun c => directory_query c || (add && creation_call c);
  fp_stat := fun _ => false;
  fp_markers := false;
  fp_product := false;
  fp_set_full := add;
  fp_clear_full := false;
  fp_convert := false
|}.

(** [ad_process]: one sink and the three conversion counters. *)
Definition fp_ad_process : footprint := {|
  fp_call := sink_call;
  fp_stat := conversion_stat;
  fp_markers := false;
  fp_product := false;
  fp_set_full := false;
  fp_clear_full := false;
  fp_convert := false
|}.

(** The conversion proper, before its counters. *)
Definition fp_sinks : footprint := {|
  fp_call := sink_call;
  fp_stat := fun _ => false;
  fp_markers := false;
  fp_product := false;
  fp_set_full := false;
  fp_clear_full := false;
  fp_convert := false
|}.

(** [ad_filter]: resolution with creation, the markers, the activity LED,
    the conversion and the lifetime. *)
Definition fp_ad_filter : footprint := {|
  fp_call := fun c => directory_query c || creation_call c || acceptance_call c;
  fp_stat := fun f => match f with accepted_ads | indexed_ads => true | _ => false end;
  fp_markers := true;
  fp_product := false;
  fp_set_full := true;
  fp_clear_full := false;
  fp_convert := true
|}.

(** [ad_filter] once the address is resolved: the markers, the activity
    LED, the conversion and the lifetime. *)
Definition fp_accept : footprint := {|
  fp_call := acceptance_call;
  fp_stat := fun f => match f with indexed_ads => true | _ => false end;
  fp_markers := true;
  fp_product := false;
  fp_set_full := false;
  fp_clear_full := false;
  fp_convert := true
|}.

(** [rsp_handler]: the lookup and the product id. *)
Definition fp_rsp_handler : footprint := {|
  fp_call := directory_query;
  fp_stat := fun _ => false;
  fp_markers := false;
  fp_product := true;
  fp_set_full := false;
  fp_clear_full := false;
  fp_convert := false
|}.

(** [name_handler]: the two name calls and their counter. *)
Definition fp_name_handler : footprint := {|
  fp_call := name_call;
  fp_stat := fun f => match f with name_updates => true | _ => false end;
  fp_markers := false;
  fp_product := false;
  fp_set_full := false;
  fp_clear_full := false;
  fp_convert := false
|}.

(** [gw_obj_removed]: the product id and the capacity flag. *)
Definition fp_gw_obj_removed : footprint := {|
  fp_call := fun _ => false;
  fp_stat := fun _ => false;
  fp_markers := false;
  fp_product := true;
  fp_set_full := false;
  fp_clear_full := true;
  fp_convert := false
|}.

(** [ad_handler] on a frame of the 1M shape. *)
Definition fp_frame_1m : footprint := {|
  fp_call := fun c => directory_query c || creation_call c || acceptance_call c;
  fp_stat := fun f => match f with
                      | ads | legacy_ads | accepted_ads | indexed_ads => true
                      | _ => false
                      end;
  fp_markers := true;
  fp_product := false;
  fp_set_full := true;
  fp_clear_full := false;
  fp_convert := true
|}.

(** [rsp_handler] followed by [name_handler]. *)
Definition fp_correlate : footprint := {|
  fp_call := fun c => directory_query c || name_call c;
  fp_stat := fun f => match f with name_updates => true | _ => false end;
  fp_markers := false;
  fp_product := true;
  fp_set_full := false;
  fp_clear_full := false;
  fp_convert := false
|}.

(** [ad_handler] on a frame of the scan-response shape. *)
Definition fp_frame_rsp : footprint := {|
  fp_call := fun c => directory_query c || name_call c;
  fp_stat := fun f => match f with
                      | ads | rsp_ads | name_updates => true
                      | _ => false
                      end;
  fp_markers := false;
  fp_product := true;
  fp_set_full := false;
  fp_clear_full := false;
  fp_convert := false
|}.

(** [ad_handler] on any frame. *)
Definition fp_ad_handler : footprint := {|
  fp_call := fun c => directory_query c || creation_call c || acceptance_call c
                      || name_call c;
  fp_stat := fun f => negb (conversion_stat f);
  fp_markers := true;
  fp_product := true;
  fp_set_full := true;
  fp_clear_full := false;
  fp_convert := true
|}.

(** [lcz_lwm2m_ble_sensor_init]: the product ids and the start-up calls. *)
Definition fp_init : footprint := {|
  fp_call := startup_call;
  fp_stat := fun _ => false;
  fp_markers := false;
  fp_product := true;
  fp_set_full := false;
  fp_clear_full := false;
  fp_convert := false
|}.

Section Relations.

Context {W : Type} `{!Kconfig} `{!SensorConstants} `{!SensorLib}
        `{!Collaborators W} `{!Toolchain}.

(** [R] is a preorder that holds across every primitive step of [fp]. *)
Record closed (R : state W -> state W -> Prop) (fp : footprint) : Prop := {
  closed_refl : forall s, R s s;
  closed_trans : forall s1 s2 s3, R s1 s2 -> R s2 s3 -> R s1 s3;
  closed_call : forall c s, fp_call fp c = true -> R s (after_call c s);
  closed_stat : forall f s, fp_stat fp f = true -> R s (incr_stat f s);
  closed_markers :
    fp_markers fp = true ->
    forall s j e i t, table s !! j = Some e ->
      R s (with_table (<[j := set_last_event i t e]> (table s)) s);
  closed_product :
    fp_product fp = true ->
    forall s j e v, table s !! j = Some e ->
      R s (with_table (<[j := set_product_id v e]> (table s)) s);
  closed_set_full :
    fp_set_full fp = true -> forall s, R s (with_table_full true s);
  closed_clear_full :
    fp_clear_full fp = true -> forall s, R s (with_table_full false s);
  closed_convert :
    fp_convert fp = true ->
    forall idx p rssi, respects R (ad_process idx p rssi)
}.

(** The conversions counted as processed are those counted as set or as
    failed (the counters are 32 bits wide). *)
Definition conversions_accounted (s : state W) : Prop :=
  stats s processed_ads = u32 (stats s set_events + stats s set_errors).

Definition keeps_accounting (s s' : state W) : Prop :=
  conversions_accounted s -> conversions_accounted s'.

(** Every slot is still there with the product id it had. *)
Definition keeps_product_ids (s s' : state W) : Prop :=
  forall j e, table s !! j = Some e ->
    exists e', table s' !! j = Some e' /\ product_id e' = product_id e.

(** Every slot is still there with the duplicate markers it had. *)
Definition keeps_markers (s s' : state W) : Prop :=
  forall j e, table s !! j = Some e ->
    exists e', table s' !! j = Some e'
               /\ last_event_id e' = last_event_id e
               /\ last_record_type e' = last_record_type e.

Definition keeps_flag (s s' : state W) : Prop := table_full s' = table_full s.

Definition keeps_stats (s s' : state W) : Prop := stats s' = stats s.

Definition keeps_counter (f : stat_field) (s s' : state W) : Prop :=
  stats s' f = stats s f.

(** The calls made are all in [P]. *)
Definition calls_only (P : call -> bool) (s s' : state W) : Prop :=
  exists calls, trace s' = trace s ++ calls /\ forallb P calls = true.

(** The record type belongs to a measurement category that is compiled in. *)
Definition record_type_enabled (p : LczSensorAdEvent_t) : Prop :=
  (In (recordType p) temperature_labels /\ CONFIG_LCZ_LWM2M_TEMPERATURE = true)
  \/ (In (recordType p) battery_labels /\ CONFIG_LCZ_LWM2M_BATTERY = true)
  \/ (In (recordType p) current_labels /\ CONFIG_LCZ_LWM2M_CURRENT = true)
  \/ (In (recordType p) pressure_labels /\ CONFIG_LCZ_LWM2M_PRESSURE = true)
  \/ (In (recordType p) fill_level_labels /\ CONFIG_LCZ_LWM2M_FILL_LEVEL = true).

End Relations.

(** * Properties *)

(** ** Counting *)

Lemma count_calls_app f t1 t2 :
  count_calls f (t1 ++ t2) = (count_calls f t1 + count_calls f t2)%nat.
Proof.
  induction t1 as [|c t1 IH]; simpl; [reflexivity|].
  destruct (f c); rewrite IH; reflexivity.
Qed.

(** ** Conversions *)

Lemma data_u16_mod p : data_u16 p = data p mod 2 ^ 16.
Proof. unfold data_u16. change (2 ^ 16 - 1) with (Z.ones 16). apply Z.land_ones; lia. Qed.

Lemma u32_data_u16 p : u32 (data_u16 p) = data_u16 p.
Proof.
  rewrite data_u16_mod; unfold u32.
  pose proof (Z.mod_pos_bound (data p) (2 ^ 16) ltac:(lia)).
  apply Z.mod_small; lia.
Qed.

Lemma u32_data_s32 p : u32 (data_s32 p) = u32 (data p).
Proof.
  unfold data_s32, s32, u32.
  pose proof (Z.mod_pos_bound (data p) (2 ^ 32) ltac:(lia)).
  destruct (data p mod 2 ^ 32 <? 2 ^ 31).
  - apply Z.mod_mod; lia.
  - rewrite <- (Z.mod_add _ 1) by lia.
    replace (data p mod 2 ^ 32 - 2 ^ 32 + 1 * 2 ^ 32) with (data p mod 2 ^ 32) by lia.
    apply Z.mod_mod; lia.
Qed.

Lemma u32_nonneg_s32 p : 0 <= data_s32 p -> u32 (data p) = data_s32 p.
Proof.
  unfold data_s32, s32, u32.
  pose proof (Z.mod_pos_bound (data p) (2 ^ 32) ltac:(lia)).
  destruct (data p mod 2 ^ 32 <? 2 ^ 31); lia.
Qed.

(** ** Case labels *)

(** Turns [case_labels_distinct = true] into the inequalities it stands for. *)
Ltac distinct_labels H :=
  unfold case_labels_distinct, sensor_event_labels, temperature_labels,
    battery_labels, current_labels, pressure_labels, fill_level_labels in H;
  simpl in H;
  repeat match type of H with
         | (_ && _) = true => let H' := fresh "D" in
                              apply andb_prop in H as [H' H]
         end;
  repeat match goal with
         | D : (_ && _) = true |- _ =>
             let D' := fresh "D" in apply andb_prop in D as [D' D]
         | D : negb (_ =? _) = true |- _ =>
             apply negb_true_iff, Z.eqb_neq in D
         | D : true = true |- _ => clear D
         end.

(** Decides the comparisons of a [switch] once the labels are known apart. *)
Ltac decide_labels :=
  repeat match goal with
         | |- context [?a =? ?a] => rewrite (Z.eqb_refl a)
         | D : ?a <> ?b |- context [?a =? ?b] =>
             rewrite (proj2 (Z.eqb_neq a b) D)
         | D : ?b <> ?a |- context [?a =? ?b] =>
             rewrite (proj2 (Z.eqb_neq a b) (not_eq_sym D))
         end.

(** Runs a computation on a concrete state and replaces the trace of the
    state it ends in by the calls made. *)
Ltac run_sample T :=
  match goal with
  | |- exists s', ?c = Some (tt, s') /\ _ =>
      let E := fresh "E" in
      assert (T : option_map (fun x => trace (snd x)) c
                  = option_map (fun x => trace (snd x)) c) by reflexivity;
      destruct c as [[[] s']|] eqn:E in T at 2 |- *;
      [ exists s'; split; [reflexivity|];
        let t := fresh "t" in
        set (t := trace s') in *;
        change (option_map _ (Some (tt, s'))) with (Some t) in T;
        clearbody t; vm_compute in T; injection T as <-
      | vm_compute in T; discriminate T ]
  end.

(** ** Rules for [runs] *)

Section Rules.

Context {W : Type} `{!Kconfig} `{!SensorConstants} `{!SensorLib}
        `{!Collaborators W} `{!Toolchain}.

Lemma step_ok_refl (s : state W) : step_ok 0 s s.
Proof. split; auto with arith. Qed.

Lemma step_ok_trans k1 k2 (s1 s2 s3 : state W) :
  step_ok k1 s1 s2 -> step_ok k2 s2 s3 -> step_ok (k1 + k2) s1 s3.
Proof.
  intros [L1 F1 C1 D1] [L2 F2 C2 D2]; split.
  - congruence.
  - auto.
  - lia.
  - lia.
Qed.

Lemma step_ok_weaken k k' (s s' : state W) :
  (k <= k')%nat -> step_ok k s s' -> step_ok k' s s'.
Proof. intros Hk [L F C D]; split; auto; lia. Qed.

Lemma runs_ret {A} (a : A) (s : state W) (Q : A -> state W -> Prop) :
  Q a s -> runs (ret a) 0 s Q.
Proof. intros HQ; exists a, s; split; [reflexivity|]; split; [apply step_ok_refl|exact HQ]. Qed.

Lemma runs_bind {A B} (c : M W A) (f : A -> M W B) k1 k2 s
      (Q1 : A -> state W -> Prop) (Q2 : B -> state W -> Prop) :
  runs c k1 s Q1 ->
  (forall a s', step_ok k1 s s' -> Q1 a s' -> runs (f a) k2 s' Q2) ->
  runs (bind c f) (k1 + k2) s Q2.
Proof.
  intros (a & s' & Hc & Hs & HQ) Hf.
  destruct (Hf a s' Hs HQ) as (b & s'' & Hb & Hs' & HQ').
  exists b, s''; split; [|split].
  - unfold bind; rewrite Hc; exact Hb.
  - eapply step_ok_trans; eassumption.
  - exact HQ'.
Qed.

Lemma runs_weaken {A} (c : M W A) k k' s (Q Q' : A -> state W -> Prop) :
  (k <= k')%nat ->
  (forall a s', step_ok k s s' -> Q a s' -> Q' a s') ->
  runs c k s Q -> runs c k' s Q'.
Proof.
  intros Hk HQ (a & s' & Hc & Hs & Ha).
  exists a, s'; split; [exact Hc|]; split.
  - eapply step_ok_weaken; eassumption.
  - apply HQ; assumption.
Qed.

Lemma runs_ret_any {A} (a : A) k (s : state W) (Q : A -> state W -> Prop) :
  Q a s -> runs (ret a) k s Q.
Proof.
  intros HQ; exists a, s; split; [reflexivity|]; split; [|exact HQ].
  eapply step_ok_weaken; [|apply step_ok_refl]. lia.
Qed.

Lemma bind_eq {A B} (c : M W A) (f : A -> M W B) s a s' :
  c s = Some (a, s') -> bind c f s = f a s'.
Proof. intros Hc; unfold bind; rewrite Hc; reflexivity. Qed.

Lemma runs_bind_le {A B} (c : M W A) (f : A -> M W B) k1 k2 k s
      (Q1 : A -> state W -> Prop) (Q2 : B -> state W -> Prop) :
  (k1 + k2 <= k)%nat ->
  runs c k1 s Q1 ->
  (forall a s', step_ok k1 s s' -> Q1 a s' -> runs (f a) k2 s' Q2) ->
  runs (bind c f) k s Q2.
Proof.
  intros Hk Hc Hf.
  eapply runs_weaken; [exact Hk| |eapply runs_bind; eassumption].
  auto.
Qed.

(** A run that returns is the one [runs] describes. *)
Lemma runs_inv {A} (c : M W A) k s (Q : A -> state W -> Prop) a s' :
  runs c k s Q -> c s = Some (a, s') -> step_ok k s s' /\ Q a s'.
Proof.
  intros (a0 & s0 & Hc & Hs & HQ) Heq.
  rewrite Hc in Heq; injection Heq as <- <-; auto.
Qed.

Lemma runs_eq {A} (c : M W A) k s (Q : A -> state W -> Prop) :
  runs c k s Q -> runs c k s (fun a s' => c s = Some (a, s') /\ Q a s').
Proof. intros (a & s' & Hc & Hs & HQ); exists a, s'; auto. Qed.

(** *** The primitives *)

Lemma table_incr_stat f (s : state W) : table (incr_stat f s) = table s.
Proof. unfold incr_stat; destruct CONFIG_LCZ_LWM2M_BLE_SENSOR_STATS; reflexivity. Qed.

Lemma table_full_incr_stat f (s : state W) :
  table_full (incr_stat f s) = table_full s.
Proof. unfold incr_stat; destruct CONFIG_LCZ_LWM2M_BLE_SENSOR_STATS; reflexivity. Qed.

Lemma trace_incr_stat f (s : state W) : trace (incr_stat f s) = trace s.
Proof. unfold incr_stat; destruct CONFIG_LCZ_LWM2M_BLE_SENSOR_STATS; reflexivity. Qed.

Lemma world_incr_stat f (s : state W) : world (incr_stat f s) = world s.
Proof. unfold incr_stat; destruct CONFIG_LCZ_LWM2M_BLE_SENSOR_STATS; reflexivity. Qed.

Lemma step_ok_incr_stat f (s : state W) : step_ok 0 s (incr_stat f s).
Proof.
  split; rewrite ?table_incr_stat, ?table_full_incr_stat, ?trace_incr_stat;
    auto with arith.
Qed.

Lemma runs_INCR_STAT f (s : state W) :
  runs (INCR_STAT f) 0 s (fun _ s' => table s' = table s).
Proof.
  exists tt, (incr_stat f s); split; [reflexivity|]; split.
  - apply step_ok_incr_stat.
  - apply table_incr_stat.
Qed.

Lemma step_ok_after_call c (s : state W) :
  step_ok (if is_create c then 1 else 0) s (after_call c s).
Proof.
  split; simpl; auto; rewrite count_calls_app; simpl;
    destruct (is_create c); lia.
Qed.

Lemma runs_extern c (s : state W) :
  runs (extern c) (if is_create c then 1 else 0) s
       (fun r s' => r = fst (respond c (world s)) /\ s' = after_call c s).
Proof.
  exists (fst (respond c (world s))), (after_call c s).
  split; [reflexivity|]; split; [apply step_ok_after_call|split; reflexivity].
Qed.

Lemma slot_exists (s : state W) idx :
  table_ok s -> valid_index idx = true ->
  exists e, table s !! Z.to_nat idx = Some e.
Proof.
  unfold table_ok, valid_index; intros Hok Hv.
  apply andb_prop in Hv as [Hge Hlt].
  apply Z.leb_le in Hge; apply Z.ltb_lt in Hlt.
  apply lookup_lt_is_Some_2; lia.
Qed.

Lemma load_slot_eq (s : state W) idx e :
  0 <= idx -> table s !! Z.to_nat idx = Some e ->
  load_slot idx s = Some (e, s).
Proof.
  intros Hge He; unfold load_slot.
  destruct (Z.leb_spec 0 idx); [|lia]. rewrite He; reflexivity.
Qed.

Lemma store_slot_eq (s : state W) idx f e :
  0 <= idx -> table s !! Z.to_nat idx = Some e ->
  store_slot idx f s = Some (tt, with_table (<[Z.to_nat idx := f e]> (table s)) s).
Proof.
  intros Hge He; unfold store_slot.
  destruct (Z.leb_spec 0 idx); [|lia]. rewrite He; reflexivity.
Qed.

Lemma step_ok_with_table (s : state W) i e :
  step_ok 0 s (with_table (<[i := e]> (table s)) s).
Proof. split; simpl; auto with arith. apply length_insert. Qed.

Lemma runs_store_slot (s : state W) idx f e :
  0 <= idx -> table s !! Z.to_nat idx = Some e ->
  runs (store_slot idx f) 0 s
       (fun _ s' => s' = with_table (<[Z.to_nat idx := f e]> (table s)) s).
Proof.
  intros Hge He. eexists tt, _; split; [apply store_slot_eq; eassumption|].
  split; [apply step_ok_with_table|reflexivity].
Qed.

Lemma table_ok_step k (s s' : state W) :
  step_ok k s s' -> table_ok s -> table_ok s'.
Proof. intros [L _ _ _]; unfold table_ok; rewrite L; auto. Qed.

End Rules.

Section Resolution.

Context {W : Type} `{!Kconfig} `{!SensorConstants} `{!SensorLib}
        `{!Collaborators W} `{!Toolchain}.

(** Resolution without a creation request: only the lookup is called. *)
Lemma get_index_no_create addr add (s : state W) :
  let r := fst (respond (lcz_lwm2m_gw_obj_lookup_ble addr) (world s)) in
  negb (valid_index r) && add && negb (table_full s) = false ->
  get_index addr add s
  = Some (if MAX_INSTANCES <=? r then - EPERM else r,
          after_call (lcz_lwm2m_gw_obj_lookup_ble addr) s).
Proof.
  intros r Hc.
  unfold get_index, bind, extern, get_table_full; simpl.
  fold r; rewrite Hc; unfold ret.
  destruct (MAX_INSTANCES <=? r); reflexivity.
Qed.

(** Resolution with a creation request. *)
Lemma get_index_create addr (s : state W) :
  let s1 := after_call (lcz_lwm2m_gw_obj_lookup_ble addr) s in
  let r := fst (respond (lcz_lwm2m_gw_obj_lookup_ble addr) (world s)) in
  let r' := fst (respond (lcz_lwm2m_gw_obj_create addr) (world s1)) in
  negb (valid_index r) && negb (table_full s) = true ->
  exists s',
    get_index addr true s
    = Some (if MAX_INSTANCES <=? r' then - EPERM else r', s')
    /\ table s' = table s /\ stats s' = stats s
    /\ table_full s' = (r' =? - ENOMEM)
    /\ count_calls is_create (trace s')
       = S (count_calls is_create (trace s))
    /\ exists log, trace s' = trace s ++ [lcz_lwm2m_gw_obj_lookup_ble addr;
                                          lcz_lwm2m_gw_obj_create addr] ++ log
                    /\ count_calls is_create log = O.
Proof.
  intros s1 r r' Hc.
  assert (Hf : table_full s = false).
  { apply andb_prop in Hc as [_ Hc]. destruct (table_full s); [discriminate|reflexivity]. }
  assert (Hc' : negb (valid_index r) && true && negb (table_full s) = true).
  { rewrite andb_true_r; exact Hc. }
  unfold get_index, bind, extern, get_table_full, set_table_full, get_name,
    bind, extern, ret; simpl.
  fold r; rewrite Hc'; fold s1; fold r'.
  destruct (CONFIG_LCZ_LWM2M_BLE_SENSOR_LOG_LEVEL_DBG
            && (negb (r' =? - EPERM) || CONFIG_LCZ_LWM2M_BLE_CREATE_LOG_VERBOSE));
    destruct args_left_to_right;
    destruct (r' =? - ENOMEM); destruct (MAX_INSTANCES <=? r');
    eexists; (split; [reflexivity|]); simpl;
    rewrite ?count_calls_app; simpl; rewrite ?Hf;
    (repeat split; try lia);
    first [ exists [lcz_lwm2m_gw_obj_get_instance r';
                    lcz_lwm2m_gw_obj_get_endpoint_name r'];
            split; [rewrite <- ?app_assoc; reflexivity|reflexivity]
          | exists [lcz_lwm2m_gw_obj_get_endpoint_name r';
                    lcz_lwm2m_gw_obj_get_instance r'];
            split; [rewrite <- ?app_assoc; reflexivity|reflexivity]
          | exists []; split; [rewrite <- ?app_assoc; reflexivity|reflexivity] ].
Qed.

(** Every resolution makes one lookup, and one creation request exactly
    when the lookup fails, creation is allowed and the flag is clear. *)
Lemma get_index_counts addr add (s : state W) :
  let r := fst (respond (lcz_lwm2m_gw_obj_lookup_ble addr) (world s)) in
  exists i s',
    get_index addr add s = Some (i, s')
    /\ count_calls is_lookup (trace s') = S (count_calls is_lookup (trace s))
    /\ count_calls is_create (trace s')
       = (count_calls is_create (trace s)
          + (if negb (valid_index r) && add && negb (table_full s) then 1 else 0))%nat.
Proof.
  intros r.
  destruct (negb (valid_index r) && add && negb (table_full s)) eqn:Hc.
  - unfold get_index, bind, extern, get_table_full, set_table_full, get_name,
      bind, extern, ret; simpl.
    fold r; rewrite Hc.
    set (r' := fst (respond (lcz_lwm2m_gw_obj_create addr)
                      (world (after_call (lcz_lwm2m_gw_obj_lookup_ble addr) s)))).
    destruct (CONFIG_LCZ_LWM2M_BLE_SENSOR_LOG_LEVEL_DBG
              && (negb (r' =? - EPERM) || CONFIG_LCZ_LWM2M_BLE_CREATE_LOG_VERBOSE));
      destruct args_left_to_right;
      destruct (r' =? - ENOMEM); destruct (MAX_INSTANCES <=? r');
      eexists _, _; (split; [reflexivity|]); simpl;
      rewrite ?count_calls_app; simpl; lia.
  - rewrite (get_index_no_create addr add s Hc).
    eexists _, _; split; [reflexivity|]. simpl.
    rewrite !count_calls_app; simpl. lia.
Qed.

Lemma get_index_runs addr add (s : state W) :
  runs (get_index addr add) (if add then 1 else 0) s
       (fun r s' => table s' = table s /\ stats s' = stats s /\
                    (0 <= MAX_INSTANCES -> r < MAX_INSTANCES)).
Proof.
  set (r := fst (respond (lcz_lwm2m_gw_obj_lookup_ble addr) (world s))).
  destruct (negb (valid_index r) && add && negb (table_full s)) eqn:Hc.
  - destruct add; [|rewrite andb_false_r in Hc; discriminate].
    rewrite andb_true_r in Hc.
    destruct (get_index_create addr s Hc) as (s' & Hg & Ht & Hs & Hf & Hn & _).
    eexists _, s'; split; [exact Hg|]; split; [split|].
    + rewrite Ht; reflexivity.
    + apply andb_prop in Hc as [_ Hc].
      destruct (table_full s); [discriminate|]; discriminate.
    + lia.
    + lia.
    + repeat split; auto.
      intros Hm. destruct (Z.leb_spec MAX_INSTANCES
        (fst (respond (lcz_lwm2m_gw_obj_create addr)
           (world (after_call (lcz_lwm2m_gw_obj_lookup_ble addr) s)))));
        unfold EPERM; lia.
  - unfold runs; rewrite (get_index_no_create addr add s Hc).
    eexists _, _; split; [reflexivity|]; split.
    + eapply step_ok_weaken; [|apply (step_ok_after_call (lcz_lwm2m_gw_obj_lookup_ble addr))].
      simpl; lia.
    + repeat split. fold r. intros Hm.
      destruct (Z.leb_spec MAX_INSTANCES r); unfold EPERM; lia.
Qed.

End Resolution.

Section Conversion.

Context {W : Type} `{!Kconfig} `{!SensorConstants} `{!SensorLib}
        `{!Collaborators W} `{!Toolchain}.

Lemma keeps_ret {A} (a : A) (s : state W) : runs (ret a) 0 s (keeps s).
Proof. apply runs_ret; split; reflexivity. Qed.

Lemma keeps_extern c (s : state W) :
  is_create c = false -> runs (extern c) 0 s (keeps s).
Proof.
  intros Hc. exists (fst (respond c (world s))), (after_call c s).
  split; [reflexivity|]; split; [|split; reflexivity].
  pose proof (step_ok_after_call c s) as Hs. rewrite Hc in Hs. exact Hs.
Qed.

Lemma keeps_INCR_STAT f (s : state W) : runs (INCR_STAT f) 0 s (keeps s).
Proof.
  exists tt, (incr_stat f s); split; [reflexivity|]; split.
  - apply step_ok_incr_stat.
  - split; [apply table_incr_stat|apply table_full_incr_stat].
Qed.

Lemma keeps_load_slot idx (s : state W) e :
  0 <= idx -> table s !! Z.to_nat idx = Some e ->
  runs (load_slot idx) 0 s (fun r s' => r = e /\ s' = s).
Proof.
  intros Hge He. exists e, s; split; [apply load_slot_eq; assumption|].
  split; [apply step_ok_refl|split; reflexivity].
Qed.

Lemma keeps_bind {A B} (c : M W A) (f : A -> M W B) (s : state W) :
  runs c 0 s (keeps s) ->
  (forall a s', table s' = table s -> table_full s' = table_full s ->
                runs (f a) 0 s' (keeps s')) ->
  runs (bind c f) 0 s (keeps s).
Proof.
  intros Hc Hf. change 0%nat with (0 + 0)%nat.
  eapply runs_bind; [exact Hc|].
  intros a s' _ [Ht Hfl].
  eapply runs_weaken; [reflexivity| |apply Hf; assumption].
  intros b s'' _ [Ht' Hfl']; split; congruence.
Qed.

(** [ad_process] on an existing slot returns; it calls no creation and
    leaves the table and the capacity flag alone. *)
Lemma ad_process_runs idx p rssi (s : state W) e :
  0 <= idx -> table s !! Z.to_nat idx = Some e ->
  runs (ad_process idx p rssi) 0 s (keeps s).
Proof.
  intros Hge He. unfold ad_process.
  apply keeps_bind.
  - repeat case_match;
      try (apply keeps_extern; reflexivity); try apply keeps_ret.
    change 0%nat with (0 + 0)%nat.
    eapply runs_bind; [apply keeps_load_slot; eassumption|].
    intros a s' _ [-> ->].
    destruct (battery_convert (product_id e) p) as [v level].
    apply keeps_extern; reflexivity.
  - intros r s' _ _. apply keeps_bind; [apply keeps_INCR_STAT|].
    intros _ s'' _ _. destruct (r =? 0); apply keeps_INCR_STAT.
Qed.

(** C7: whenever [ad_process] hands a single-channel temperature event to
    the temperature sink (it does in every build with the temperature
    category, and calls nothing otherwise), it is at sub-channel 0 with the
    low 16 bits of the payload, read as a signed 16-bit integer, divided by
    100; the encoding of -123 gives -1.23. *)
Theorem temperature_dispatch idx p rssi (s : state W) :
  recordType p = SENSOR_EVENT_TEMPERATURE ->
  exists s',
    ad_process idx p rssi s = Some (tt, s')
    /\ trace s'
       = trace s ++ (if CONFIG_LCZ_LWM2M_TEMPERATURE
                     then [lcz_lwm2m_managed_temperature_set idx 0
                             (PrimFloat.div (double_of_Z (s16 (data_u16 p))) 100)]
                     else [])
    /\ (CONFIG_LCZ_LWM2M_TEMPERATURE = true -> s16 (data_u16 p) = -123 ->
        trace s'
        = trace s ++ [lcz_lwm2m_managed_temperature_set idx 0 (-1.23)%float]).
Proof.
  intros Ht.
  unfold ad_process, bind, extern, INCR_STAT, ret.
  rewrite Ht, Z.eqb_refl.
  destruct CONFIG_LCZ_LWM2M_TEMPERATURE.
  - match goal with |- context [if ?r =? 0 then _ else _] => destruct (r =? 0) end;
      (eexists; split; [reflexivity|]);
      rewrite !trace_incr_stat; simpl; (split; [reflexivity|]);
      intros _ ->; reflexivity.
  - simpl. eexists; split; [reflexivity|].
    rewrite !trace_incr_stat, app_nil_r. split; [reflexivity|]. discriminate.
Qed.

Lemma battery_convert_spec pid p :
  BT510_PRODUCT_ID <> BT6XX_PRODUCT_ID ->
  let '(v, level) := battery_convert pid p in
  (pid = BT510_PRODUCT_ID ->
   v = PrimFloat.div (double_of_Z (data_u16 p)) 1000
   /\ level = u8 (lcz_lwm2m_battery_get_level_bt510 v)
   /\ (data_u16 p = 3777 -> v = 3.777%float))
  /\ (pid = BT6XX_PRODUCT_ID ->
      v = PrimFloat.div (double_of_Z (u32 (data p))) 1000
      /\ level = u8 (lcz_lwm2m_battery_get_level_bt610 v)
      /\ (0 <= data_s32 p -> v = PrimFloat.div (double_of_Z (data_s32 p)) 1000))
  /\ (pid <> BT510_PRODUCT_ID -> pid <> BT6XX_PRODUCT_ID ->
      v = 0%float /\ level = 0).
Proof.
  intros Hd. unfold battery_convert. rewrite u32_data_u16, u32_data_s32.
  destruct (Z.eqb_spec pid BT510_PRODUCT_ID) as [E1|N1];
    [|destruct (Z.eqb_spec pid BT6XX_PRODUCT_ID) as [E2|N2]].
  - split; [|split]; [| intros E2; congruence | intros N1; contradiction].
    intros _. split; [reflexivity|]. split; [reflexivity|].
    intros ->; reflexivity.
  - split; [|split]; [intros E1; contradiction | | intros _ N2; contradiction].
    intros _. split; [reflexivity|]. split; [reflexivity|].
    intros Hs; rewrite (u32_nonneg_s32 p Hs); reflexivity.
  - split; [|split]; [intros E1; contradiction | intros E2; contradiction |].
    intros _ _; split; reflexivity.
Qed.

(** C2, as the code has it: for a valid index and a battery event (good or
    bad), in a build with the battery category (in any other [ad_process]
    calls nothing) the battery sink is called exactly once, at sub-channel
    0, whatever the product id. For a
    BT510 slot the voltage is the payload's unsigned 16-bit value divided
    by 1000 and the level comes from the BT510 curve (3777 gives 3.777). For
    a BT6XX slot the voltage is the payload's 32 bits read as an unsigned
    value, divided by 1000, which is the signed 32-bit value divided by 1000
    when that value is not negative, and the level comes from the BT610
    curve. For any other product id voltage and level are 0. *)
Theorem battery_dispatch idx p rssi (s : state W) e :
  case_labels_distinct = true ->
  product_labels_distinct = true ->
  In (recordType p) battery_labels ->
  valid_index idx = true ->
  table s !! Z.to_nat idx = Some e ->
  exists s' v level,
    ad_process idx p rssi s = Some (tt, s')
    /\ trace s'
       = trace s ++ (if CONFIG_LCZ_LWM2M_BATTERY
                     then [lcz_lwm2m_managed_battery_set idx 0 v level]
                     else [])
    /\ (product_id e = BT510_PRODUCT_ID ->
        v = PrimFloat.div (double_of_Z (data_u16 p)) 1000
        /\ level = u8 (lcz_lwm2m_battery_get_level_bt510 v)
        /\ (data_u16 p = 3777 -> v = 3.777%float))
    /\ (product_id e = BT6XX_PRODUCT_ID ->
        v = PrimFloat.div (double_of_Z (u32 (data p))) 1000
        /\ level = u8 (lcz_lwm2m_battery_get_level_bt610 v)
        /\ (0 <= data_s32 p ->
            v = PrimFloat.div (double_of_Z (data_s32 p)) 1000))
    /\ (product_id e <> BT510_PRODUCT_ID ->
        product_id e <> BT6XX_PRODUCT_ID ->
        v = 0%float /\ level = 0).
Proof.
  intros Hd' Hd Hin Hv He.
  assert (Hge : 0 <= idx).
  { apply andb_prop in Hv as [Hv _]. apply Z.leb_le; exact Hv. }
  assert (Hsw : (recordType p =? SENSOR_EVENT_TEMPERATURE) = false
                /\ (recordType p =? SENSOR_EVENT_TEMPERATURE_1)
                   || (recordType p =? SENSOR_EVENT_TEMPERATURE_2)
                   || (recordType p =? SENSOR_EVENT_TEMPERATURE_3)
                   || (recordType p =? SENSOR_EVENT_TEMPERATURE_4) = false
                /\ (recordType p =? SENSOR_EVENT_BATTERY_GOOD)
                   || (recordType p =? SENSOR_EVENT_BATTERY_BAD) = true).
  { distinct_labels Hd'.
    destruct Hin as [<-|[<-|[]]]; decide_labels; auto. }
  destruct Hsw as (Hs1 & Hs2 & Hs3).
  apply negb_true_iff, Z.eqb_neq in Hd.
  pose proof (battery_convert_spec (product_id e) p Hd) as Hspec.
  destruct (battery_convert (product_id e) p) as [v level] eqn:Hb.
  unfold ad_process, bind, INCR_STAT, ret.
  rewrite Hs1, Hs2, Hs3.
  destruct CONFIG_LCZ_LWM2M_BATTERY.
  - unfold bind; rewrite (load_slot_eq s idx e Hge He), Hb.
    unfold extern.
    match goal with |- context [if ?r =? 0 then _ else _] => destruct (r =? 0) end;
      (eexists _, v, level; split; [reflexivity|]);
      rewrite !trace_incr_stat; simpl; (split; [reflexivity|exact Hspec]).
  - simpl. eexists _, v, level; split; [reflexivity|].
    rewrite !trace_incr_stat, app_nil_r. split; [reflexivity|exact Hspec].
Qed.

End Conversion.

(** ** The event filter and the correlators *)

Section Filter.

Context {W : Type} `{!Kconfig} `{!SensorConstants} `{!SensorLib}
        `{!Collaborators W} `{!Toolchain}.

Lemma table_ok_nonneg (s : state W) : table_ok s -> 0 <= MAX_INSTANCES.
Proof. unfold table_ok; lia. Qed.

Lemma valid_index_nonneg idx : valid_index idx = true -> 0 <= idx.
Proof. intros Hv; apply andb_prop in Hv as [Hv _]; apply Z.leb_le; exact Hv. Qed.

(** What [ad_filter] does once the slot has been found not to hold the
    event: record it, blink, convert, extend the lifetime. *)
Lemma accept_runs idx p rssi (s : state W) e :
  0 <= idx -> table s !! Z.to_nat idx = Some e ->
  runs (store_slot idx (set_last_event (id p) (recordType p)) ;;
        (if CONFIG_LCZ_LWM2M_BLE_SENSOR_LED then extern lcz_led_blink ;; ret tt
         else ret tt) ;;
        ad_process idx p rssi ;;
        extern (lcz_lwm2m_gw_obj_set_lifetime idx LIFETIME) ;;
        ret idx) 0 s
       (fun r s' =>
          r = idx
          /\ table s' = <[Z.to_nat idx := set_last_event (id p) (recordType p) e]> (table s)
          /\ table_full s' = table_full s
          /\ exists s2 s3,
              table s2 = table s'
              /\ ad_process idx p rssi s2 = Some (tt, s3)
              /\ s' = after_call (lcz_lwm2m_gw_obj_set_lifetime idx LIFETIME) s3).
Proof.
  intros Hge He.
  eapply (runs_bind_le _ _ 0 0); [lia|apply runs_store_slot; eassumption|].
  intros ? s1 _ ->.
  set (t1 := <[Z.to_nat idx := set_last_event (id p) (recordType p) e]> (table s)).
  assert (Hslot : t1 !! Z.to_nat idx = Some (set_last_event (id p) (recordType p) e)).
  { apply list_lookup_insert_eq. eapply lookup_lt_Some; eassumption. }
  eapply (runs_bind_le _ _ 0 0 _ _ (keeps (with_table t1 s))); [lia| |].
  { destruct CONFIG_LCZ_LWM2M_BLE_SENSOR_LED; [|apply keeps_ret].
    apply keeps_bind; [apply keeps_extern; reflexivity|].
    intros; apply keeps_ret. }
  intros ? s2 _ [T2 F2]; simpl in T2, F2.
  eapply (runs_bind_le _ _ 0 0); [lia| |].
  { apply runs_eq. eapply ad_process_runs; [exact Hge|]. rewrite T2; exact Hslot. }
  intros [] s3 _ [E3 [T3 F3]].
  eapply (runs_bind_le _ _ 0 0); [lia| |].
  { apply (runs_extern (lcz_lwm2m_gw_obj_set_lifetime idx LIFETIME)). }
  intros r s4 _ [_ ->].
  apply runs_ret; simpl. repeat split; try congruence.
  exists s2, s3; repeat split; [congruence|exact E3].
Qed.

Lemma is_duplicate_spec p e :
  is_duplicate p e = true
  <-> id p <> 0 /\ id p = last_event_id e /\ recordType p = last_record_type e.
Proof.
  unfold is_duplicate.
  rewrite !andb_true_iff, negb_true_iff, Z.eqb_neq, !Z.eqb_eq. tauto.
Qed.

(** C1: once the type gate has let the event through and the address has
    resolved to the valid index [i], the event is rejected as a duplicate
    exactly when its id is not 0, equals the slot's last event id and its
    record type equals the slot's last record type. A rejection returns [i],
    changes nothing but the counter of indexed events and calls nothing
    further (no sink, no lifetime request); otherwise the slot takes the
    event's id and type, the event is converted by [ad_process] on the
    updated table and the lifetime request is the last call. An event with
    id 0 is never rejected. *)
Theorem duplicate_filter addr p rssi (s s1 : state W) i e :
  ad_discard p = false ->
  get_index addr true (incr_stat accepted_ads s) = Some (i, s1) ->
  valid_index i = true ->
  table s1 !! Z.to_nat i = Some e ->
  let duplicate :=
    id p <> 0 /\ id p = last_event_id e /\ recordType p = last_record_type e in
  (duplicate ->
   exists s', ad_filter addr (Some p) rssi s = Some (i, s')
              /\ s' = incr_stat indexed_ads s1
              /\ table s' = table s1 /\ table_full s' = table_full s1
              /\ world s' = world s1 /\ trace s' = trace s1)
  /\ (~ duplicate ->
      exists s' s2 s3,
        ad_filter addr (Some p) rssi s = Some (i, s')
        /\ table s' = <[Z.to_nat i := set_last_event (id p) (recordType p) e]> (table s1)
        /\ table s2 = table s'
        /\ ad_process i p rssi s2 = Some (tt, s3)
        /\ s' = after_call (lcz_lwm2m_gw_obj_set_lifetime i LIFETIME) s3)
  /\ (id p = 0 -> ~ duplicate).
Proof.
  intros Hd Hg Hv He duplicate.
  assert (Hge := valid_index_nonneg i Hv).
  assert (Hf : ad_filter addr (Some p) rssi s
               = (if is_duplicate p e then ret i
                  else
                    store_slot i (set_last_event (id p) (recordType p)) ;;
                    (if CONFIG_LCZ_LWM2M_BLE_SENSOR_LED
                     then extern lcz_led_blink ;; ret tt else ret tt) ;;
                    ad_process i p rssi ;;
                    extern (lcz_lwm2m_gw_obj_set_lifetime i LIFETIME) ;;
                    ret i) (incr_stat indexed_ads s1)).
  { unfold ad_filter. rewrite Hd.
    rewrite (bind_eq (INCR_STAT accepted_ads) _ s tt _ eq_refl).
    rewrite (bind_eq _ _ _ _ _ Hg), Hv. cbn [negb]. cbv iota.
    rewrite (bind_eq (INCR_STAT indexed_ads) _ s1 tt _ eq_refl).
    rewrite (bind_eq _ _ _ _ _
               (load_slot_eq (incr_stat indexed_ads s1) i e Hge
                  (eq_trans (f_equal (fun t => t !! Z.to_nat i)
                               (table_incr_stat indexed_ads s1)) He))).
    reflexivity. }
  rewrite Hf. split; [|split].
  - intros Hdup. apply is_duplicate_spec in Hdup. rewrite Hdup.
    eexists; split; [reflexivity|]. split; [reflexivity|].
    rewrite table_incr_stat, table_full_incr_stat, world_incr_stat,
      trace_incr_stat; auto.
  - intros Hn. destruct (is_duplicate p e) eqn:Hdup.
    { apply is_duplicate_spec in Hdup; contradiction. }
    destruct (accept_runs i p rssi (incr_stat indexed_ads s1) e Hge)
      as (r & s' & Hr & _ & -> & Ht & _ & s2 & s3 & E2 & E3 & E4).
    { rewrite table_incr_stat; exact He. }
    exists s', s2, s3. rewrite table_incr_stat in Ht. auto.
  - intros Hz [Hnz _]; contradiction.
Qed.

(** [ad_filter] returns from every state whose table is complete, with at
    most one creation request. *)
Lemma ad_filter_runs addr p rssi (s : state W) :
  table_ok s ->
  runs (ad_filter addr p rssi) 1 s (fun r _ => r < MAX_INSTANCES).
Proof.
  intros Hok. pose proof (table_ok_nonneg s Hok) as Hm.
  assert (He : - EPERM < MAX_INSTANCES) by (unfold EPERM; lia).
  unfold ad_filter.
  destruct p as [p|]; [|apply runs_ret_any; exact He].
  destruct (ad_discard p); [apply runs_ret_any; exact He|].
  eapply (runs_bind_le _ _ 0 1); [lia|apply runs_INCR_STAT|].
  intros ? s1 S1 T1.
  eapply (runs_bind_le _ _ 1 0); [lia|apply get_index_runs|].
  intros idx s2 S2 (T2 & _ & Hlt). specialize (Hlt Hm).
  destruct (valid_index idx) eqn:Hv; simpl negb; cbv iota;
    [|apply runs_ret_any; exact Hlt].
  destruct (slot_exists s idx Hok Hv) as [e He'].
  pose proof (valid_index_nonneg idx Hv) as Hge.
  eapply (runs_bind_le _ _ 0 0); [lia|apply runs_INCR_STAT|].
  intros ? s3 S3 T3.
  eapply (runs_bind_le _ _ 0 0); [lia|apply (keeps_load_slot idx s3 e Hge)|].
  { rewrite T3, T2, T1; exact He'. }
  intros e' s4 _ [-> ->].
  destruct (is_duplicate p e); [apply runs_ret_any; exact Hlt|].
  eapply runs_weaken; [reflexivity| |eapply accept_runs; [exact Hge|]].
  - intros r s5 _ (-> & _); exact Hlt.
  - rewrite T3, T2, T1; exact He'.
Qed.

(** [rsp_handler] returns from every state whose table is complete, without
    a creation request; a non-negative result is a slot, which then holds
    the response's product id. *)
Lemma rsp_handler_runs addr p (s : state W) :
  table_ok s ->
  runs (rsp_handler addr (Some p)) 0 s
       (fun r s' =>
          r < MAX_INSTANCES
          /\ table_full s' = table_full s
          /\ (r < 0 -> table s' = table s)
          /\ (0 <= r -> exists e,
                table s !! Z.to_nat r = Some e
                /\ table s' = <[Z.to_nat r := set_product_id (productId p) e]> (table s))).
Proof.
  intros Hok. pose proof (table_ok_nonneg s Hok) as Hm.
  unfold rsp_handler.
  set (r := fst (respond (lcz_lwm2m_gw_obj_lookup_ble addr) (world s))).
  assert (Hg : get_index addr false s
               = Some (if MAX_INSTANCES <=? r then - EPERM else r,
                       after_call (lcz_lwm2m_gw_obj_lookup_ble addr) s)).
  { apply get_index_no_create. rewrite andb_false_r; reflexivity. }
  set (idx := if MAX_INSTANCES <=? r then - EPERM else r) in *.
  assert (Hlt : idx < MAX_INSTANCES).
  { unfold idx; destruct (Z.leb_spec MAX_INSTANCES r); unfold EPERM; lia. }
  eapply (runs_bind_le _ _ 0 0 _ _
            (fun a s' => a = idx
                         /\ s' = after_call (lcz_lwm2m_gw_obj_lookup_ble addr) s));
    [lia| |].
  { exists idx, (after_call (lcz_lwm2m_gw_obj_lookup_ble addr) s).
    split; [exact Hg|]; split; [|auto].
    apply (step_ok_after_call (lcz_lwm2m_gw_obj_lookup_ble addr)). }
  intros a s1 _ [-> ->].
  destruct (Z.leb_spec 0 idx) as [Hge|Hneg].
  - assert (Hv : valid_index idx = true).
    { unfold valid_index. apply andb_true_intro; split;
        [apply Z.leb_le|apply Z.ltb_lt]; assumption. }
    destruct (slot_exists s idx Hok Hv) as [e He].
    eapply (runs_bind_le _ _ 0 0);
      [lia
      |apply (runs_store_slot (after_call (lcz_lwm2m_gw_obj_lookup_ble addr) s)
                idx _ e Hge He)|].
    intros ? s2 _ ->. apply runs_ret; simpl.
    repeat split; auto; [lia|]. intros _; exists e; auto.
  - apply runs_ret; simpl. repeat split; auto; lia.
Qed.

Lemma name_handler_runs idx ad (s : state W) :
  runs (name_handler idx ad) 0 s (keeps s).
Proof.
  unfold name_handler.
  destruct (valid_index idx); simpl negb; cbv iota zeta; [|apply keeps_ret].
  destruct (pPayload (AdFind_Name ad)); [|apply keeps_ret].
  apply keeps_bind; [apply keeps_extern; reflexivity|].
  intros created s1 _ _.
  destruct (created =? 0); simpl negb; cbv iota; [|apply keeps_ret].
  apply keeps_bind; [apply keeps_extern; reflexivity|].
  intros r s2 _ _. destruct (r =? 0); [apply keeps_INCR_STAT|apply keeps_ret].
Qed.

Lemma gw_obj_removed_invalid idx (s : state W) :
  valid_index idx = false -> gw_obj_removed idx s = Some (0, s).
Proof. intros Hv; unfold gw_obj_removed; rewrite Hv; reflexivity. Qed.

Lemma gw_obj_removed_valid idx (s : state W) e :
  valid_index idx = true -> table s !! Z.to_nat idx = Some e ->
  gw_obj_removed idx s
  = Some (0, with_table (<[Z.to_nat idx := set_product_id INVALID_PRODUCT_ID e]> (table s))
               (with_table_full false s)).
Proof.
  intros Hv He; unfold gw_obj_removed; rewrite Hv.
  unfold bind, set_table_full.
  rewrite (store_slot_eq (with_table_full false s) idx _ e
             (valid_index_nonneg idx Hv) He).
  reflexivity.
Qed.

(** The scan-response path of [ad_handler]: correlate, then name. *)
Lemma correlate_runs addr p ad (s : state W) :
  table_ok s ->
  runs (idx <- rsp_handler addr (Some p) ;; name_handler idx ad) 0 s
       (fun _ _ => True).
Proof.
  intros Hok.
  eapply (runs_bind_le _ _ 0 0); [lia|apply rsp_handler_runs; exact Hok|].
  intros idx s1 _ _.
  eapply runs_weaken; [reflexivity| |apply name_handler_runs]. auto.
Qed.

(** A frame that [ad_handler] finishes processing leaves the table
    complete, a set capacity flag set, and has asked for at most one
    creation. *)
Lemma ad_handler_step addr rssi type ad (s s' : state W) :
  table_ok s ->
  ad_handler addr rssi type ad s = Some (tt, s') ->
  step_ok 1 s s'.
Proof.
  intros Hok. unfold ad_handler.
  set (handle := AdFind_Type ad BT_DATA_MANUFACTURER_DATA BT_DATA_INVALID).
  intros Hrun.
  assert (Hr : runs (INCR_STAT ads ;;
     (if lcz_sensor_adv_match_1m handle
      then ad_filter addr (option_map as_LczSensorAdEvent (pPayload handle)) rssi ;;
           INCR_STAT legacy_ads
      else if lcz_sensor_adv_match_coded handle
      then INCR_STAT coded_ads ;;
           match pPayload handle with
           | Some bytes =>
               ad_filter addr (Some (fst (as_LczSensorAdCoded bytes))) rssi ;;
               idx <- rsp_handler addr (Some (snd (as_LczSensorAdCoded bytes))) ;;
               name_handler idx ad
           | None => fun _ => None
           end
      else if lcz_sensor_adv_match_rsp handle
      then INCR_STAT rsp_ads ;;
           match pPayload handle with
           | Some bytes =>
               idx <- rsp_handler addr (Some (as_LczSensorRspWithHeader bytes)) ;;
               name_handler idx ad
           | None => fun _ => None
           end
      else ret tt)) 1 s (fun _ _ => True)
     \/ ad_handler addr rssi type ad s = None).
  { destruct (lcz_sensor_adv_match_1m handle) eqn:H1m.
    { left. eapply (runs_bind_le _ _ 0 1); [lia|apply runs_INCR_STAT|].
      intros ? s1 S1 _.
      eapply (runs_bind_le _ _ 1 0);
        [lia|apply ad_filter_runs; eapply table_ok_step; eassumption|].
      intros ? s2 _ _.
      eapply runs_weaken; [reflexivity| |apply runs_INCR_STAT]. auto. }
    destruct (lcz_sensor_adv_match_coded handle) eqn:Hcoded.
    { destruct (pPayload handle) as [bytes|] eqn:Hp.
      - left. eapply (runs_bind_le _ _ 0 1); [lia|apply runs_INCR_STAT|].
        intros ? s1 S1 _.
        eapply (runs_bind_le _ _ 0 1); [lia|apply runs_INCR_STAT|].
        intros ? s2 S2 _.
        assert (Hok2 : table_ok s2) by (eauto using table_ok_step).
        eapply (runs_bind_le _ _ 1 0); [lia|apply ad_filter_runs; exact Hok2|].
        intros ? s3 S3 _.
        apply correlate_runs. eapply table_ok_step; eassumption.
      - right. unfold ad_handler. fold handle.
        rewrite H1m, Hcoded, Hp. reflexivity. }
    destruct (lcz_sensor_adv_match_rsp handle) eqn:Hrsp.
    { destruct (pPayload handle) as [bytes|] eqn:Hp.
      - left. eapply (runs_bind_le _ _ 0 1); [lia|apply runs_INCR_STAT|].
        intros ? s1 S1 _.
        eapply (runs_bind_le _ _ 0 1); [lia|apply runs_INCR_STAT|].
        intros ? s2 S2 _.
        eapply runs_weaken; [| |apply correlate_runs]; [lia|auto|].
        eauto using table_ok_step.
      - right. unfold ad_handler. fold handle.
        rewrite H1m, Hcoded, Hrsp, Hp. reflexivity. }
    left. eapply (runs_bind_le _ _ 0 0); [lia|apply runs_INCR_STAT|].
    intros; apply runs_ret; exact I. }
  destruct Hr as [Hr|Hn].
  - apply (runs_inv _ _ _ _ _ _ Hr) in Hrun. tauto.
  - unfold ad_handler in Hn. fold handle in Hn. congruence.
Qed.

Lemma ad_discard_unknown p : record_type_unknown p -> ad_discard p = true.
Proof.
  unfold record_type_unknown, sensor_event_labels, temperature_labels,
    battery_labels, current_labels, pressure_labels, fill_level_labels.
  simpl. intros Hn. unfold ad_discard.
  repeat match goal with
         | |- context [?a =? ?b] =>
             let E := fresh "E" in
             destruct (Z.eqb_spec a b) as [E|E];
             [exfalso; apply Hn; symmetry in E; tauto|]
         end.
  reflexivity.
Qed.

Lemma ad_discard_disabled p :
  case_labels_distinct = true -> record_type_disabled p -> ad_discard p = true.
Proof.
  intros Hd Hp. distinct_labels Hd.
  unfold record_type_disabled, temperature_labels, battery_labels,
    current_labels, pressure_labels, fill_level_labels in Hp.
  simpl in Hp. unfold ad_discard.
  destruct Hp as [[Hin Hc]|[[Hin Hc]|[[Hin Hc]|[[Hin Hc]|[Hin Hc]]]]];
    rewrite Hc;
    repeat match type of Hin with
           | _ \/ _ => destruct Hin as [Hin|Hin]
           | False => destruct Hin
           end;
    rewrite <- Hin; decide_labels; reflexivity.
Qed.

(** C4: an event whose record type is none of the case labels, or belongs
    to a category that is compiled out, is rejected by [ad_filter] with
    nothing done: the state afterwards is the state before, so no directory
    call was made, no record created, and the capacity flag and every table
    slot are as they were. *)
Theorem discarded_event_touches_nothing addr p rssi (s : state W) :
  (record_type_unknown p ->
   ad_discard p = true /\ ad_filter addr (Some p) rssi s = Some (- EPERM, s))
  /\ (case_labels_distinct = true -> record_type_disabled p ->
      ad_discard p = true /\ ad_filter addr (Some p) rssi s = Some (- EPERM, s)).
Proof.
  split.
  - intros Hu. pose proof (ad_discard_unknown p Hu) as Hd.
    split; [exact Hd|]. unfold ad_filter; rewrite Hd; reflexivity.
  - intros Hl Hp. pose proof (ad_discard_disabled p Hl Hp) as Hd.
    split; [exact Hd|]. unfold ad_filter; rewrite Hd; reflexivity.
Qed.

(** C10: with a null event payload [ad_filter], and with a null scan
    response [rsp_handler], return [-EPERM] and leave the whole state as it
    was: no directory call, no change to the table or to the capacity flag. *)
Theorem null_payload_rejected addr rssi (s : state W) :
  ad_filter addr None rssi s = Some (- EPERM, s)
  /\ rsp_handler addr None s = Some (- EPERM, s).
Proof. split; reflexivity. Qed.

Lemma clamp_invalid r :
  valid_index r = false ->
  valid_index (if MAX_INSTANCES <=? r then - EPERM else r) = false.
Proof.
  intros Hv. destruct (MAX_INSTANCES <=? r); [reflexivity|exact Hv].
Qed.

(** C3: the capacity flag is a latch. For an address the directory does not
    know: with the flag clear, [get_index] asks for a creation, and the flag
    is set afterwards exactly when the answer was [-ENOMEM] (so not for
    [-EPERM]); with the flag set, [get_index] returns an invalid index after
    the lookup alone, with no creation request. No frame-processing function
    clears a set flag; [gw_obj_removed] clears it, and only for a valid
    index. *)
Theorem capacity_flag_latch addr (s : state W) :
  table_ok s ->
  let r := fst (respond (lcz_lwm2m_gw_obj_lookup_ble addr) (world s)) in
  let s1 := after_call (lcz_lwm2m_gw_obj_lookup_ble addr) s in
  let r' := fst (respond (lcz_lwm2m_gw_obj_create addr) (world s1)) in
  (valid_index r = false -> table_full s = false ->
   exists s' log,
     get_index addr true s = Some (if MAX_INSTANCES <=? r' then - EPERM else r', s')
     /\ trace s' = trace s ++ [lcz_lwm2m_gw_obj_lookup_ble addr;
                               lcz_lwm2m_gw_obj_create addr] ++ log
     /\ table_full s' = (r' =? - ENOMEM)
     /\ (r' = - ENOMEM -> table_full s' = true)
     /\ (r' = - EPERM -> table_full s' = false))
  /\ (valid_index r = false -> table_full s = true ->
      exists idx,
        get_index addr true s = Some (idx, s1)
        /\ valid_index idx = false
        /\ trace s1 = trace s ++ [lcz_lwm2m_gw_obj_lookup_ble addr]
        /\ table_full s1 = true)
  /\ (table_full s = true ->
      (forall a add i s', get_index a add s = Some (i, s') -> table_full s' = true)
      /\ (forall a p rssi i s',
            ad_filter a p rssi s = Some (i, s') -> table_full s' = true)
      /\ (forall i p rssi s',
            valid_index i = true ->
            ad_process i p rssi s = Some (tt, s') -> table_full s' = true)
      /\ (forall a p i s',
            rsp_handler a p s = Some (i, s') -> table_full s' = true)
      /\ (forall i ad s',
            name_handler i ad s = Some (tt, s') -> table_full s' = true)
      /\ (forall a rssi type ad s',
            ad_handler a rssi type ad s = Some (tt, s') -> table_full s' = true))
  /\ (forall i, exists s',
        gw_obj_removed i s = Some (0, s')
        /\ table_full s' = if valid_index i then false else table_full s).
Proof.
  intros Hok r s1 r'. split; [|split; [|split]].
  - intros Hv Hf.
    destruct (get_index_create addr s) as (s' & Hg & _ & _ & Hfl & _ & log & Hlog & _).
    { fold r; rewrite Hv, Hf; reflexivity. }
    exists s', log. split; [exact Hg|]. split; [exact Hlog|].
    split; [exact Hfl|]. fold s1 r' in Hfl. rewrite Hfl.
    split; intros ->; reflexivity.
  - intros Hv Hf. eexists; split; [|split; [|split]].
    + apply get_index_no_create. rewrite Hf, andb_false_r; reflexivity.
    + apply clamp_invalid; exact Hv.
    + reflexivity.
    + exact Hf.
  - intros Hf. repeat split.
    + intros a add i s' Hg.
      apply (runs_inv _ _ _ _ _ _ (get_index_runs a add s)) in Hg as [[_ L _ _] _].
      auto.
    + intros a p rssi i s' Hg.
      apply (runs_inv _ _ _ _ _ _ (ad_filter_runs a p rssi s Hok)) in Hg as [[_ L _ _] _].
      auto.
    + intros i p rssi s' Hi Hg.
      destruct (slot_exists s i Hok Hi) as [e He].
      apply (runs_inv _ _ _ _ _ _
               (ad_process_runs i p rssi s e (valid_index_nonneg i Hi) He))
        in Hg as [[_ L _ _] _].
      auto.
    + intros a [p|] i s' Hg.
      * apply (runs_inv _ _ _ _ _ _ (rsp_handler_runs a p s Hok)) in Hg as [[_ L _ _] _].
        auto.
      * injection Hg as _ <-; exact Hf.
    + intros i ad s' Hg.
      apply (runs_inv _ _ _ _ _ _ (name_handler_runs i ad s)) in Hg as [[_ L _ _] _].
      auto.
    + intros a rssi type ad s' Hg.
      destruct (ad_handler_step a rssi type ad s s' Hok Hg) as [_ L _ _]. auto.
  - intros i. destruct (valid_index i) eqn:Hi.
    + destruct (slot_exists s i Hok Hi) as [e He].
      eexists; split; [apply (gw_obj_removed_valid i s e Hi He)|reflexivity].
    + eexists; split; [apply (gw_obj_removed_invalid i s Hi)|reflexivity].
Qed.

Lemma load_slot_fault idx (s : state W) :
  table_ok s -> (load_slot idx s = None <-> valid_index idx = false).
Proof.
  unfold table_ok, load_slot, valid_index; intros Hok.
  destruct (Z.leb_spec 0 idx) as [Hge|Hneg]; simpl; [|tauto].
  destruct (table s !! Z.to_nat idx) eqn:He.
  - apply lookup_lt_Some in He.
    split; [discriminate|]. intros Hlt; apply Z.ltb_ge in Hlt; lia.
  - apply lookup_ge_None in He.
    split; [|reflexivity]. intros _; apply Z.ltb_ge; lia.
Qed.

Lemma store_slot_fault idx f (s : state W) :
  table_ok s -> (store_slot idx f s = None <-> valid_index idx = false).
Proof.
  unfold table_ok, store_slot, valid_index; intros Hok.
  destruct (Z.leb_spec 0 idx) as [Hge|Hneg]; simpl; [|tauto].
  destruct (table s !! Z.to_nat idx) eqn:He.
  - apply lookup_lt_Some in He.
    split; [discriminate|]. intros Hlt; apply Z.ltb_ge in Hlt; lia.
  - apply lookup_ge_None in He.
    split; [|reflexivity]. intros _; apply Z.ltb_ge; lia.
Qed.

(** C6: on a complete table, a table access faults exactly when its index is
    outside [0, MAX_INSTANCES). [get_index] returns, whatever the directory
    answers, a value below [MAX_INSTANCES]: the answer itself, or [-EPERM]
    when the answer is [MAX_INSTANCES] or more. [ad_filter], [rsp_handler],
    [gw_obj_removed], and [ad_process] on a valid index, never fault, and
    leave the table complete. *)
Theorem table_access_in_bounds (s : state W) :
  table_ok s ->
  (forall idx f,
     (load_slot idx s = None <-> valid_index idx = false)
     /\ (store_slot idx f s = None <-> valid_index idx = false))
  /\ (forall addr add,
        let s1 := after_call (lcz_lwm2m_gw_obj_lookup_ble addr) s in
        let r := fst (respond (lcz_lwm2m_gw_obj_lookup_ble addr) (world s)) in
        let r' := fst (respond (lcz_lwm2m_gw_obj_create addr) (world s1)) in
        exists i s',
          get_index addr add s = Some (i, s')
          /\ (i = (if MAX_INSTANCES <=? r then - EPERM else r)
              \/ i = (if MAX_INSTANCES <=? r' then - EPERM else r'))
          /\ i < MAX_INSTANCES /\ table_ok s')
  /\ (forall addr p rssi, exists i s',
        ad_filter addr p rssi s = Some (i, s') /\ table_ok s')
  /\ (forall idx p rssi, valid_index idx = true -> exists s',
        ad_process idx p rssi s = Some (tt, s') /\ table_ok s')
  /\ (forall addr p, exists i s',
        rsp_handler addr p s = Some (i, s') /\ table_ok s')
  /\ (forall idx, exists s', gw_obj_removed idx s = Some (0, s') /\ table_ok s').
Proof.
  intros Hok. pose proof (table_ok_nonneg s Hok) as Hm.
  split; [|split; [|split; [|split; [|split]]]].
  - intros idx f; split; [apply load_slot_fault|apply store_slot_fault]; exact Hok.
  - intros addr add s1 r r'.
    destruct (negb (valid_index r) && add && negb (table_full s)) eqn:Hc.
    + destruct add; [|rewrite andb_false_r in Hc; discriminate].
      rewrite andb_true_r in Hc.
      destruct (get_index_create addr s Hc) as (s' & Hg & Ht & _).
      eexists _, s'; split; [exact Hg|]; split; [right; reflexivity|]; split.
      * fold s1 r'. destruct (Z.leb_spec MAX_INSTANCES r'); unfold EPERM; lia.
      * unfold table_ok; rewrite Ht; exact Hok.
    + eexists _, _; split; [apply get_index_no_create; exact Hc|].
      split; [left; reflexivity|]; split.
      * fold r. destruct (Z.leb_spec MAX_INSTANCES r); unfold EPERM; lia.
      * exact Hok.
  - intros addr p rssi.
    destruct (ad_filter_runs addr p rssi s Hok) as (i & s' & Hr & Hs & _).
    exists i, s'; split; [exact Hr|]. eapply table_ok_step; eassumption.
  - intros idx p rssi Hv.
    destruct (slot_exists s idx Hok Hv) as [e He].
    destruct (ad_process_runs idx p rssi s e (valid_index_nonneg idx Hv) He)
      as ([] & s' & Hr & Hs & _).
    exists s'; split; [exact Hr|]. eapply table_ok_step; eassumption.
  - intros addr [p|].
    + destruct (rsp_handler_runs addr p s Hok) as (i & s' & Hr & Hs & _).
      exists i, s'; split; [exact Hr|]. eapply table_ok_step; eassumption.
    + exists (- EPERM), s; split; [reflexivity|exact Hok].
  - intros idx. destruct (valid_index idx) eqn:Hv.
    + destruct (slot_exists s idx Hok Hv) as [e He].
      eexists; split; [apply (gw_obj_removed_valid idx s e Hv He)|].
      unfold table_ok; simpl. rewrite length_insert; exact Hok.
    + exists s; split; [apply gw_obj_removed_invalid; exact Hv|exact Hok].
Qed.

Lemma no_creation (s s' : state W) :
  step_ok 0 s s' ->
  count_calls is_create (trace s') = count_calls is_create (trace s).
Proof. intros [_ _ L U]; lia. Qed.

(** [name_handler] when the index is valid and the frame has a name. *)
Lemma name_handler_named idx ad name (s : state W) :
  valid_index idx = true ->
  pPayload (AdFind_Name ad) = Some name ->
  let s1 := after_call (lcz_lwm2m_gw_obj_inst_created idx) s in
  let set := lcz_lwm2m_gw_obj_set_endpoint_name idx name (size (AdFind_Name ad)) in
  name_handler idx ad s
  = if fst (respond (lcz_lwm2m_gw_obj_inst_created idx) (world s)) =? 0
    then Some (tt, if fst (respond set (world s1)) =? 0
                   then incr_stat name_updates (after_call set s1)
                   else after_call set s1)
    else Some (tt, s1).
Proof.
  intros Hv Hn s1 set. unfold name_handler. cbv zeta.
  rewrite Hv, Hn. cbn [negb]. cbv iota.
  rewrite (bind_eq (extern (lcz_lwm2m_gw_obj_inst_created idx)) _ s _ _ eq_refl).
  fold s1.
  destruct (fst (respond (lcz_lwm2m_gw_obj_inst_created idx) (world s)) =? 0);
    cbn [negb]; cbv iota; [|reflexivity].
  fold set. rewrite (bind_eq (extern set) _ s1 _ _ eq_refl).
  destruct (fst (respond set (world s1)) =? 0); reflexivity.
Qed.


(** C9: [gw_obj_removed] changes nothing for an invalid index. For a valid
    index it clears the capacity flag, whichever slot that is, and sets the
    slot's product id to the invalid value, leaving the rest of the state;
    calling it again changes nothing more. The state after the removal does
    not depend on the product id the slot held, and a scan response that
    then resolves to the slot leaves the response's product id there. *)
Theorem removal_resets_slot idx e (s : state W) :
  table_ok s ->
  valid_index idx = true ->
  table s !! Z.to_nat idx = Some e ->
  let reset := {| last_record_type := last_record_type e;
                  last_event_id := last_event_id e;
                  product_id := INVALID_PRODUCT_ID |} in
  (forall i (s0 : state W),
     valid_index i = false -> gw_obj_removed i s0 = Some (0, s0))
  /\ exists s',
      gw_obj_removed idx s = Some (0, s')
      /\ table_full s' = false
      /\ table s' = <[Z.to_nat idx := reset]> (table s)
      /\ stats s' = stats s /\ world s' = world s /\ trace s' = trace s
      /\ gw_obj_removed idx s' = Some (0, s')
      /\ (forall pid,
            gw_obj_removed idx
              (with_table (<[Z.to_nat idx := set_product_id pid e]> (table s)) s)
            = Some (0, s'))
      /\ (forall addr p s'',
            rsp_handler addr (Some p) s' = Some (idx, s'') ->
            table s'' !! Z.to_nat idx
            = Some {| last_record_type := last_record_type e;
                      last_event_id := last_event_id e;
                      product_id := productId p |}).
Proof.
  intros Hok Hv He reset. split.
  - intros i s0 Hi; apply gw_obj_removed_invalid; exact Hi.
  - pose proof (lookup_lt_Some _ _ _ He) as Hlt.
    set (s' := with_table (<[Z.to_nat idx := set_product_id INVALID_PRODUCT_ID e]> (table s))
                 (with_table_full false s)).
    assert (Hok' : table_ok s').
    { unfold table_ok, s'; simpl. rewrite length_insert; exact Hok. }
    assert (He' : table s' !! Z.to_nat idx = Some reset).
    { unfold s'; simpl. apply list_lookup_insert_eq; exact Hlt. }
    exists s'; split; [apply (gw_obj_removed_valid idx s e Hv He)|].
    split; [reflexivity|]. split; [reflexivity|].
    split; [reflexivity|]. split; [reflexivity|]. split; [reflexivity|].
    split; [|split].
    + rewrite (gw_obj_removed_valid idx s' reset Hv He').
      unfold s'; simpl. rewrite list_insert_insert_eq. reflexivity.
    + intros pid.
      rewrite (gw_obj_removed_valid idx _ (set_product_id pid e) Hv).
      * unfold s'; simpl. rewrite list_insert_insert_eq. reflexivity.
      * simpl. apply list_lookup_insert_eq; exact Hlt.
    + intros addr p s'' Hr.
      destruct (rsp_handler_runs addr p s' Hok')
        as (i & s2 & Hr' & _ & _ & _ & _ & Hst).
      rewrite Hr in Hr'; injection Hr' as <- <-.
      destruct (Hst (valid_index_nonneg idx Hv)) as (e' & Hl & ->).
      rewrite He' in Hl; injection Hl as <-.
      apply list_lookup_insert_eq.
      unfold s'; simpl. rewrite length_insert; exact Hlt.
Qed.

End Filter.

(** ** Initialisation *)

Section Initialisation.

Context {W : Type} `{!Kconfig} `{!SensorConstants} `{!SensorLib}
        `{!Collaborators W} `{!Toolchain}.

(** The loop of [lcz_lwm2m_ble_sensor_init] from [idx] on: the slots below
    [idx] are kept, the others get the invalid product id. *)
Lemma init_loop_runs n : forall idx (s : state W),
  0 <= idx ->
  Z.of_nat (length (table s)) = idx + Z.of_nat n ->
  MAX_INSTANCES = idx + Z.of_nat n ->
  exists s',
    init_loop n idx s = Some (tt, s')
    /\ length (table s') = length (table s)
    /\ table_full s' = table_full s /\ trace s' = trace s /\ world s' = world s
    /\ (forall j, (j < Z.to_nat idx)%nat -> table s' !! j = table s !! j)
    /\ (forall j e, (Z.to_nat idx <= j)%nat -> table s' !! j = Some e ->
                    product_id e = INVALID_PRODUCT_ID).
Proof.
  induction n as [|n IH]; intros idx s Hge Hlen Hmax.
  - exists s; simpl. repeat split; auto.
    intros j e Hj He. apply lookup_lt_Some in He. lia.
  - simpl. destruct (Z.ltb_spec idx MAX_INSTANCES) as [_|Hn]; [|lia].
    destruct (lookup_lt_is_Some_2 (table s) (Z.to_nat idx) ltac:(lia)) as [e0 He0].
    rewrite (bind_eq _ _ _ _ _ (store_slot_eq s idx _ e0 Hge He0)).
    set (s1 := with_table _ s).
    destruct (IH (idx + 1) s1) as (s' & E & L & F & T & Wd & Lo & Hi).
    { lia. }
    { unfold s1; simpl. rewrite length_insert. lia. }
    { lia. }
    exists s'. split; [exact E|]. unfold s1 in *; simpl in *.
    rewrite length_insert in L.
    repeat split; auto.
    + intros j Hj. rewrite Lo by lia. apply list_lookup_insert_ne. lia.
    + intros j e Hj He.
      destruct (decide (j = Z.to_nat idx)) as [->|Hne].
      * rewrite Lo in He by lia.
        rewrite list_lookup_insert_eq in He by (eapply lookup_lt_Some; eassumption).
        injection He as <-. reflexivity.
      * apply (Hi j e); [lia|exact He].
Qed.

(** After [lcz_lwm2m_ble_sensor_init] the table is complete, the capacity
    flag is clear and every slot has the invalid product id. *)
Lemma init_establishes_table (w : W) :
  0 <= MAX_INSTANCES ->
  exists s',
    lcz_lwm2m_ble_sensor_init (boot w) = Some (0, s')
    /\ table_ok s' /\ table_full s' = false
    /\ (forall j e, table s' !! j = Some e -> product_id e = INVALID_PRODUCT_ID).
Proof.
  intros Hm.
  destruct (init_loop_runs (Z.to_nat MAX_INSTANCES) 0 (boot w)) as
    (s1 & E & L & F & T & Wd & _ & Hi).
  { lia. }
  { simpl. rewrite length_replicate. lia. }
  { lia. }
  unfold lcz_lwm2m_ble_sensor_init.
  rewrite (bind_eq _ _ _ _ _ E).
  eexists; split; [reflexivity|].
  unfold table_ok; simpl. rewrite L; simpl. rewrite length_replicate.
  split; [lia|]. split; [exact F|].
  intros j e He. apply (Hi j e); [simpl; lia|exact He].
Qed.

End Initialisation.

(** ** Footprints of the functions *)

(** Settles an inclusion between two concrete footprints. *)
Ltac includes_tac :=
  unfold includes; simpl;
  repeat split; try (intros; assumption); try discriminate;
  try (let x := fresh "x" in
       let Hx := fresh "Hx" in
       intros x; destruct x; simpl; intros Hx;
       solve [reflexivity|discriminate Hx]).

Section FootprintRules.

Context {W : Type} `{!Kconfig} `{!SensorConstants} `{!SensorLib}
        `{!Collaborators W} `{!Toolchain}.

Variable R : state W -> state W -> Prop.

Lemma closed_sub small big :
  includes small big -> closed R big -> closed R small.
Proof.
  intros (Ic & Is & Im & Ip & If & Il & Iv) C.
  split.
  - apply (closed_refl R big C).
  - apply (closed_trans R big C).
  - intros c s Hc; apply (closed_call R big C); auto.
  - intros f s Hf; apply (closed_stat R big C); auto.
  - intros Hm; apply (closed_markers R big C); auto.
  - intros Hp; apply (closed_product R big C); auto.
  - intros Hf; apply (closed_set_full R big C); auto.
  - intros Hf; apply (closed_clear_full R big C); auto.
  - intros Hv; apply (closed_convert R big C); auto.
Qed.

Section Steps.

Variable fp : footprint.
Hypothesis C : closed R fp.

Lemma respects_ret {A} (a : A) : respects R (ret a).
Proof. intros s a' s' E; injection E as _ <-; apply (closed_refl R fp C). Qed.

Lemma respects_fault {A} : respects R (fun _ => None : option (A * state W)).
Proof. intros s a s' E; discriminate E. Qed.

Lemma respects_bind {A B} (c : M W A) (k : A -> M W B) :
  respects R c -> (forall a, respects R (k a)) -> respects R (bind c k).
Proof.
  intros Hc Hk s b s'' E. unfold bind in E.
  destruct (c s) as [[a s']|] eqn:Ec; [|discriminate E].
  eapply (closed_trans R fp C); [eapply Hc; exact Ec|eapply Hk; exact E].
Qed.

Lemma respects_extern c : fp_call fp c = true -> respects R (extern c).
Proof.
  intros Hc s a s' E; injection E as _ <-. apply (closed_call R fp C); exact Hc.
Qed.

Lemma respects_INCR_STAT f : fp_stat fp f = true -> respects R (INCR_STAT f).
Proof.
  intros Hf s a s' E; injection E as _ <-. apply (closed_stat R fp C); exact Hf.
Qed.

Lemma respects_load_slot idx : respects R (load_slot idx).
Proof.
  intros s e s' E. unfold load_slot in E.
  destruct (0 <=? idx); [|discriminate E].
  destruct (table s !! Z.to_nat idx); [|discriminate E].
  injection E as _ <-. apply (closed_refl R fp C).
Qed.

Lemma respects_get_table_full : respects R get_table_full.
Proof. intros s b s' E; injection E as _ <-; apply (closed_refl R fp C). Qed.

Lemma respects_set_table_full_true :
  fp_set_full fp = true -> respects R (set_table_full true).
Proof.
  intros Hf s a s' E; injection E as _ <-. apply (closed_set_full R fp C Hf).
Qed.

Lemma respects_set_table_full_false :
  fp_clear_full fp = true -> respects R (set_table_full false).
Proof.
  intros Hf s a s' E; injection E as _ <-. apply (closed_clear_full R fp C Hf).
Qed.

Lemma respects_store_markers idx i t :
  fp_markers fp = true -> respects R (store_slot idx (set_last_event i t)).
Proof.
  intros Hm s a s' E. unfold store_slot in E.
  destruct (0 <=? idx); [|discriminate E].
  destruct (table s !! Z.to_nat idx) as [e|] eqn:He; [|discriminate E].
  injection E as _ <-. apply (closed_markers R fp C Hm); exact He.
Qed.

Lemma respects_store_product idx v :
  fp_product fp = true -> respects R (store_slot idx (set_product_id v)).
Proof.
  intros Hp s a s' E. unfold store_slot in E.
  destruct (0 <=? idx); [|discriminate E].
  destruct (table s !! Z.to_nat idx) as [e|] eqn:He; [|discriminate E].
  injection E as _ <-. apply (closed_product R fp C Hp); exact He.
Qed.

End Steps.

End FootprintRules.

(** Reduces a goal [respects R c] along the structure of [c], for a
    footprint [fp] under which [R] is closed by [C]. *)
Ltac footprint_steps fp C :=
  repeat first
    [ apply (respects_ret _ fp C)
    | apply (respects_fault _)
    | apply (respects_load_slot _ fp C)
    | apply (respects_get_table_full _ fp C)
    | apply (respects_extern _ fp C); reflexivity
    | apply (respects_INCR_STAT _ fp C); reflexivity
    | apply (respects_store_markers _ fp C); reflexivity
    | apply (respects_store_product _ fp C); reflexivity
    | apply (respects_set_table_full_true _ fp C); reflexivity
    | apply (respects_set_table_full_false _ fp C); reflexivity
    | apply (respects_bind _ fp C)
    | progress intros
    | match goal with
      | |- respects _ (if ?b then _ else _) => destruct b
      | |- respects _ (match ?o with Some _ => _ | None => _ end) => destruct o
      | |- respects _ (let '(_, _) := ?x in _) => destruct x
      end ].

Section FunctionFootprints.

Context {W : Type} `{!Kconfig} `{!SensorConstants} `{!SensorLib}
        `{!Collaborators W} `{!Toolchain}.

Variable R : state W -> state W -> Prop.

Lemma get_index_footprint addr add :
  closed R (fp_get_index add) -> respects R (get_index addr add).
Proof.
  intros C. unfold get_index, get_name.
  apply (respects_bind _ _ C).
  { apply (respects_extern _ _ C); reflexivity. }
  intros idx. apply (respects_bind _ _ C); [apply (respects_get_table_full _ _ C)|].
  intros full. apply (respects_bind _ _ C).
  - destruct (negb (valid_index idx) && add && negb full) eqn:Hc;
      [|apply (respects_ret _ _ C)].
    assert (add = true) as ->.
    { destruct add; [reflexivity|]. rewrite andb_false_r in Hc; discriminate Hc. }
    footprint_steps (fp_get_index true) C.
  - footprint_steps (fp_get_index add) C.
Qed.

Lemma ad_process_footprint idx p rssi :
  closed R fp_ad_process -> respects R (ad_process idx p rssi).
Proof.
  intros C. unfold ad_process. footprint_steps fp_ad_process C.
Qed.

Lemma ad_filter_footprint addr p rssi :
  closed R fp_ad_filter -> respects R (ad_filter addr p rssi).
Proof.
  intros C. unfold ad_filter.
  destruct p as [p|]; [|apply (respects_ret _ _ C)].
  destruct (ad_discard p); [apply (respects_ret _ _ C)|].
  apply (respects_bind _ _ C); [apply (respects_INCR_STAT _ _ C); reflexivity|].
  intros _. apply (respects_bind _ _ C).
  { apply get_index_footprint. apply (closed_sub R _ fp_ad_filter); [includes_tac|exact C]. }
  intros idx. destruct (negb (valid_index idx)); [apply (respects_ret _ _ C)|].
  apply (respects_bind _ _ C); [apply (respects_INCR_STAT _ _ C); reflexivity|].
  intros _. apply (respects_bind _ _ C); [apply (respects_load_slot _ _ C)|].
  intros e. destruct (is_duplicate p e); [apply (respects_ret _ _ C)|].
  apply (respects_bind _ _ C); [apply (respects_store_markers _ _ C); reflexivity|].
  intros _. apply (respects_bind _ _ C).
  { footprint_steps fp_ad_filter C. }
  intros _. apply (respects_bind _ _ C).
  { apply (closed_convert R _ C); reflexivity. }
  intros _. footprint_steps fp_ad_filter C.
Qed.

(** [ad_filter] from the resolved index on. *)
Lemma accept_footprint idx p rssi :
  closed R fp_accept ->
  respects R
    (if negb (valid_index idx) then ret idx
     else
       INCR_STAT indexed_ads ;;
       e <- load_slot idx ;;
       if is_duplicate p e then ret idx
       else
         store_slot idx (set_last_event (id p) (recordType p)) ;;
         (if CONFIG_LCZ_LWM2M_BLE_SENSOR_LED then extern lcz_led_blink ;; ret tt
          else ret tt) ;;
         ad_process idx p rssi ;;
         extern (lcz_lwm2m_gw_obj_set_lifetime idx LIFETIME) ;;
         ret idx).
Proof.
  intros C.
  destruct (negb (valid_index idx)); [apply (respects_ret _ _ C)|].
  apply (respects_bind _ _ C); [apply (respects_INCR_STAT _ _ C); reflexivity|].
  intros _. apply (respects_bind _ _ C); [apply (respects_load_slot _ _ C)|].
  intros e. destruct (is_duplicate p e); [apply (respects_ret _ _ C)|].
  apply (respects_bind _ _ C); [apply (respects_store_markers _ _ C); reflexivity|].
  intros _. apply (respects_bind _ _ C).
  { footprint_steps fp_accept C. }
  intros _. apply (respects_bind _ _ C).
  { apply (closed_convert R _ C); reflexivity. }
  intros _. footprint_steps fp_accept C.
Qed.

Lemma rsp_handler_footprint addr p :
  closed R fp_rsp_handler -> respects R (rsp_handler addr p).
Proof.
  intros C. unfold rsp_handler.
  destruct p as [p|]; [|apply (respects_ret _ _ C)].
  apply (respects_bind _ _ C).
  { apply get_index_footprint. apply (closed_sub R _ fp_rsp_handler); [includes_tac|exact C]. }
  footprint_steps fp_rsp_handler C.
Qed.

Lemma name_handler_footprint idx ad :
  closed R fp_name_handler -> respects R (name_handler idx ad).
Proof.
  intros C. unfold name_handler. cbv zeta. footprint_steps fp_name_handler C.
Qed.

Lemma gw_obj_removed_footprint idx :
  closed R fp_gw_obj_removed -> respects R (gw_obj_removed idx).
Proof.
  intros C. unfold gw_obj_removed. footprint_steps fp_gw_obj_removed C.
Qed.

Lemma init_loop_footprint n : forall idx,
  closed R fp_init -> respects R (init_loop n idx).
Proof.
  induction n as [|n IH]; intros idx C; simpl.
  - apply (respects_ret _ _ C).
  - destruct (idx <? MAX_INSTANCES); [|apply (respects_ret _ _ C)].
    apply (respects_bind _ _ C);
      [apply (respects_store_product _ _ C); reflexivity|].
    intros _. apply IH; exact C.
Qed.

Lemma init_footprint :
  closed R fp_init -> respects R lcz_lwm2m_ble_sensor_init.
Proof.
  intros C. unfold lcz_lwm2m_ble_sensor_init.
  apply (respects_bind _ _ C); [apply init_loop_footprint; exact C|].
  footprint_steps fp_init C.
Qed.

(** The scan-response path of a frame. *)
Lemma correlate_footprint fp addr p ad :
  includes fp_rsp_handler fp -> includes fp_name_handler fp ->
  closed R fp ->
  respects R (idx <- rsp_handler addr p ;; name_handler idx ad).
Proof.
  intros I1 I2 C. apply (respects_bind _ _ C).
  - apply rsp_handler_footprint. apply (closed_sub R _ fp I1 C).
  - intros idx. apply name_handler_footprint. apply (closed_sub R _ fp I2 C).
Qed.

Lemma frame_1m_footprint addr rssi type ad :
  lcz_sensor_adv_match_1m
    (AdFind_Type ad BT_DATA_MANUFACTURER_DATA BT_DATA_INVALID) = true ->
  closed R fp_frame_1m -> respects R (ad_handler addr rssi type ad).
Proof.
  intros Hm C. unfold ad_handler. cbv zeta. rewrite Hm.
  apply (respects_bind _ _ C); [apply (respects_INCR_STAT _ _ C); reflexivity|].
  intros _. apply (respects_bind _ _ C).
  - apply ad_filter_footprint. apply (closed_sub R _ fp_frame_1m); [includes_tac|exact C].
  - intros _. apply (respects_INCR_STAT _ _ C); reflexivity.
Qed.

Lemma frame_rsp_footprint addr rssi type ad :
  lcz_sensor_adv_match_1m
    (AdFind_Type ad BT_DATA_MANUFACTURER_DATA BT_DATA_INVALID) = false ->
  lcz_sensor_adv_match_coded
    (AdFind_Type ad BT_DATA_MANUFACTURER_DATA BT_DATA_INVALID) = false ->
  closed R fp_frame_rsp -> respects R (ad_handler addr rssi type ad).
Proof.
  intros Hm Hc C. unfold ad_handler. cbv zeta. rewrite Hm, Hc.
  apply (respects_bind _ _ C); [apply (respects_INCR_STAT _ _ C); reflexivity|].
  intros _. destruct (lcz_sensor_adv_match_rsp _); [|apply (respects_ret _ _ C)].
  apply (respects_bind _ _ C); [apply (respects_INCR_STAT _ _ C); reflexivity|].
  intros _. destruct (pPayload _); [|apply respects_fault].
  apply (correlate_footprint fp_frame_rsp); [includes_tac|includes_tac|exact C].
Qed.

Lemma ad_handler_footprint addr rssi type ad :
  closed R fp_ad_handler -> respects R (ad_handler addr rssi type ad).
Proof.
  intros C. unfold ad_handler. cbv zeta.
  assert (Cf : closed R fp_ad_filter)
    by (apply (closed_sub R _ fp_ad_handler); [includes_tac|exact C]).
  apply (respects_bind _ _ C); [apply (respects_INCR_STAT _ _ C); reflexivity|].
  intros _. destruct (lcz_sensor_adv_match_1m _).
  { apply (respects_bind _ _ C); [apply ad_filter_footprint; exact Cf|].
    intros _. apply (respects_INCR_STAT _ _ C); reflexivity. }
  destruct (lcz_sensor_adv_match_coded _).
  { apply (respects_bind _ _ C); [apply (respects_INCR_STAT _ _ C); reflexivity|].
    intros _. destruct (pPayload _); [|apply respects_fault].
    apply (respects_bind _ _ C); [apply ad_filter_footprint; exact Cf|].
    intros _.
    apply (correlate_footprint fp_ad_handler); [includes_tac|includes_tac|exact C]. }
  destruct (lcz_sensor_adv_match_rsp _); [|apply (respects_ret _ _ C)].
  apply (respects_bind _ _ C); [apply (respects_INCR_STAT _ _ C); reflexivity|].
  intros _. destruct (pPayload _); [|apply respects_fault].
  apply (correlate_footprint fp_ad_handler); [includes_tac|includes_tac|exact C].
Qed.

End FunctionFootprints.

(** ** Relations closed under footprints *)

Section ClosedRelations.

Context {W : Type} `{!Kconfig} `{!SensorConstants} `{!SensorLib}
        `{!Collaborators W} `{!Toolchain}.

Lemma bind_inv {A B} (c : M W A) (k : A -> M W B) s b s'' :
  bind c k s = Some (b, s'') ->
  exists a s', c s = Some (a, s') /\ k a s' = Some (b, s'').
Proof.
  unfold bind. destruct (c s) as [[a s']|]; [|discriminate].
  intros E; exists a, s'; auto.
Qed.

Lemma stats_incr_stat f g (s : state W) :
  stats (incr_stat f s) g
  = if CONFIG_LCZ_LWM2M_BLE_SENSOR_STATS && bool_decide (g = f)
    then u32 (stats s g + 1) else stats s g.
Proof.
  unfold incr_stat. destruct CONFIG_LCZ_LWM2M_BLE_SENSOR_STATS; simpl; [|reflexivity].
  destruct (decide (g = f)) as [E|E].
  - rewrite (bool_decide_eq_true_2 _ E); reflexivity.
  - rewrite (bool_decide_eq_false_2 _ E); reflexivity.
Qed.

(** *** The statistics *)

Lemma keeps_stats_closed : closed keeps_stats fp_sinks.
Proof.
  split; unfold keeps_stats; simpl; try discriminate; try reflexivity.
  intros s1 s2 s3 E1 E2; congruence.
Qed.

Lemma accounting_incr_stat f (s : state W) :
  conversion_stat f = false -> keeps_accounting s (incr_stat f s).
Proof.
  intros Hf. unfold keeps_accounting, conversions_accounted.
  rewrite !stats_incr_stat.
  destruct CONFIG_LCZ_LWM2M_BLE_SENSOR_STATS; simpl; [|auto].
  destruct f; try discriminate Hf; simpl; auto.
Qed.

(** [ad_process] counts every conversion once as processed and once as set
    or as failed. *)
Lemma ad_process_accounting idx p rssi :
  respects keeps_accounting (ad_process idx p rssi).
Proof.
  intros s a s' E. unfold ad_process in E. cbv zeta in E.
  apply bind_inv in E as (r & s1 & E1 & E2).
  assert (Hs : keeps_stats s s1).
  { match type of E1 with
    | ?X s = _ =>
        assert (HX : respects keeps_stats X)
          by footprint_steps fp_sinks keeps_stats_closed
    end.
    exact (HX _ _ _ E1). }
  apply bind_inv in E2 as ([] & s2 & E2 & E3).
  injection E2 as <-.
  unfold keeps_accounting, conversions_accounted, keeps_stats in *.
  assert (Hm : forall a b, u32 (u32 (a + b) + 1) = u32 (u32 (a + 1) + b)
                           /\ u32 (u32 (a + b) + 1) = u32 (a + u32 (b + 1))).
  { intros x y. unfold u32. split.
    - rewrite Z.add_mod_idemp_l by lia. rewrite (Z.add_mod_idemp_l (x + 1)) by lia.
      f_equal; lia.
    - rewrite Z.add_mod_idemp_l by lia. rewrite (Z.add_mod_idemp_r x) by lia.
      f_equal; lia. }
  destruct (r =? 0); injection E3 as _ <-; rewrite !stats_incr_stat, Hs;
    destruct CONFIG_LCZ_LWM2M_BLE_SENSOR_STATS; simpl; auto;
    intros ->; apply Hm.
Qed.

Lemma keeps_accounting_closed fp :
  (forall f, fp_stat fp f = true -> conversion_stat f = false) ->
  closed keeps_accounting fp.
Proof.
  intros Hfp. split; unfold keeps_accounting.
  - auto.
  - auto.
  - intros c s _; exact (fun x => x).
  - intros f s Hf. apply accounting_incr_stat. auto.
  - intros _ s j e i t _; exact (fun x => x).
  - intros _ s j e v _; exact (fun x => x).
  - intros _ s; exact (fun x => x).
  - intros _ s; exact (fun x => x).
  - intros _ idx p rssi. apply ad_process_accounting.
Qed.

Lemma keeps_counter_incr_stat f g (s : state W) :
  f <> g -> keeps_counter f s (incr_stat g s).
Proof.
  intros Hne. unfold keeps_counter. rewrite stats_incr_stat.
  rewrite (bool_decide_eq_false_2 _ Hne), andb_false_r. reflexivity.
Qed.

(** A counter outside the footprint keeps its value. *)
Lemma keeps_counter_closed f fp :
  fp_stat fp f = false ->
  (fp_convert fp = true -> conversion_stat f = false) ->
  closed (keeps_counter f) fp.
Proof.
  intros Hf Hv. split.
  - reflexivity.
  - unfold keeps_counter; intros s1 s2 s3 E1 E2; congruence.
  - reflexivity.
  - intros g s Hg. apply keeps_counter_incr_stat. congruence.
  - reflexivity.
  - reflexivity.
  - reflexivity.
  - reflexivity.
  - intros Hc idx p rssi. apply ad_process_footprint. split; try discriminate.
    + reflexivity.
    + unfold keeps_counter; intros s1 s2 s3 E1 E2; congruence.
    + reflexivity.
    + intros g s Hg. apply keeps_counter_incr_stat.
      specialize (Hv Hc). simpl in Hg. congruence.
Qed.

(** *** The table *)

Lemma keeps_product_ids_refl (s : state W) : keeps_product_ids s s.
Proof. intros j e He; exists e; auto. Qed.

Lemma keeps_product_ids_trans (s1 s2 s3 : state W) :
  keeps_product_ids s1 s2 -> keeps_product_ids s2 s3 -> keeps_product_ids s1 s3.
Proof.
  intros H12 H23 j e He.
  destruct (H12 j e He) as (e2 & He2 & P2).
  destruct (H23 j e2 He2) as (e3 & He3 & P3).
  exists e3; split; [exact He3|congruence].
Qed.

Lemma keeps_product_ids_same (s s' : state W) :
  table s' = table s -> keeps_product_ids s s'.
Proof. intros Ht j e He; exists e; rewrite Ht; auto. Qed.

Lemma keeps_product_ids_markers (s : state W) j e i t :
  table s !! j = Some e ->
  keeps_product_ids s (with_table (<[j := set_last_event i t e]> (table s)) s).
Proof.
  intros He j' e' He'. simpl.
  destruct (decide (j' = j)) as [->|Hne].
  - rewrite list_lookup_insert_eq by (eapply lookup_lt_Some; eassumption).
    eexists; split; [reflexivity|]. simpl. congruence.
  - rewrite list_lookup_insert_ne by auto. exists e'; auto.
Qed.

Lemma keeps_product_ids_closed_ad_process : closed keeps_product_ids fp_ad_process.
Proof.
  split; try discriminate.
  - apply keeps_product_ids_refl.
  - apply keeps_product_ids_trans.
  - intros c s _; apply keeps_product_ids_same; reflexivity.
  - intros f s _; apply keeps_product_ids_same, table_incr_stat.
Qed.

Lemma keeps_product_ids_closed fp :
  fp_product fp = false -> closed keeps_product_ids fp.
Proof.
  intros Hp. split.
  - apply keeps_product_ids_refl.
  - apply keeps_product_ids_trans.
  - intros c s _; apply keeps_product_ids_same; reflexivity.
  - intros f s _; apply keeps_product_ids_same, table_incr_stat.
  - intros _ s j e i t; apply keeps_product_ids_markers.
  - rewrite Hp; discriminate.
  - intros _ s; apply keeps_product_ids_same; reflexivity.
  - intros _ s; apply keeps_product_ids_same; reflexivity.
  - intros _ idx p rssi. apply ad_process_footprint.
    apply keeps_product_ids_closed_ad_process.
Qed.

Lemma keeps_markers_refl (s : state W) : keeps_markers s s.
Proof. intros j e He; exists e; auto. Qed.

Lemma keeps_markers_trans (s1 s2 s3 : state W) :
  keeps_markers s1 s2 -> keeps_markers s2 s3 -> keeps_markers s1 s3.
Proof.
  intros H12 H23 j e He.
  destruct (H12 j e He) as (e2 & He2 & I2 & T2).
  destruct (H23 j e2 He2) as (e3 & He3 & I3 & T3).
  exists e3; split; [exact He3|split; congruence].
Qed.

Lemma keeps_markers_same (s s' : state W) :
  table s' = table s -> keeps_markers s s'.
Proof. intros Ht j e He; exists e; rewrite Ht; auto. Qed.

Lemma keeps_markers_product (s : state W) j e v :
  table s !! j = Some e ->
  keeps_markers s (with_table (<[j := set_product_id v e]> (table s)) s).
Proof.
  intros He j' e' He'. simpl.
  destruct (decide (j' = j)) as [->|Hne].
  - rewrite list_lookup_insert_eq by (eapply lookup_lt_Some; eassumption).
    eexists; split; [reflexivity|]. simpl. split; congruence.
  - rewrite list_lookup_insert_ne by auto. exists e'; auto.
Qed.

Lemma keeps_markers_closed fp :
  fp_markers fp = false -> fp_convert fp = false -> closed keeps_markers fp.
Proof.
  intros Hm Hv. split.
  - apply keeps_markers_refl.
  - apply keeps_markers_trans.
  - intros c s _; apply keeps_markers_same; reflexivity.
  - intros f s _; apply keeps_markers_same, table_incr_stat.
  - rewrite Hm; discriminate.
  - intros _ s j e v; apply keeps_markers_product.
  - intros _ s; apply keeps_markers_same; reflexivity.
  - intros _ s; apply keeps_markers_same; reflexivity.
  - rewrite Hv; discriminate.
Qed.

Lemma keeps_flag_closed fp :
  fp_set_full fp = false -> fp_clear_full fp = false -> fp_convert fp = false ->
  closed keeps_flag fp.
Proof.
  intros Hs Hc Hv. split; unfold keeps_flag.
  - reflexivity.
  - intros s1 s2 s3 E1 E2; congruence.
  - reflexivity.
  - intros f s _; apply table_full_incr_stat.
  - reflexivity.
  - reflexivity.
  - rewrite Hs; discriminate.
  - rewrite Hc; discriminate.
  - rewrite Hv; discriminate.
Qed.

(** *** The calls *)

Lemma calls_only_refl P (s : state W) : calls_only P s s.
Proof. exists []; split; [symmetry; apply app_nil_r|reflexivity]. Qed.

Lemma calls_only_trans P (s1 s2 s3 : state W) :
  calls_only P s1 s2 -> calls_only P s2 s3 -> calls_only P s1 s3.
Proof.
  intros (l1 & T1 & F1) (l2 & T2 & F2). exists (l1 ++ l2); split.
  - rewrite T2, T1, app_assoc; reflexivity.
  - rewrite forallb_app, F1, F2; reflexivity.
Qed.

Lemma calls_only_same P (s s' : state W) :
  trace s' = trace s -> calls_only P s s'.
Proof. intros Ht; exists []; split; [rewrite Ht, app_nil_r; reflexivity|reflexivity]. Qed.

Lemma calls_only_closed_ad_process P :
  (forall c, sink_call c = true -> P c = true) ->
  closed (calls_only P) fp_ad_process.
Proof.
  intros HP. split; try discriminate.
  - apply calls_only_refl.
  - apply calls_only_trans.
  - intros c s Hc. exists [c]; split; [reflexivity|]. simpl. rewrite (HP c Hc); reflexivity.
  - intros f s _; apply calls_only_same, trace_incr_stat.
Qed.

Lemma calls_only_closed P fp :
  (forall c, fp_call fp c = true -> P c = true) ->
  (fp_convert fp = true -> forall c, sink_call c = true -> P c = true) ->
  closed (calls_only P) fp.
Proof.
  intros HP Hv. split.
  - apply calls_only_refl.
  - apply calls_only_trans.
  - intros c s Hc. exists [c]; split; [reflexivity|]. simpl. rewrite (HP c Hc); reflexivity.
  - intros f s _; apply calls_only_same, trace_incr_stat.
  - intros _ s j e i t _; apply calls_only_same; reflexivity.
  - intros _ s j e v _; apply calls_only_same; reflexivity.
  - intros _ s; apply calls_only_same; reflexivity.
  - intros _ s; apply calls_only_same; reflexivity.
  - intros Hc idx p rssi. apply ad_process_footprint.
    apply calls_only_closed_ad_process. auto.
Qed.

Lemma count_calls_none f P calls :
  (forall c, P c = true -> f c = false) ->
  forallb P calls = true -> count_calls f calls = O.
Proof.
  intros HP. induction calls as [|c calls IH]; simpl; [reflexivity|].
  intros Hall. apply andb_prop in Hall as [Hc Hall].
  rewrite (HP c Hc). apply IH; exact Hall.
Qed.

Lemma calls_only_count f P (s s' : state W) :
  (forall c, P c = true -> f c = false) ->
  calls_only P s s' ->
  count_calls f (trace s') = count_calls f (trace s).
Proof.
  intros HP (calls & T & Hall).
  rewrite T, count_calls_app, (count_calls_none f P calls HP Hall). lia.
Qed.

End ClosedRelations.

(** ** The type gate and the conversions *)

(** Resolves the [switch] of [ad_process] for a record type that is known
    to be one of the labels and finishes a dispatch goal. *)
Ltac dispatch_case Hin :=
  unfold ad_process, bind, extern, INCR_STAT, ret; cbv zeta;
  rewrite <- Hin;
  decide_labels; cbn [orb]; cbv beta iota;
  match goal with
  | |- context [if ?c then _ else _] =>
      lazymatch c with
      | _ =? _ => fail
      | _ => destruct c
      end
  end;
  cbv beta iota;
  try match goal with
      | |- context [if ?r =? 0 then _ else _] => destruct (r =? 0)
      end;
  (eexists; split; [reflexivity|]);
  rewrite !trace_incr_stat, ?app_nil_r; reflexivity.

Section Gate.

Context {W : Type} `{!Kconfig} `{!SensorConstants} `{!SensorLib}
        `{!Collaborators W} `{!Toolchain}.

(** X2: with pairwise distinct case labels, [ad_discard] lets an event
    through exactly when its record type is a label of a category that is
    compiled in. *)
Theorem gate_refines_categories p :
  case_labels_distinct = true ->
  (ad_discard p = false <-> record_type_enabled p).
Proof.
  intros Hd. split.
  - unfold ad_discard, record_type_enabled, temperature_labels, battery_labels,
      current_labels, pressure_labels, fill_level_labels. cbv zeta.
    repeat (match goal with
            | |- context [?a =? ?b] =>
                let E := fresh "E" in
                destruct (Z.eqb_spec a b) as [E|E]; [symmetry in E|]
            end; cbn [orb]; cbv iota);
      try discriminate;
      intros Hc; apply negb_false_iff in Hc; simpl; tauto.
  - intros Hp. distinct_labels Hd.
    unfold record_type_enabled, temperature_labels, battery_labels,
      current_labels, pressure_labels, fill_level_labels in Hp.
    simpl in Hp. unfold ad_discard. cbv zeta.
    destruct Hp as [[Hin Hc]|[[Hin Hc]|[[Hin Hc]|[[Hin Hc]|[Hin Hc]]]]];
      rewrite Hc;
      repeat match type of Hin with
             | _ \/ _ => destruct Hin as [Hin|Hin]
             | False => destruct Hin
             end;
      rewrite <- Hin; decide_labels; reflexivity.
Qed.

(** X3: a multi-channel event (temperature 1 to 4, current 1 to 4, pressure
    1 or 2) goes to the sink of its category, in a build that has it, at
    the sub-channel that is the distance of its record type from the first
    label of the category, as an unsigned 16-bit value (the distance itself
    when it fits), with the single-precision payload widened to a double. *)
Theorem multi_channel_dispatch idx p rssi (s : state W) :
  case_labels_distinct = true ->
  let t := recordType p in
  let v := double_of_float_bits (data_f p) in
  (In t [SENSOR_EVENT_TEMPERATURE_1; SENSOR_EVENT_TEMPERATURE_2;
         SENSOR_EVENT_TEMPERATURE_3; SENSOR_EVENT_TEMPERATURE_4] ->
   exists s',
     ad_process idx p rssi s = Some (tt, s')
     /\ trace s'
        = trace s ++ (if CONFIG_LCZ_LWM2M_TEMPERATURE
                      then [lcz_lwm2m_managed_temperature_set idx
                              (u16 (t - SENSOR_EVENT_TEMPERATURE_1)) v]
                      else []))
  /\ (In t [SENSOR_EVENT_CURRENT_1; SENSOR_EVENT_CURRENT_2;
            SENSOR_EVENT_CURRENT_3; SENSOR_EVENT_CURRENT_4] ->
      exists s',
        ad_process idx p rssi s = Some (tt, s')
        /\ trace s'
           = trace s ++ (if CONFIG_LCZ_LWM2M_CURRENT
                         then [lcz_lwm2m_managed_current_set idx
                                 (u16 (t - SENSOR_EVENT_CURRENT_1)) v]
                         else []))
  /\ (In t [SENSOR_EVENT_PRESSURE_1; SENSOR_EVENT_PRESSURE_2] ->
      exists s',
        ad_process idx p rssi s = Some (tt, s')
        /\ trace s'
           = trace s ++ (if CONFIG_LCZ_LWM2M_PRESSURE
                         then [lcz_lwm2m_managed_pressure_set idx
                                 (u16 (t - SENSOR_EVENT_PRESSURE_1)) v]
                         else []))
  /\ (forall base, 0 <= t - base < 2 ^ 16 -> u16 (t - base) = t - base).
Proof.
  intros Hd t v. distinct_labels Hd. subst t v.
  split; [|split; [|split]].
  - intros Hin. simpl in Hin.
    repeat match type of Hin with
           | _ \/ _ => destruct Hin as [Hin|Hin]
           | False => destruct Hin
           end;
      dispatch_case Hin.
  - intros Hin. simpl in Hin.
    repeat match type of Hin with
           | _ \/ _ => destruct Hin as [Hin|Hin]
           | False => destruct Hin
           end;
      dispatch_case Hin.
  - intros Hin. simpl in Hin.
    repeat match type of Hin with
           | _ \/ _ => destruct Hin as [Hin|Hin]
           | False => destruct Hin
           end;
      dispatch_case Hin.
  - intros base Hb. unfold u16. apply Z.mod_small; exact Hb.
Qed.

(** X4: a fill-level event goes to the fill-level sink, in a build that
    has it, at sub-channel 0 with the single-precision payload in
    millimetres divided by 10; 254.0 (bits 0x437E0000) gives 25.4. *)
Theorem fill_level_conversion idx p rssi (s : state W) :
  case_labels_distinct = true ->
  recordType p = SENSOR_EVENT_ULTRASONIC_1 ->
  exists s',
    ad_process idx p rssi s = Some (tt, s')
    /\ trace s'
       = trace s ++ (if CONFIG_LCZ_LWM2M_FILL_LEVEL
                     then [lcz_lwm2m_managed_fill_level_set idx 0
                             (PrimFloat.div (double_of_float_bits (data_f p)) 10)]
                     else [])
    /\ (data p = 1132331008 ->
        PrimFloat.div (double_of_float_bits (data_f p)) 10 = 25.4%float).
Proof.
  intros Hd Ht. distinct_labels Hd. symmetry in Ht.
  unfold ad_process, bind, extern, INCR_STAT, ret; cbv zeta.
  rewrite <- Ht. decide_labels. cbn [orb]. cbv beta iota.
  destruct CONFIG_LCZ_LWM2M_FILL_LEVEL; cbv beta iota;
    try match goal with
        | |- context [if ?r =? 0 then _ else _] => destruct (r =? 0)
        end;
    (eexists; split; [reflexivity|]);
    rewrite !trace_incr_stat, ?app_nil_r; (split; [reflexivity|]);
    intros Hp; unfold data_f; rewrite Hp; reflexivity.
Qed.

End Gate.

(** ** Start-up, frames and the counters *)

Section Frames.

Context {W : Type} `{!Kconfig} `{!SensorConstants} `{!SensorLib}
        `{!Collaborators W} `{!Toolchain}.

Lemma with_table_id (s : state W) : with_table (table s) s = s.
Proof. destruct s; reflexivity. Qed.

(** The loop of [lcz_lwm2m_ble_sensor_init] over the slots [post] that
    follow the slots [pre] already done. *)
Lemma init_loop_map post : forall pre idx (s : state W),
  table s = pre ++ post ->
  idx = Z.of_nat (length pre) ->
  MAX_INSTANCES = Z.of_nat (length pre + length post) ->
  init_loop (length post) idx s
  = Some (tt, with_table (pre ++ (set_product_id INVALID_PRODUCT_ID <$> post)) s).
Proof.
  induction post as [|e post IH]; intros pre idx s Ht Hi Hm; simpl.
  - unfold ret. rewrite <- Ht, with_table_id. reflexivity.
  - destruct (Z.ltb_spec idx MAX_INSTANCES) as [_|Hge];
      [|simpl in Hm; lia].
    assert (He : table s !! Z.to_nat idx = Some e).
    { rewrite Ht, Hi, Nat2Z.id. apply list_lookup_middle; reflexivity. }
    rewrite (bind_eq _ _ _ _ _ (store_slot_eq s idx _ e ltac:(lia) He)).
    rewrite (IH (pre ++ [set_product_id INVALID_PRODUCT_ID e]) (idx + 1)).
    + simpl. rewrite <- app_assoc. reflexivity.
    + simpl. rewrite Ht, Hi, Nat2Z.id.
      rewrite insert_app_r_alt by lia. rewrite Nat.sub_diag; simpl.
      rewrite <- app_assoc. reflexivity.
    + rewrite length_app; simpl. lia.
    + rewrite length_app; simpl in *. lia.
Qed.

(** X1: on the zero-initialised [lbs], [lcz_lwm2m_ble_sensor_init] returns 0
    and leaves a table of [MAX_INSTANCES] slots that all have the invalid
    product id and zero markers, the capacity flag clear, the counters at
    zero, having made the four start-up calls in order. *)
Theorem init_resets_table (w : W) :
  0 <= MAX_INSTANCES ->
  exists s',
    lcz_lwm2m_ble_sensor_init (boot w) = Some (0, s')
    /\ table s'
       = replicate (Z.to_nat MAX_INSTANCES)
           {| last_record_type := 0; last_event_id := 0;
              product_id := INVALID_PRODUCT_ID |}
    /\ table_ok s'
    /\ table_full s' = false
    /\ (forall f, stats s' f = 0)
    /\ trace s' = [lcz_bt_scan_register; lcz_bt_scan_update_parameters;
                   lcz_bt_scan_start; lcz_lwm2m_util_register_agent].
Proof.
  intros Hm.
  set (zero := {| last_record_type := 0; last_event_id := 0; product_id := 0 |}).
  pose proof (init_loop_map (replicate (Z.to_nat MAX_INSTANCES) zero) [] 0 (boot w)
                eq_refl eq_refl) as Hl.
  rewrite length_replicate in Hl. specialize (Hl ltac:(simpl; lia)).
  unfold lcz_lwm2m_ble_sensor_init.
  rewrite (bind_eq _ _ _ _ _ Hl).
  eexists; split; [reflexivity|]. simpl.
  rewrite fmap_replicate. unfold table_ok; simpl.
  rewrite length_replicate.
  repeat split; auto. lia.
Qed.

(** X5: the accounting of conversions is an invariant of the module: it
    holds at boot, and every entry point that returns keeps it. Whatever
    the sinks answer, the conversions counted as processed are those counted
    as set plus those counted as failed, modulo 2^32. *)
Theorem conversions_stay_accounted (s : state W) :
  conversions_accounted s ->
  conversions_accounted (boot (world s))
  /\ (forall addr rssi type ad s',
        ad_handler addr rssi type ad s = Some (tt, s') -> conversions_accounted s')
  /\ (forall idx p rssi s',
        ad_process idx p rssi s = Some (tt, s') -> conversions_accounted s')
  /\ (forall idx s',
        gw_obj_removed idx s = Some (0, s') -> conversions_accounted s')
  /\ (forall s',
        lcz_lwm2m_ble_sensor_init s = Some (0, s') -> conversions_accounted s').
Proof.
  intros Hs. split; [reflexivity|]. split; [|split; [|split]].
  - intros addr rssi type ad s' E.
    refine (ad_handler_footprint keeps_accounting addr rssi type ad _ s tt s' E Hs).
    apply keeps_accounting_closed. intros f; destruct f; simpl; auto; discriminate.
  - intros idx p rssi s' E. exact (ad_process_accounting idx p rssi s tt s' E Hs).
  - intros idx s' E.
    refine (gw_obj_removed_footprint keeps_accounting idx _ s 0 s' E Hs).
    apply keeps_accounting_closed. discriminate.
  - intros s' E.
    refine (init_footprint keeps_accounting _ s 0 s' E Hs).
    apply keeps_accounting_closed. discriminate.
Qed.

(** X10: a frame of the scan-response shape is processed, and it only ever
    looks the address up and handles the name: no creation, no sink, no
    lifetime request. It leaves the duplicate markers of every slot and
    the capacity flag as they were. *)
Theorem scan_response_frame_effects addr rssi type ad bytes (s : state W) :
  table_ok s ->
  let handle := AdFind_Type ad BT_DATA_MANUFACTURER_DATA BT_DATA_INVALID in
  lcz_sensor_adv_match_1m handle = false ->
  lcz_sensor_adv_match_coded handle = false ->
  lcz_sensor_adv_match_rsp handle = true ->
  pPayload handle = Some bytes ->
  exists s',
    ad_handler addr rssi type ad s = Some (tt, s')
    /\ calls_only (fun c => directory_query c || name_call c) s s'
    /\ keeps_markers s s'
    /\ table_full s' = table_full s.
Proof.
  intros Hok handle Hm Hc Hr Hp.
  assert (Hok0 : table_ok (incr_stat rsp_ads (incr_stat ads s))).
  { unfold table_ok; rewrite !table_incr_stat; exact Hok. }
  destruct (correlate_runs addr (as_LczSensorRspWithHeader bytes) ad _ Hok0)
    as ([] & s' & E & _).
  assert (Eh : ad_handler addr rssi type ad s = Some (tt, s')).
  { unfold ad_handler. fold handle. cbv zeta. rewrite Hm, Hc, Hr, Hp.
    rewrite (bind_eq (INCR_STAT ads) _ s tt _ eq_refl).
    rewrite (bind_eq (INCR_STAT rsp_ads) _ _ tt _ eq_refl). exact E. }
  exists s'. split; [exact Eh|]. split; [|split].
  - refine (frame_rsp_footprint _ addr rssi type ad Hm Hc _ s tt s' Eh).
    apply calls_only_closed; [auto|discriminate].
  - refine (frame_rsp_footprint _ addr rssi type ad Hm Hc _ s tt s' Eh).
    apply keeps_markers_closed; reflexivity.
  - refine (frame_rsp_footprint keeps_flag addr rssi type ad Hm Hc _ s tt s' Eh).
    apply keeps_flag_closed; reflexivity.
Qed.

(** X11: a frame of the 1M shape is processed, and it never changes the
    product id of any slot and never queries or sets a name: its calls are
    directory lookups and creations, the activity LED, the lifetime
    request and sinks. *)
Theorem primary_frame_effects addr rssi type ad (s : state W) :
  table_ok s ->
  lcz_sensor_adv_match_1m
    (AdFind_Type ad BT_DATA_MANUFACTURER_DATA BT_DATA_INVALID) = true ->
  exists s',
    ad_handler addr rssi type ad s = Some (tt, s')
    /\ keeps_product_ids s s'
    /\ calls_only (fun c => directory_query c || creation_call c
                            || acceptance_call c || sink_call c) s s'.
Proof.
  intros Hok Hm.
  assert (Hok0 : table_ok (incr_stat ads s)).
  { unfold table_ok; rewrite table_incr_stat; exact Hok. }
  destruct (ad_filter_runs addr
              (option_map as_LczSensorAdEvent
                 (pPayload (AdFind_Type ad BT_DATA_MANUFACTURER_DATA BT_DATA_INVALID)))
              rssi _ Hok0) as (r & s1 & E & _).
  assert (Eh : ad_handler addr rssi type ad s
               = Some (tt, incr_stat legacy_ads s1)).
  { unfold ad_handler. cbv zeta. rewrite Hm.
    rewrite (bind_eq (INCR_STAT ads) _ s tt _ eq_refl).
    rewrite (bind_eq _ _ _ _ _ E). reflexivity. }
  eexists. split; [exact Eh|]. split.
  - refine (frame_1m_footprint _ addr rssi type ad Hm _ s tt _ Eh).
    apply keeps_product_ids_closed; reflexivity.
  - refine (frame_1m_footprint _ addr rssi type ad Hm _ s tt _ Eh).
    apply calls_only_closed.
    + intros c Hc; simpl in Hc. rewrite Hc; reflexivity.
    + intros _ c Hc. rewrite Hc. apply orb_true_r.
Qed.

(** An event that passes the gate is resolved once, with creation
    allowed; the index [ad_filter] returns is the one resolved, and nothing
    after the resolution looks an address up or asks for a creation. *)
Lemma ad_filter_resolves addr p rssi (s : state W) i s' :
  ad_discard p = false ->
  ad_filter addr (Some p) rssi s = Some (i, s') ->
  exists sg,
    get_index addr true (incr_stat accepted_ads s) = Some (i, sg)
    /\ calls_only (fun c => negb (is_lookup c) && negb (is_create c)) sg s'.
Proof.
  intros Hd E. unfold ad_filter in E. rewrite Hd in E.
  apply bind_inv in E as ([] & s1 & E1 & E). injection E1 as <-.
  apply bind_inv in E as (idx & sg & Eg & E).
  assert (Hi : i = idx).
  { pose proof E as E'.
    destruct (negb (valid_index idx)); [injection E' as <- _; reflexivity|].
    apply bind_inv in E' as ([] & s2 & _ & E').
    apply bind_inv in E' as (e & s3 & _ & E').
    destruct (is_duplicate p e); [injection E' as <- _; reflexivity|].
    apply bind_inv in E' as ([] & s4 & _ & E').
    apply bind_inv in E' as ([] & s5 & _ & E').
    apply bind_inv in E' as ([] & s6 & _ & E').
    apply bind_inv in E' as (x & s7 & _ & E').
    injection E' as <- _; reflexivity. }
  subst i. exists sg. split; [exact Eg|].
  refine (accept_footprint _ idx p rssi _ sg idx s' E).
  apply calls_only_closed.
  - intros c; destruct c; simpl; intros Hc; solve [reflexivity|discriminate Hc].
  - intros _ c; destruct c; simpl; intros Hc; solve [reflexivity|discriminate Hc].
Qed.

(** C5, as the code has it. [rsp_handler] resolves with creation
    disallowed: from any state its one call is a lookup; it returns the
    directory's answer, or [-EPERM] for an answer at or above
    [MAX_INSTANCES]; for a result that is not negative the slot afterwards
    holds the response's product id, and otherwise the table is as it was.
    A coded-PHY frame is processed as its event through [ad_filter], then
    its scan response through [rsp_handler], then the name. When the event
    passes the type gate the event path makes exactly one resolution, with
    creation allowed, whose result it returns: one lookup, and one creation
    request exactly when the lookup's answer is not a valid index and the
    capacity flag is clear. When the event is gated off the event path
    makes no directory call. In both cases the scan-response path then
    makes one lookup of its own and no creation request. *)
Theorem coded_frame_one_creation addr rssi type ad bytes (s : state W) :
  table_ok s ->
  let handle := AdFind_Type ad BT_DATA_MANUFACTURER_DATA BT_DATA_INVALID in
  lcz_sensor_adv_match_1m handle = false ->
  lcz_sensor_adv_match_coded handle = true ->
  pPayload handle = Some bytes ->
  let creations (x : state W) := count_calls is_create (trace x) in
  let lookups (x : state W) := count_calls is_lookup (trace x) in
  let answer a (x : state W) :=
    fst (respond (lcz_lwm2m_gw_obj_lookup_ble a) (world x)) in
  (forall a p (s0 : state W), table_ok s0 ->
     let i := if MAX_INSTANCES <=? answer a s0 then - EPERM else answer a s0 in
     exists s',
       rsp_handler a (Some p) s0 = Some (i, s')
       /\ trace s' = trace s0 ++ [lcz_lwm2m_gw_obj_lookup_ble a]
       /\ (0 <= i -> exists e,
             table s0 !! Z.to_nat i = Some e
             /\ table s' = <[Z.to_nat i := set_product_id (productId p) e]> (table s0))
       /\ (i < 0 -> table s' = table s0))
  /\ let ev := fst (as_LczSensorAdCoded bytes) in
     let rsp := snd (as_LczSensorAdCoded bytes) in
     let s0 := incr_stat coded_ads (incr_stat ads s) in
     exists i1 s1 i2 s2 s3,
       ad_filter addr (Some ev) rssi s0 = Some (i1, s1)
       /\ rsp_handler addr (Some rsp) s1 = Some (i2, s2)
       /\ name_handler i2 ad s2 = Some (tt, s3)
       /\ ad_handler addr rssi type ad s = Some (tt, s3)
       /\ (ad_discard ev = false ->
           exists sg,
             get_index addr true (incr_stat accepted_ads s0) = Some (i1, sg)
             /\ lookups s1 = lookups sg /\ creations s1 = creations sg)
       /\ lookups s1 = (lookups s + (if ad_discard ev then 0 else 1))%nat
       /\ creations s1
          = (creations s
             + (if negb (ad_discard ev) && negb (valid_index (answer addr s))
                   && negb (table_full s)
                then 1 else 0))%nat
       /\ lookups s3 = S (lookups s1)
       /\ creations s3 = creations s1.
Proof.
  intros Hok handle H1m Hcoded Hp creations lookups answer.
  assert (Hrsp : forall a p (s0 : state W), table_ok s0 ->
     let i := if MAX_INSTANCES <=? answer a s0 then - EPERM else answer a s0 in
     exists s',
       rsp_handler a (Some p) s0 = Some (i, s')
       /\ trace s' = trace s0 ++ [lcz_lwm2m_gw_obj_lookup_ble a]
       /\ (0 <= i -> exists e,
             table s0 !! Z.to_nat i = Some e
             /\ table s' = <[Z.to_nat i := set_product_id (productId p) e]> (table s0))
       /\ (i < 0 -> table s' = table s0)).
  { intros a p s0 Hok0 i.
    pose proof (table_ok_nonneg s0 Hok0) as Hm.
    set (sl := after_call (lcz_lwm2m_gw_obj_lookup_ble a) s0).
    assert (Hg : get_index a false s0 = Some (i, sl)).
    { apply get_index_no_create. rewrite andb_false_r; reflexivity. }
    assert (Hlt : i < MAX_INSTANCES).
    { unfold i; destruct (Z.leb_spec MAX_INSTANCES (answer a s0)); unfold EPERM; lia. }
    unfold rsp_handler. rewrite (bind_eq _ _ _ _ _ Hg).
    destruct (Z.leb_spec 0 i) as [Hge|Hneg].
    - assert (Hv : valid_index i = true).
      { unfold valid_index. apply andb_true_intro; split;
          [apply Z.leb_le; exact Hge|apply Z.ltb_lt; exact Hlt]. }
      destruct (slot_exists s0 i Hok0 Hv) as [e He].
      assert (Hel : table sl !! Z.to_nat i = Some e) by exact He.
      rewrite (bind_eq _ _ _ _ _ (store_slot_eq sl i _ e Hge Hel)).
      eexists; split; [reflexivity|]. split; [reflexivity|]. split.
      + intros _. exists e; split; [exact He|reflexivity].
      + intros Hneg; lia.
    - eexists; split; [reflexivity|]. split; [reflexivity|]. split.
      + intros Hge; lia.
      + intros _; reflexivity. }
  split; [exact Hrsp|].
  intros ev rsp s0.
  assert (Hok0 : table_ok s0).
  { unfold table_ok, s0; rewrite !table_incr_stat; exact Hok. }
  assert (Ht0 : trace s0 = trace s) by (unfold s0; rewrite !trace_incr_stat; reflexivity).
  destruct (ad_filter_runs addr (Some ev) rssi s0 Hok0) as (i1 & s1 & E1 & S1 & _).
  assert (Hok1 : table_ok s1) by (eapply table_ok_step; eassumption).
  destruct (Hrsp addr rsp s1 Hok1) as (s2 & E2 & T2 & _).
  set (i2 := if MAX_INSTANCES <=? answer addr s1 then - EPERM else answer addr s1) in E2.
  destruct (name_handler_runs i2 ad s2) as ([] & s3 & E3 & _).
  assert (N3 : calls_only name_call s2 s3).
  { refine (name_handler_footprint _ i2 ad _ s2 tt s3 E3).
    apply calls_only_closed; [auto|discriminate]. }
  exists i1, s1, i2, s2, s3.
  split; [exact E1|]. split; [exact E2|]. split; [exact E3|].
  split.
  { unfold ad_handler. fold handle. cbv zeta. rewrite H1m, Hcoded, Hp.
    rewrite (bind_eq (INCR_STAT ads) _ s tt _ eq_refl).
    rewrite (bind_eq (INCR_STAT coded_ads) _ _ tt _ eq_refl).
    fold s0 ev rsp. rewrite (bind_eq _ _ _ _ _ E1).
    rewrite (bind_eq _ _ _ _ _ E2). exact E3. }
  assert (Hev : ad_discard ev = false ->
           exists sg,
             get_index addr true (incr_stat accepted_ads s0) = Some (i1, sg)
             /\ lookups s1 = lookups sg /\ creations s1 = creations sg).
  { intros Hd. destruct (ad_filter_resolves addr ev rssi s0 i1 s1 Hd E1) as (sg & Eg & Cg).
    exists sg. split; [exact Eg|]. split.
    - eapply (calls_only_count is_lookup); [|exact Cg].
      intros c; destruct c; simpl; intros Hc; solve [reflexivity|discriminate Hc].
    - eapply (calls_only_count is_create); [|exact Cg].
      intros c; destruct c; simpl; intros Hc; solve [reflexivity|discriminate Hc]. }
  split; [exact Hev|].
  assert (Hcount : lookups s1 = (lookups s + (if ad_discard ev then 0 else 1))%nat
          /\ creations s1
             = (creations s
                + (if negb (ad_discard ev) && negb (valid_index (answer addr s))
                      && negb (table_full s)
                   then 1 else 0))%nat).
  { destruct (ad_discard ev) eqn:Hd.
    - unfold ad_filter in E1. rewrite Hd in E1. injection E1 as _ <-.
      unfold lookups, creations. rewrite Ht0. simpl. split; lia.
    - destruct (Hev eq_refl) as (sg & Eg & -> & ->).
      destruct (get_index_counts addr true (incr_stat accepted_ads s0))
        as (i' & sg' & Eg' & Lg & Cg).
      rewrite Eg in Eg'. injection Eg' as _ <-.
      unfold lookups, creations. rewrite Lg, Cg.
      rewrite trace_incr_stat, Ht0, world_incr_stat, table_full_incr_stat.
      unfold s0. rewrite !world_incr_stat, !table_full_incr_stat.
      fold (answer addr s). simpl. split; [lia|].
      rewrite andb_true_r. reflexivity. }
  destruct Hcount as [Hl Hc].
  split; [exact Hl|]. split; [exact Hc|].
  split.
  - unfold lookups.
    rewrite (calls_only_count is_lookup name_call s2 s3); [|
      intros c; destruct c; simpl; intros Hn; solve [reflexivity|discriminate Hn]|exact N3].
    rewrite T2, count_calls_app. simpl. lia.
  - unfold creations.
    rewrite (calls_only_count is_create name_call s2 s3); [|
      intros c; destruct c; simpl; intros Hn; solve [reflexivity|discriminate Hn]|exact N3].
    rewrite T2, count_calls_app. simpl. lia.
Qed.

End Frames.

(** ** Sequences of frames *)

Section Sequences.

Context {W : Type} `{!Kconfig} `{!SensorConstants} `{!SensorLib}
        `{!Collaborators W} `{!Toolchain}.

(** What [ad_filter] does to the table, by the index it returns. *)
Lemma ad_filter_effect addr p rssi (s : state W) :
  table_ok s ->
  runs (ad_filter addr (Some p) rssi) 1 s
       (fun r s' =>
          if valid_index r then
            exists e,
              table s !! Z.to_nat r = Some e
              /\ ((is_duplicate p e = true /\ table s' = table s)
                  \/ (is_duplicate p e = false
                      /\ table s'
                         = <[Z.to_nat r := set_last_event (id p) (recordType p) e]>
                             (table s)))
          else table s' = table s).
Proof.
  intros Hok. unfold ad_filter.
  destruct (ad_discard p); [apply runs_ret_any; reflexivity|].
  eapply (runs_bind_le _ _ 0 1); [lia|apply runs_INCR_STAT|].
  intros ? s1 S1 T1.
  eapply (runs_bind_le _ _ 1 0); [lia|apply get_index_runs|].
  intros idx s2 S2 (T2 & _ & _).
  destruct (valid_index idx) eqn:Hv; simpl negb; cbv iota.
  2:{ apply runs_ret_any. rewrite Hv. cbv beta in T1. congruence. }
  destruct (slot_exists s idx Hok Hv) as [e He].
  pose proof (valid_index_nonneg idx Hv) as Hge.
  eapply (runs_bind_le _ _ 0 0); [lia|apply runs_INCR_STAT|].
  intros ? s3 S3 T3.
  assert (He3 : table s3 !! Z.to_nat idx = Some e) by (rewrite T3, T2, T1; exact He).
  eapply (runs_bind_le _ _ 0 0); [lia|apply (keeps_load_slot idx s3 e Hge He3)|].
  intros e' s4 _ [-> ->].
  destruct (is_duplicate p e) eqn:Hdup.
  - apply runs_ret_any. rewrite Hv. exists e; split; [exact He|].
    left; split; [exact Hdup|]. cbv beta in T1, T3. congruence.
  - eapply runs_weaken; [reflexivity| |eapply (accept_runs idx p rssi s3 e Hge He3)].
    intros r s5 _ (-> & T5 & _). rewrite Hv. exists e; split; [exact He|].
    right; split; [exact Hdup|]. rewrite T5, T3, T2, T1. reflexivity.
Qed.

(** [ad_filter] for an address the directory knows. *)
Lemma ad_filter_known addr p rssi (s : state W) e :
  ad_discard p = false ->
  let r := fst (respond (lcz_lwm2m_gw_obj_lookup_ble addr) (world s)) in
  valid_index r = true ->
  table s !! Z.to_nat r = Some e ->
  ad_filter addr (Some p) rssi s
  = (if is_duplicate p e then ret r
     else
       store_slot r (set_last_event (id p) (recordType p)) ;;
       (if CONFIG_LCZ_LWM2M_BLE_SENSOR_LED
        then extern lcz_led_blink ;; ret tt else ret tt) ;;
       ad_process r p rssi ;;
       extern (lcz_lwm2m_gw_obj_set_lifetime r LIFETIME) ;;
       ret r)
      (incr_stat indexed_ads
         (after_call (lcz_lwm2m_gw_obj_lookup_ble addr)
            (incr_stat accepted_ads s))).
Proof.
  intros Hd r Hv He.
  assert (Hg : get_index addr true (incr_stat accepted_ads s)
               = Some (r, after_call (lcz_lwm2m_gw_obj_lookup_ble addr)
                            (incr_stat accepted_ads s))).
  { rewrite get_index_no_create; rewrite world_incr_stat; fold r.
    - apply andb_prop in Hv as [_ Hlt]. apply Z.ltb_lt in Hlt.
      destruct (Z.leb_spec MAX_INSTANCES r); [lia|reflexivity].
    - rewrite Hv; reflexivity. }
  unfold ad_filter. rewrite Hd.
  rewrite (bind_eq (INCR_STAT accepted_ads) _ s tt _ eq_refl).
  rewrite (bind_eq _ _ _ _ _ Hg), Hv. cbn [negb]. cbv iota.
  set (s1 := after_call (lcz_lwm2m_gw_obj_lookup_ble addr) (incr_stat accepted_ads s)).
  assert (He1 : table (incr_stat indexed_ads s1) !! Z.to_nat r = Some e).
  { rewrite table_incr_stat. unfold s1; simpl. rewrite table_incr_stat. exact He. }
  rewrite (bind_eq (INCR_STAT indexed_ads) _ s1 tt _ eq_refl).
  rewrite (bind_eq _ _ _ _ _
             (load_slot_eq (incr_stat indexed_ads s1) r e
                (valid_index_nonneg r Hv) He1)).
  reflexivity.
Qed.

(** X6: [ad_filter] returns, and changes at most one slot of the table: the
    one whose index it returns. There it leaves the event's id and record
    type as the duplicate markers and keeps the product id. When the
    result is not a valid index the table is as it was. *)
Theorem ad_filter_touches_one_slot addr p rssi (s : state W) :
  table_ok s ->
  exists r s',
    ad_filter addr (Some p) rssi s = Some (r, s')
    /\ (forall j, valid_index r = false \/ j <> Z.to_nat r ->
                  table s' !! j = table s !! j)
    /\ (valid_index r = true ->
        exists e,
          table s !! Z.to_nat r = Some e
          /\ table s' !! Z.to_nat r
             = Some {| last_record_type := recordType p;
                       last_event_id := id p;
                       product_id := product_id e |}).
Proof.
  intros Hok.
  destruct (ad_filter_effect addr p rssi s Hok) as (r & s' & E & _ & Q).
  exists r, s'. split; [exact E|].
  destruct (valid_index r) eqn:Hv.
  - destruct Q as (e & He & [[Hdup Ht]|[Hdup Ht]]).
    + apply is_duplicate_spec in Hdup as (_ & Hi & Hty). split.
      * intros j _; rewrite Ht; reflexivity.
      * intros _. exists e; split; [exact He|]. rewrite Ht, He.
        destruct e; simpl in *; congruence.
    + split.
      * intros j [Hf|Hj]; [discriminate Hf|].
        rewrite Ht. apply list_lookup_insert_ne; auto.
      * intros _. exists e; split; [exact He|]. rewrite Ht.
        apply list_lookup_insert_eq. eapply lookup_lt_Some; eassumption.
  - split; [|discriminate]. intros j _; rewrite Q; reflexivity.
Qed.

(** X7: after [ad_filter] has returned a valid index for an event, a frame
    with the same event for the same address, which the directory still
    resolves to that index, is rejected as a duplicate when the id is not
    0: the index comes back and the lookup is the only call, whether the
    first frame was itself accepted or rejected. With id 0 the event is
    accepted again and the lifetime request repeated. *)
Theorem repeated_event_suppressed addr p rssi rssi' i (s s1 : state W) :
  table_ok s ->
  ad_filter addr (Some p) rssi s = Some (i, s1) ->
  valid_index i = true ->
  fst (respond (lcz_lwm2m_gw_obj_lookup_ble addr) (world s1)) = i ->
  (id p <> 0 ->
   exists s2,
     ad_filter addr (Some p) rssi' s1 = Some (i, s2)
     /\ table s2 = table s1 /\ table_full s2 = table_full s1
     /\ trace s2 = trace s1 ++ [lcz_lwm2m_gw_obj_lookup_ble addr])
  /\ (id p = 0 ->
      exists s2 s3,
        ad_filter addr (Some p) rssi' s1 = Some (i, s2)
        /\ s2 = after_call (lcz_lwm2m_gw_obj_set_lifetime i LIFETIME) s3).
Proof.
  intros Hok E Hv Hl.
  assert (Hd : ad_discard p = false).
  { destruct (ad_discard p) eqn:Hd; [|reflexivity].
    unfold ad_filter in E; rewrite Hd in E. injection E as <- _.
    discriminate Hv. }
  destruct (runs_inv _ _ _ _ _ _ (ad_filter_effect addr p rssi s Hok) E) as [S Q].
  rewrite Hv in Q. destruct Q as (e & He & Q).
  pose proof (lookup_lt_Some _ _ _ He) as Hlt.
  assert (He1 : table s1 !! Z.to_nat i
                = Some (set_last_event (id p) (recordType p) e)).
  { destruct Q as [[Hdup Ht]|[_ Ht]]; rewrite Ht.
    - apply is_duplicate_spec in Hdup as (_ & Hi & Hty).
      rewrite He. destruct e; unfold set_last_event; simpl in *; congruence.
    - apply list_lookup_insert_eq; exact Hlt. }
  pose proof (valid_index_nonneg i Hv) as Hge.
  pose proof (ad_filter_known addr p rssi' s1
                (set_last_event (id p) (recordType p) e) Hd) as Hk.
  cbv zeta in Hk. rewrite Hl in Hk. specialize (Hk Hv He1).
  rewrite Hk. split.
  - intros Hnz.
    assert (Hdup : is_duplicate p (set_last_event (id p) (recordType p) e) = true).
    { apply is_duplicate_spec; simpl; auto. }
    rewrite Hdup. eexists; split; [reflexivity|].
    rewrite table_incr_stat, table_full_incr_stat, trace_incr_stat; simpl.
    rewrite table_incr_stat, table_full_incr_stat, trace_incr_stat. auto.
  - intros Hz.
    assert (Hdup : is_duplicate p (set_last_event (id p) (recordType p) e) = false).
    { unfold is_duplicate. rewrite Hz; reflexivity. }
    rewrite Hdup.
    match goal with
    | |- exists s2 s3, _ ?s0 = _ /\ _ =>
        destruct (accept_runs i p rssi' s0
                    (set_last_event (id p) (recordType p) e) Hge)
          as (r & s2 & E2 & _ & -> & _ & _ & sa & sb & _ & _ & ->)
    end.
    { rewrite table_incr_stat; simpl. rewrite table_incr_stat. exact He1. }
    eexists _, sb; split; [exact E2|reflexivity].
Qed.

(** X9: an event that passes the gate, from an address the directory knows,
    is resolved to the directory's index without a creation request, with
    the capacity flag set or clear, and the flag stays as it was. *)
Theorem known_device_ignores_capacity_flag addr p rssi (s : state W) :
  table_ok s ->
  ad_discard p = false ->
  let r := fst (respond (lcz_lwm2m_gw_obj_lookup_ble addr) (world s)) in
  valid_index r = true ->
  (forall add,
     get_index addr add s
     = Some (r, after_call (lcz_lwm2m_gw_obj_lookup_ble addr) s))
  /\ exists s',
      ad_filter addr (Some p) rssi s = Some (r, s')
      /\ count_calls is_create (trace s') = count_calls is_create (trace s)
      /\ table_full s' = table_full s.
Proof.
  intros Hok Hd r Hv. split.
  - intros add. rewrite get_index_no_create; fold r.
    + apply andb_prop in Hv as [_ Hlt]. apply Z.ltb_lt in Hlt.
      destruct (Z.leb_spec MAX_INSTANCES r); [lia|reflexivity].
    + rewrite Hv; reflexivity.
  - destruct (slot_exists s r Hok Hv) as [e He].
    rewrite (ad_filter_known addr p rssi s e Hd Hv He).
    destruct (is_duplicate p e).
    + eexists; split; [reflexivity|].
      rewrite trace_incr_stat, table_full_incr_stat; simpl.
      rewrite trace_incr_stat, table_full_incr_stat, count_calls_app; simpl.
      split; [lia|reflexivity].
    + match goal with
      | |- exists s', _ ?s0 = _ /\ _ =>
          destruct (accept_runs r p rssi s0 e (valid_index_nonneg r Hv))
            as (r' & s' & E & S & -> & _ & F & _)
      end.
      { rewrite table_incr_stat; simpl. rewrite table_incr_stat. exact He. }
      exists s'; split; [exact E|].
      apply no_creation in S. rewrite S, F.
      rewrite trace_incr_stat, table_full_incr_stat; simpl.
      rewrite trace_incr_stat, table_full_incr_stat, count_calls_app; simpl.
      split; [lia|reflexivity].
Qed.

(** X8: with the capacity flag set, resolving an unknown address makes the
    lookup only; once [gw_obj_removed] has run for any valid index, the
    same resolution asks the directory for a creation again. *)
Theorem removal_reenables_creation addr idx (s : state W) :
  table_ok s ->
  valid_index idx = true ->
  table_full s = true ->
  valid_index (fst (respond (lcz_lwm2m_gw_obj_lookup_ble addr) (world s))) = false ->
  (exists i,
     get_index addr true s
     = Some (i, after_call (lcz_lwm2m_gw_obj_lookup_ble addr) s))
  /\ exists s1 i s2 log,
      gw_obj_removed idx s = Some (0, s1)
      /\ get_index addr true s1 = Some (i, s2)
      /\ trace s2 = trace s ++ [lcz_lwm2m_gw_obj_lookup_ble addr;
                                lcz_lwm2m_gw_obj_create addr] ++ log
      /\ count_calls is_create log = O.
Proof.
  intros Hok Hv Hf Hu. split.
  - eexists. apply get_index_no_create. rewrite Hf, andb_false_r; reflexivity.
  - destruct (slot_exists s idx Hok Hv) as [e He].
    eexists. 
    match goal with
    | |- exists i s2 log, gw_obj_removed idx s = Some (0, ?s1) /\ _ =>
        destruct (get_index_create addr
                    (with_table
                       (<[Z.to_nat idx := set_product_id INVALID_PRODUCT_ID e]> (table s))
                       (with_table_full false s)))
          as (s2 & E & _ & _ & _ & _ & log & T & L)
    end.
    { simpl. rewrite Hu; reflexivity. }
    eexists _, s2, log. split; [apply (gw_obj_removed_valid idx s e Hv He)|].
    split; [exact E|]. split; [exact T|exact L].
Qed.

(** X12: [gw_obj_removed] does not reset the duplicate markers. An event
    that matches the markers the slot held before the removal, with an id
    other than 0, from an address the directory resolves to that slot, is
    rejected as a duplicate after the removal: the lookup is the only
    call. *)
Theorem removal_keeps_markers addr p rssi idx e (s : state W) :
  table_ok s ->
  valid_index idx = true ->
  table s !! Z.to_nat idx = Some e ->
  ad_discard p = false ->
  fst (respond (lcz_lwm2m_gw_obj_lookup_ble addr) (world s)) = idx ->
  id p <> 0 -> id p = last_event_id e -> recordType p = last_record_type e ->
  exists s1 s2,
    gw_obj_removed idx s = Some (0, s1)
    /\ table s1 !! Z.to_nat idx
       = Some {| last_record_type := last_record_type e;
                 last_event_id := last_event_id e;
                 product_id := INVALID_PRODUCT_ID |}
    /\ ad_filter addr (Some p) rssi s1 = Some (idx, s2)
    /\ table s2 = table s1
    /\ trace s2 = trace s ++ [lcz_lwm2m_gw_obj_lookup_ble addr].
Proof.
  intros Hok Hv He Hd Hl Hnz Hi Hty.
  pose proof (lookup_lt_Some _ _ _ He) as Hlt.
  set (s1 := with_table
               (<[Z.to_nat idx := set_product_id INVALID_PRODUCT_ID e]> (table s))
               (with_table_full false s)).
  assert (He1 : table s1 !! Z.to_nat idx = Some (set_product_id INVALID_PRODUCT_ID e)).
  { unfold s1; simpl. apply list_lookup_insert_eq; exact Hlt. }
  pose proof (ad_filter_known addr p rssi s1
                (set_product_id INVALID_PRODUCT_ID e) Hd) as Hk.
  cbv zeta in Hk. unfold s1 in Hk at 1 2; simpl in Hk. rewrite Hl in Hk.
  specialize (Hk Hv He1).
  assert (Hdup : is_duplicate p (set_product_id INVALID_PRODUCT_ID e) = true).
  { apply is_duplicate_spec; simpl; auto. }
  rewrite Hdup in Hk.
  exists s1. eexists. split; [apply (gw_obj_removed_valid idx s e Hv He)|].
  split; [exact He1|]. split; [exact Hk|].
  rewrite table_incr_stat, trace_incr_stat; simpl.
  rewrite table_incr_stat, trace_incr_stat. auto.
Qed.

(** X13: a name write that the directory refuses is not remembered: the
    counter of name updates stays, and the next frame for the same index,
    for which the directory still reports no instance, asks for its own
    name to be set. *)
Theorem failed_name_write_retried idx ad1 ad2 name1 name2 (s : state W) :
  let created := lcz_lwm2m_gw_obj_inst_created idx in
  let set1 := lcz_lwm2m_gw_obj_set_endpoint_name idx name1 (size (AdFind_Name ad1)) in
  let set2 := lcz_lwm2m_gw_obj_set_endpoint_name idx name2 (size (AdFind_Name ad2)) in
  valid_index idx = true ->
  pPayload (AdFind_Name ad1) = Some name1 ->
  pPayload (AdFind_Name ad2) = Some name2 ->
  fst (respond created (world s)) = 0 ->
  fst (respond set1 (world (after_call created s))) <> 0 ->
  fst (respond created (world (after_call set1 (after_call created s)))) = 0 ->
  exists s1 s2,
    name_handler idx ad1 s = Some (tt, s1)
    /\ stats s1 = stats s
    /\ name_handler idx ad2 s1 = Some (tt, s2)
    /\ trace s2 = trace s ++ [created; set1; created; set2].
Proof.
  intros created set1 set2 Hv Hn1 Hn2 Hc Hf Hc2.
  rewrite (name_handler_named idx ad1 name1 s Hv Hn1).
  fold created set1. rewrite Hc; simpl.
  apply Z.eqb_neq in Hf. simpl in Hf. rewrite Hf.
  eexists _, _. split; [reflexivity|]. split; [reflexivity|].
  rewrite (name_handler_named idx ad2 name2 _ Hv Hn2).
  fold created set2. simpl in Hc2 |- *. rewrite Hc2; simpl.
  split; [reflexivity|].
  match goal with |- context [if ?c =? 0 then _ else _] => destruct (c =? 0) end;
    rewrite ?trace_incr_stat; simpl; rewrite <- !app_assoc; reflexivity.
Qed.

(** [ad_process] on a battery event, in a build with the battery category:
    one call to the battery sink with the conversion for the slot's product
    id. *)
Lemma ad_process_battery idx p rssi (s : state W) e :
  case_labels_distinct = true ->
  CONFIG_LCZ_LWM2M_BATTERY = true ->
  In (recordType p) battery_labels ->
  0 <= idx -> table s !! Z.to_nat idx = Some e ->
  exists s',
    ad_process idx p rssi s = Some (tt, s')
    /\ trace s'
       = trace s ++ [lcz_lwm2m_managed_battery_set idx 0
                       (fst (battery_convert (product_id e) p))
                       (snd (battery_convert (product_id e) p))].
Proof.
  intros Hd Hc Hin Hge He. distinct_labels Hd.
  unfold ad_process, bind, INCR_STAT, ret. cbv zeta.
  simpl in Hin.
  destruct Hin as [Hin|[Hin|[]]]; rewrite <- Hin; decide_labels;
    cbn [orb]; cbv beta iota; rewrite Hc;
    unfold bind; rewrite (load_slot_eq s idx e Hge He);
    destruct (battery_convert (product_id e) p) as [v level];
    unfold extern;
    match goal with |- context [if ?r =? 0 then _ else _] => destruct (r =? 0) end;
    (eexists; split; [reflexivity|]);
    rewrite !trace_incr_stat; reflexivity.
Qed.

Lemma any_call_closed fp (Hv : fp_convert fp = false) :
  closed (calls_only (fun _ : call => true)) fp.
Proof.
  apply calls_only_closed; [reflexivity|]. rewrite Hv; discriminate.
Qed.

(** X14: in a coded-PHY frame the event is converted before the scan
    response is correlated. A battery event of such a frame, accepted for a
    known address, is converted with the product id the slot held before
    the frame, not the one the frame carries: for a slot that has not
    learned its product id the sink gets 0 volts and 0 percent. *)
Theorem coded_frame_converts_before_correlating
        addr rssi type ad bytes e (s : state W) :
  table_ok s ->
  case_labels_distinct = true ->
  product_labels_distinct = true ->
  CONFIG_LCZ_LWM2M_BATTERY = true ->
  let handle := AdFind_Type ad BT_DATA_MANUFACTURER_DATA BT_DATA_INVALID in
  lcz_sensor_adv_match_1m handle = false ->
  lcz_sensor_adv_match_coded handle = true ->
  pPayload handle = Some bytes ->
  let ev := fst (as_LczSensorAdCoded bytes) in
  let r := fst (respond (lcz_lwm2m_gw_obj_lookup_ble addr) (world s)) in
  In (recordType ev) battery_labels ->
  valid_index r = true ->
  table s !! Z.to_nat r = Some e ->
  is_duplicate ev e = false ->
  exists s' v level,
    ad_handler addr rssi type ad s = Some (tt, s')
    /\ battery_convert (product_id e) ev = (v, level)
    /\ In (lcz_lwm2m_managed_battery_set r 0 v level) (trace s')
    /\ (product_id e <> BT510_PRODUCT_ID -> product_id e <> BT6XX_PRODUCT_ID ->
        v = 0%float /\ level = 0).
Proof.
  intros Hok Hd Hpd Hc handle Hm Hcd Hp ev r Hin Hv He Hdup.
  pose proof (valid_index_nonneg r Hv) as Hge.
  pose proof (lookup_lt_Some _ _ _ He) as Hlt.
  assert (Hgate : ad_discard ev = false).
  { pose proof Hd as Hd'. distinct_labels Hd'. unfold ad_discard. cbv zeta.
    simpl in Hin. destruct Hin as [Hin|[Hin|[]]]; rewrite <- Hin;
      decide_labels; cbn [orb]; cbv iota; rewrite Hc; reflexivity. }
  set (s0 := incr_stat coded_ads (incr_stat ads s)).
  assert (He0 : table s0 !! Z.to_nat r = Some e).
  { unfold s0; rewrite !table_incr_stat; exact He. }
  pose proof (ad_filter_known addr ev rssi s0 e Hgate) as Hk.
  assert (Hw : world s0 = world s) by (unfold s0; rewrite !world_incr_stat; reflexivity).
  cbv zeta in Hk. rewrite Hw in Hk. fold r in Hk.
  specialize (Hk Hv He0). rewrite Hdup in Hk.
  match type of Hk with
  | _ = _ ?sA =>
      destruct (accept_runs r ev rssi sA e Hge)
        as (r' & s1 & E1 & S1 & -> & T1 & _ & s2 & s3 & T2 & E3 & ->)
  end.
  { rewrite table_incr_stat; simpl. rewrite table_incr_stat. exact He0. }
  assert (Hk' : ad_filter addr (Some ev) rssi s0
                = Some (r, after_call (lcz_lwm2m_gw_obj_set_lifetime r LIFETIME) s3))
    by (rewrite Hk; exact E1).
  clear Hk E1.
  destruct (ad_process_battery r ev rssi s2 (set_last_event (id ev) (recordType ev) e)
              Hd Hc Hin Hge) as (s3' & E3' & T3).
  { rewrite T2, T1, table_incr_stat; simpl. rewrite table_incr_stat.
    apply list_lookup_insert_eq. rewrite <- (lookup_lt_is_Some (table s0)).
    eauto. }
  rewrite E3 in E3'; injection E3' as <-. simpl product_id in T3.
  set (s1 := after_call (lcz_lwm2m_gw_obj_set_lifetime r LIFETIME) s3) in *.
  assert (Hok1 : table_ok s1).
  { eapply table_ok_step; [exact S1|].
    unfold table_ok. rewrite table_incr_stat; simpl. rewrite table_incr_stat.
    unfold s0; rewrite !table_incr_stat. exact Hok. }
  destruct (correlate_runs addr (snd (as_LczSensorAdCoded bytes)) ad s1 Hok1)
    as ([] & s' & E & _).
  assert (Eh : ad_handler addr rssi type ad s = Some (tt, s')).
  { unfold ad_handler. fold handle. cbv zeta. rewrite Hm, Hcd, Hp.
    rewrite (bind_eq (INCR_STAT ads) _ s tt _ eq_refl).
    rewrite (bind_eq (INCR_STAT coded_ads) _ _ tt _ eq_refl).
    fold s0 ev. rewrite (bind_eq _ _ _ _ _ Hk'). exact E. }
  destruct (correlate_footprint (calls_only (fun _ => true)) fp_frame_rsp
              addr (Some (snd (as_LczSensorAdCoded bytes))) ad
              ltac:(includes_tac) ltac:(includes_tac)
              (any_call_closed fp_frame_rsp eq_refl) s1 tt s' E)
    as (calls & Tc & _).
  apply negb_true_iff, Z.eqb_neq in Hpd.
  pose proof (battery_convert_spec (product_id e) ev Hpd) as Hspec.
  destruct (battery_convert (product_id e) ev) as [v level].
  exists s', v, level. split; [exact Eh|]. split; [reflexivity|]. split.
  - rewrite Tc. apply in_or_app; left. unfold s1; simpl.
    apply in_or_app; left. rewrite T3. apply in_or_app; right. left. reflexivity.
  - apply Hspec.
Qed.

(** X15: when [ad_filter] returns something that is not a valid index (a
    null or gated event, a full table, a refused or out-of-range
    creation), the event is dropped without a trace in the module: the
    table is as it was and the only calls made are those of the
    resolution itself; no LED, no sink, no lifetime request. *)
Theorem dropped_event_is_silent addr p rssi (s : state W) :
  table_ok s ->
  exists r s',
    ad_filter addr p rssi s = Some (r, s')
    /\ (valid_index r = false ->
        table s' = table s
        /\ calls_only (fun c => directory_query c || creation_call c) s s').
Proof.
  intros Hok.
  destruct (ad_filter_runs addr p rssi s Hok) as (r & s' & E & _).
  exists r, s'. split; [exact E|]. intros Hr.
  assert (Hsilent : calls_only (fun c => directory_query c || creation_call c) s s).
  { apply calls_only_refl. }
  unfold ad_filter in E.
  destruct p as [p|]; [|injection E as _ <-; auto].
  destruct (ad_discard p); [injection E as _ <-; auto|].
  apply bind_inv in E as ([] & s1 & E1 & E). injection E1 as <-.
  apply bind_inv in E as (idx & s2 & E2 & E).
  pose proof (runs_inv _ _ _ _ _ _ (get_index_runs addr true _) E2) as (_ & T2 & _).
  rewrite table_incr_stat in T2.
  assert (C2 : calls_only (fun c => directory_query c || creation_call c) s s2).
  { eapply calls_only_trans; [apply calls_only_same, trace_incr_stat|].
    refine (get_index_footprint _ addr true _ _ idx s2 E2).
    apply calls_only_closed; [|discriminate].
    intros c Hc; exact Hc. }
  destruct (valid_index idx) eqn:Hv; simpl negb in E; cbv iota in E.
  - exfalso.
    destruct (slot_exists s idx Hok Hv) as [e He].
    pose proof (valid_index_nonneg idx Hv) as Hge.
    apply bind_inv in E as ([] & s3 & E3 & E). injection E3 as <-.
    assert (He3 : table (incr_stat indexed_ads s2) !! Z.to_nat idx = Some e).
    { rewrite table_incr_stat, T2; exact He. }
    rewrite (bind_eq _ _ _ _ _ (load_slot_eq _ idx e Hge He3)) in E.
    destruct (is_duplicate p e).
    + injection E as <- _. congruence.
    + destruct (runs_inv _ _ _ _ _ _ (accept_runs idx p rssi _ e Hge He3) E)
        as (_ & -> & _). congruence.
  - injection E as <- <-. auto.
Qed.

(** X18: what a creation request logs. When the lookup fails and the
    capacity flag is clear, [get_index] asks for a creation. If the
    directory answers [-EPERM] (a blocked address) and verbose creation
    logging is off, nothing is read for the log: the lookup and the
    creation are the only calls, the result is [-EPERM] and the flag stays
    clear. Otherwise a debug build reads, once each, the instance and,
    through [get_name], the endpoint name of the index the creation
    returned, as it came back, before the range check; the two reads are
    arguments of one [LOG_DBG] and come in the order in which the build
    evaluates arguments, either one. A build without debug logging reads
    neither. *)
Theorem creation_log_calls addr (s : state W) :
  let lookup := lcz_lwm2m_gw_obj_lookup_ble addr in
  let create := lcz_lwm2m_gw_obj_create addr in
  let r := fst (respond lookup (world s)) in
  let r' := fst (respond create (world (after_call lookup s))) in
  let instance := lcz_lwm2m_gw_obj_get_instance r' in
  let name := lcz_lwm2m_gw_obj_get_endpoint_name r' in
  valid_index r = false ->
  table_full s = false ->
  exists i s',
    get_index addr true s = Some (i, s')
    /\ (r' = - EPERM -> CONFIG_LCZ_LWM2M_BLE_CREATE_LOG_VERBOSE = false ->
        i = - EPERM /\ table_full s' = false
        /\ trace s' = trace s ++ [lookup; create])
    /\ (CONFIG_LCZ_LWM2M_BLE_SENSOR_LOG_LEVEL_DBG = true ->
        r' <> - EPERM \/ CONFIG_LCZ_LWM2M_BLE_CREATE_LOG_VERBOSE = true ->
        trace s' = trace s ++ [lookup; create]
                           ++ (if args_left_to_right then [instance; name]
                               else [name; instance]))
    /\ (CONFIG_LCZ_LWM2M_BLE_SENSOR_LOG_LEVEL_DBG = false ->
        trace s' = trace s ++ [lookup; create]).
Proof.
  intros lookup create r r' instance name Hv Hf.
  unfold get_index, bind, extern, get_table_full, set_table_full, get_name,
    bind, extern, ret; simpl.
  fold lookup r. rewrite Hv, Hf. simpl. fold create.
  change (fst (respond create (snd (respond lookup (world s))))) with r'.
  fold instance name.
  destruct CONFIG_LCZ_LWM2M_BLE_SENSOR_LOG_LEVEL_DBG;
    destruct CONFIG_LCZ_LWM2M_BLE_CREATE_LOG_VERBOSE;
    destruct args_left_to_right;
    destruct (Z.eqb_spec r' (- EPERM)) as [Er|Er]; simpl;
    destruct (Z.eqb_spec r' (- ENOMEM)) as [Em|Em];
    try (exfalso; rewrite Er in Em; discriminate Em);
    destruct (Z.leb_spec MAX_INSTANCES r') as [Hm|Hm];
    eexists _, _; (split; [reflexivity|]); simpl;
    rewrite <- ?app_assoc; simpl;
    (split; [|split]);
    try discriminate; try (intros; reflexivity); try tauto;
    try (intros _ [Hn|Hn]; [contradiction|discriminate Hn]);
    intros _ _; rewrite ?Er, ?Hf; auto.
Qed.

(** X16: the product id a scan response leaves in a slot selects the
    conversion of the battery events that follow. For an address the
    directory resolves to a valid index, [rsp_handler] returns that index
    and stores the response's product id in its slot, keeping the
    duplicate markers; a battery event then converted for that index goes
    to the battery sink with the conversion for that product id. The only
    calls are the lookup and the sink. *)
Theorem response_selects_conversion addr rsp p rssi e (s : state W) :
  case_labels_distinct = true ->
  CONFIG_LCZ_LWM2M_BATTERY = true ->
  In (recordType p) battery_labels ->
  let r := fst (respond (lcz_lwm2m_gw_obj_lookup_ble addr) (world s)) in
  valid_index r = true ->
  table s !! Z.to_nat r = Some e ->
  exists s1 s2,
    rsp_handler addr (Some rsp) s = Some (r, s1)
    /\ table s1
       = <[Z.to_nat r := {| last_record_type := last_record_type e;
                            last_event_id := last_event_id e;
                            product_id := productId rsp |}]> (table s)
    /\ ad_process r p rssi s1 = Some (tt, s2)
    /\ trace s2
       = trace s ++ [lcz_lwm2m_gw_obj_lookup_ble addr;
                     lcz_lwm2m_managed_battery_set r 0
                       (fst (battery_convert (productId rsp) p))
                       (snd (battery_convert (productId rsp) p))].
Proof.
  intros Hd Hc Hin r Hv He.
  pose proof (valid_index_nonneg r Hv) as Hge.
  set (s0 := after_call (lcz_lwm2m_gw_obj_lookup_ble addr) s).
  assert (Hg : get_index addr false s = Some (r, s0)).
  { rewrite get_index_no_create; fold r.
    - apply andb_prop in Hv as [_ Hlt]. apply Z.ltb_lt in Hlt.
      destruct (Z.leb_spec MAX_INSTANCES r); [lia|reflexivity].
    - rewrite Hv; reflexivity. }
  assert (He0 : table s0 !! Z.to_nat r = Some e) by exact He.
  set (s1 := with_table (<[Z.to_nat r := set_product_id (productId rsp) e]> (table s0)) s0).
  assert (E1 : rsp_handler addr (Some rsp) s = Some (r, s1)).
  { unfold rsp_handler. rewrite (bind_eq _ _ _ _ _ Hg).
    destruct (Z.leb_spec 0 r); [|lia].
    rewrite (bind_eq _ _ _ _ _ (store_slot_eq s0 r _ e Hge He0)). reflexivity. }
  destruct (ad_process_battery r p rssi s1 (set_product_id (productId rsp) e)
              Hd Hc Hin Hge) as (s2 & E2 & T2).
  { unfold s1; simpl. apply list_lookup_insert_eq.
    eapply lookup_lt_Some; exact He. }
  exists s1, s2. split; [exact E1|]. split; [reflexivity|]. split; [exact E2|].
  rewrite T2. unfold s1, s0; simpl. rewrite <- app_assoc. reflexivity.
Qed.

(** X17: the frame counters follow the order of the shape tests. In a
    build with the statistics, a frame that [ad_handler] has processed is
    counted once in [ads], and once in [legacy_ads] if it has the 1M shape,
    else once in [coded_ads] if it has the coded shape, else once in
    [rsp_ads] if it has the scan-response shape; the other frame counters
    keep their values, whatever was done for the frame (counters are 32
    bits wide). *)
Theorem frames_counted_by_shape addr rssi type ad (s s' : state W) :
  CONFIG_LCZ_LWM2M_BLE_SENSOR_STATS = true ->
  ad_handler addr rssi type ad s = Some (tt, s') ->
  let handle := AdFind_Type ad BT_DATA_MANUFACTURER_DATA BT_DATA_INVALID in
  let is_1m := lcz_sensor_adv_match_1m handle in
  let is_coded := negb is_1m && lcz_sensor_adv_match_coded handle in
  let is_rsp := negb is_1m && negb (lcz_sensor_adv_match_coded handle)
                && lcz_sensor_adv_match_rsp handle in
  stats s' ads = u32 (stats s ads + 1)
  /\ stats s' legacy_ads
     = (if is_1m then u32 (stats s legacy_ads + 1) else stats s legacy_ads)
  /\ stats s' coded_ads
     = (if is_coded then u32 (stats s coded_ads + 1) else stats s coded_ads)
  /\ stats s' rsp_ads
     = (if is_rsp then u32 (stats s rsp_ads + 1) else stats s rsp_ads).
Proof.
  intros Hs E handle is_1m is_coded is_rsp.
  assert (Hfilter : forall a p r s1 i s2,
             ad_filter a p r s1 = Some (i, s2) ->
             stats s2 ads = stats s1 ads
             /\ stats s2 legacy_ads = stats s1 legacy_ads
             /\ stats s2 coded_ads = stats s1 coded_ads
             /\ stats s2 rsp_ads = stats s1 rsp_ads).
  { intros a p r s1 i s2 Ef. repeat split;
      match goal with
      | |- stats _ ?f = _ =>
          refine (ad_filter_footprint (keeps_counter f) a p r _ s1 i s2 Ef);
          apply keeps_counter_closed; reflexivity
      end. }
  assert (Hcorr : forall a p d s1 s2,
             (idx <- rsp_handler a p ;; name_handler idx d) s1 = Some (tt, s2) ->
             stats s2 ads = stats s1 ads
             /\ stats s2 legacy_ads = stats s1 legacy_ads
             /\ stats s2 coded_ads = stats s1 coded_ads
             /\ stats s2 rsp_ads = stats s1 rsp_ads).
  { intros a p d s1 s2 Ef. repeat split;
      match goal with
      | |- stats _ ?f = _ =>
          refine (correlate_footprint (keeps_counter f) fp_correlate a p d
                    ltac:(includes_tac) ltac:(includes_tac) _ s1 tt s2 Ef);
          apply keeps_counter_closed; [reflexivity|discriminate]
      end. }
  unfold ad_handler in E. fold handle in E. cbv zeta in E.
  apply bind_inv in E as ([] & s0 & E0 & E). injection E0 as <-.
  unfold is_coded, is_rsp, is_1m.
  destruct (lcz_sensor_adv_match_1m handle).
  { apply bind_inv in E as (i & s1 & E1 & E). injection E as <-.
    destruct (Hfilter _ _ _ _ _ _ E1) as (F1 & F2 & F3 & F4).
    rewrite !stats_incr_stat, Hs, F1, F2, F3, F4; simpl.
    rewrite !stats_incr_stat, Hs. repeat split; reflexivity. }
  destruct (lcz_sensor_adv_match_coded handle).
  { apply bind_inv in E as ([] & s1 & E1 & E). injection E1 as <-.
    destruct (pPayload handle) as [bytes|]; [|discriminate E].
    apply bind_inv in E as (i & s2 & E2 & E).
    destruct (Hcorr _ _ _ _ _ E) as (G1 & G2 & G3 & G4).
    destruct (Hfilter _ _ _ _ _ _ E2) as (F1 & F2 & F3 & F4).
    rewrite G1, G2, G3, G4, F1, F2, F3, F4; simpl.
    rewrite !stats_incr_stat, Hs. repeat split; reflexivity. }
  destruct (lcz_sensor_adv_match_rsp handle).
  { apply bind_inv in E as ([] & s1 & E1 & E). injection E1 as <-.
    destruct (pPayload handle) as [bytes|]; [|discriminate E].
    destruct (Hcorr _ _ _ _ _ E) as (G1 & G2 & G3 & G4).
    rewrite G1, G2, G3, G4; simpl.
    rewrite !stats_incr_stat, Hs. repeat split; reflexivity. }
  injection E as <-. rewrite !stats_incr_stat, Hs. repeat split; reflexivity.
Qed.

End Sequences.

(** ** Runs on the sample build *)

Section SampleRuns.

#[local] Existing Instance Sample.kconfig.
#[local] Existing Instance Sample.constants.
#[local] Existing Instance Sample.lib.
#[local] Existing Instance Sample.collaborators.
#[local] Existing Instance Sample.toolchain.

Import Sample.

(** A repeated temperature event (id 5) for a known address is rejected:
    index 0 comes back, the table is as before and the lookup is the only
    call. *)
Lemma duplicate_filter_witness :
  let s := tracked (slot 1 5 0) false (dir [A1] 4) in
  exists s',
    ad_filter A1 (Some (event 1 5 2150)) (-40) s = Some (0, s')
    /\ table s' = table s
    /\ trace s' = [lcz_lwm2m_gw_obj_lookup_ble A1].
Proof.
  intros s.
  destruct (@duplicate_filter directory kconfig constants lib collaborators toolchain
              A1 (event 1 5 2150) (-40) s
              (after_call (lcz_lwm2m_gw_obj_lookup_ble A1)
                 (incr_stat accepted_ads s))
              0 (slot 1 5 0) eq_refl eq_refl eq_refl eq_refl)
    as (Hdup & _ & _).
  destruct Hdup as (s' & E & _ & T & _ & _ & Tr).
  { split; [discriminate|split; reflexivity]. }
  exists s'; split; [exact E|]; split; [exact T|exact Tr].
Defined.

(** Temperature: the 16 bits 0xFF85 are -123, dispatched as -1.23. *)
Lemma temperature_dispatch_witness :
  exists s',
    ad_process 0 (event 1 7 65413) (-40) (fresh false (dir [A1] 4)) = Some (tt, s')
    /\ trace s' = [lcz_lwm2m_managed_temperature_set 0 0 (-1.23)%float].
Proof.
  destruct (@temperature_dispatch directory kconfig constants lib collaborators
              0 (event 1 7 65413) (-40)
              (fresh false (dir [A1] 4)) eq_refl)
    as (s' & E & _ & T).
  exists s'; split; [exact E|apply T; reflexivity].
Defined.

(** Battery on a BT510 slot: 3777 is dispatched as 3.777 volts. *)
Lemma battery_dispatch_witness :
  exists s' level,
    ad_process 0 (event 12 7 3777) (-40) (tracked (slot 0 0 0) false (dir [A1] 4))
    = Some (tt, s')
    /\ trace s' = [lcz_lwm2m_managed_battery_set 0 0 3.777%float level].
Proof.
  destruct (@battery_dispatch directory kconfig constants lib collaborators
              0 (event 12 7 3777) (-40)
              (tracked (slot 0 0 0) false (dir [A1] 4)) (slot 0 0 0)
              eq_refl eq_refl (or_introl eq_refl) eq_refl eq_refl)
    as (s' & v & level & E & T & H510 & _).
  destruct (H510 eq_refl) as (_ & _ & V).
  exists s', level; split; [exact E|].
  rewrite <- (V eq_refl); exact T.
Defined.

(** Against C2 as stated: on a BT6XX slot the payload 0xFFFFFFFF, which is
    -1 as a signed 32-bit value, is not dispatched as -1/1000 volts (the
    code dispatches 4294967.295). *)
Lemma battery_bt6xx_counterexample :
  let p := event 12 7 4294967295 in
  let s := tracked (slot 0 0 1) false (dir [A1] 4) in
  data_s32 p = -1
  /\ ~ exists s' level,
        ad_process 0 p (-40) s = Some (tt, s')
        /\ trace s'
           = [lcz_lwm2m_managed_battery_set 0 0
                (PrimFloat.div (double_of_Z (data_s32 p)) 1000) level].
Proof.
  intros p s. split; [reflexivity|].
  intros (s' & level & E & T).
  assert (Ht : option_map (fun x => trace (snd x)) (ad_process 0 p (-40) s)
               = Some (trace s')) by (rewrite E; reflexivity).
  rewrite T in Ht. vm_compute in Ht. discriminate Ht.
Qed.

(** An unknown record type (99) and a compiled-out category (pressure, 28)
    are rejected with the state untouched. *)
Lemma discarded_event_witness :
  let s := fresh false (dir [] 4) in
  ad_filter A1 (Some (event 99 7 0)) (-40) s = Some (- EPERM, s)
  /\ ad_filter A1 (Some (event 28 7 0)) (-40) s = Some (- EPERM, s).
Proof.
  intros s. split.
  - destruct (@discarded_event_touches_nothing directory kconfig constants lib
                collaborators toolchain A1 (event 99 7 0) (-40) s) as [Hu _].
    apply Hu. unfold record_type_unknown; simpl. intros Hin.
    repeat (destruct Hin as [Hin|Hin]; [discriminate Hin|]). exact Hin.
  - destruct (@discarded_event_touches_nothing directory kconfig constants lib
                collaborators toolchain A1 (event 28 7 0) (-40) s) as [_ Hd].
    apply Hd; [reflexivity|].
    right; right; right; left. split; [left; reflexivity|reflexivity].
Defined.

(** A directory of capacity 1 that knows A1: resolving A2 with the flag
    clear asks for a creation, gets [-ENOMEM] and sets the flag; with the
    flag set, only the lookup is called. *)
Lemma capacity_flag_latch_witness :
  let s := fresh false (dir [A1] 1) in
  let s2 := fresh true (dir [A1] 1) in
  (exists s', get_index A2 true s = Some (- ENOMEM, s') /\ table_full s' = true)
  /\ (exists idx,
        get_index A2 true s2
        = Some (idx, after_call (lcz_lwm2m_gw_obj_lookup_ble A2) s2)
        /\ valid_index idx = false).
Proof.
  intros s s2. split.
  - destruct (@capacity_flag_latch directory kconfig constants lib collaborators toolchain
                A2 s eq_refl) as (Hset & _).
    destruct (Hset eq_refl eq_refl) as (s' & log & E & _ & _ & F & _).
    exists s'; split; [exact E|apply F; reflexivity].
  - destruct (@capacity_flag_latch directory kconfig constants lib collaborators toolchain
                A2 s2 eq_refl) as (_ & Hfull & _).
    destruct (Hfull eq_refl eq_refl) as (idx & E & V & _).
    exists idx; split; [exact E|exact V].
Defined.

(** A coded-PHY frame with a temperature event from a new address: the
    frame is processed with two lookups and one creation request. *)
Lemma coded_frame_one_creation_witness :
  exists s',
    ad_handler A1 (-40) 0 [2; 1; 7; 2150; 0; 66; 84] (fresh false (dir [] 4))
    = Some (tt, s')
    /\ count_calls is_lookup (trace s') = 2%nat
    /\ count_calls is_create (trace s') = 1%nat.
Proof.
  destruct (@coded_frame_one_creation directory kconfig constants lib collaborators toolchain
              A1 (-40) 0 [2; 1; 7; 2150; 0; 66; 84] [2; 1; 7; 2150; 0; 66; 84]
              (fresh false (dir [] 4)) eq_refl eq_refl eq_refl eq_refl)
    as (_ & i1 & s1 & i2 & s2 & s3 & _ & _ & _ & E & _ & L1 & C1 & L3 & C3).
  cbv beta zeta in L1, C1, L3, C3.
  exists s3; split; [exact E|]. split.
  - rewrite L3, L1. reflexivity.
  - rewrite C3, C1. reflexivity.
Defined.

(** Against C5 as stated: a coded-PHY frame whose event belongs to a
    compiled-out category (pressure), from an address the directory does
    not know and with the capacity flag clear, is processed with the scan
    response's lookup as its only call. A resolution with creation allowed
    would have asked for a creation in that state, so the frame made none:
    not exactly one. *)
Lemma coded_frame_counterexample :
  let s := fresh false (dir [] 4) in
  (exists s',
     ad_handler A1 (-40) 0 [2; 28; 7; 2150; 0] s = Some (tt, s')
     /\ trace s' = [lcz_lwm2m_gw_obj_lookup_ble A1])
  /\ (exists i s',
        get_index A1 true s = Some (i, s')
        /\ count_calls is_create (trace s') = 1%nat).
Proof.
  intros s. split.
  - unfold s. run_sample T. reflexivity.
  - destruct (@get_index_counts directory kconfig collaborators toolchain A1 true s)
      as (i & s' & E & _ & C).
    exists i, s'. split; [exact E|exact C].
Qed.

(** A directory that hands out index 4 on a build with four instances:
    [get_index] still returns a value below [MAX_INSTANCES]. *)
Lemma table_access_in_bounds_witness :
  let s := fresh false (dir [A1; A1; A1; A1] 10) in
  exists i s',
    get_index A2 true s = Some (i, s') /\ i < MAX_INSTANCES /\ table_ok s'.
Proof.
  intros s.
  destruct (@table_access_in_bounds directory kconfig constants lib collaborators toolchain
              s eq_refl) as (_ & Hg & _).
  destruct (Hg A2 true) as (i & s' & E & _ & L & T).
  exists i, s'; split; [exact E|split; [exact L|exact T]].
Defined.



(** Removing index 0 of a full table whose slot 0 is a BT6XX: the flag is
    cleared, the product id reset, and a second removal changes nothing. *)
Lemma removal_resets_slot_witness :
  let s := tracked (slot 1 5 1) true (dir [A1] 4) in
  exists s',
    gw_obj_removed 0 s = Some (0, s')
    /\ table_full s' = false
    /\ table s' !! 0%nat = Some (slot 1 5 65535)
    /\ gw_obj_removed 0 s' = Some (0, s').
Proof.
  intros s.
  destruct (@removal_resets_slot directory kconfig constants collaborators toolchain
              0 (slot 1 5 1) s eq_refl eq_refl eq_refl)
    as (_ & s' & E & F & T & _ & _ & _ & I & _).
  exists s'; split; [exact E|]; split; [exact F|]; split; [|exact I].
  rewrite T; reflexivity.
Defined.

(** The fill level: the single-precision 254.0 (millimetres, bits
    0x437E0000) reaches the sink as 25.4 (centimetres). *)
Example fill_level_dispatch :
  exists s',
    ad_process 0 (event 30 7 1132331008) (-40) (fresh false (dir [A1] 4))
    = Some (tt, s')
    /\ trace s' = [lcz_lwm2m_managed_fill_level_set 0 0 25.4%float].
Proof. run_sample T. reflexivity. Qed.

(** A first event from a new address: the record is created at index 0,
    the value dispatched and the lifetime extended. *)
Example first_event_creates :
  exists s',
    ad_handler A1 (-40) 0 [1; 1; 7; 2150] (fresh false (dir [] 4)) = Some (tt, s')
    /\ trace s' = [lcz_lwm2m_gw_obj_lookup_ble A1;
                   lcz_lwm2m_gw_obj_create A1;
                   lcz_lwm2m_gw_obj_get_instance 0;
                   lcz_lwm2m_gw_obj_get_endpoint_name 0;
                   lcz_led_blink;
                   lcz_lwm2m_managed_temperature_set 0 0 21.5%float;
                   lcz_lwm2m_gw_obj_set_lifetime 0 3600].
Proof. run_sample T. reflexivity. Qed.

(** The directory answers a creation with index 4 on a build of four
    instances: [get_index] turns it into [-EPERM]. *)
Example get_index_out_of_range :
  fst <$> get_index A2 true (fresh false (dir [A1; A1; A1; A1] 10))
  = Some (- EPERM).
Proof. reflexivity. Qed.

(** Start-up of the sample build: four slots with the invalid product id. *)
Lemma init_resets_table_witness :
  exists s',
    lcz_lwm2m_ble_sensor_init (boot (dir [] 4)) = Some (0, s')
    /\ table s' = replicate 4 empty_slot
    /\ table_full s' = false.
Proof.
  destruct (@init_resets_table directory kconfig constants collaborators
              (dir [] 4) ltac:(discriminate))
    as (s' & E & T & _ & F & _).
  exists s'; split; [exact E|split; [exact T|exact F]].
Defined.

(** Battery is compiled in, so a battery event passes the gate. *)
Lemma gate_refines_categories_witness :
  record_type_enabled (event 12 7 3000).
Proof.
  apply (proj1 (@gate_refines_categories kconfig constants (event 12 7 3000) eq_refl)).
  reflexivity.
Defined.

(** The second current channel (record type 25) with payload 1.5. *)
Lemma multi_channel_dispatch_witness :
  exists s',
    ad_process 0 (event 25 7 1069547520) (-40) (fresh false (dir [A1] 4))
    = Some (tt, s')
    /\ trace s' = [lcz_lwm2m_managed_current_set 0 1 1.5%float].
Proof.
  destruct (@multi_channel_dispatch directory kconfig constants lib collaborators
              0 (event 25 7 1069547520) (-40) (fresh false (dir [A1] 4)) eq_refl)
    as (_ & Hc & _).
  destruct Hc as (s' & E & T).
  { right; left; reflexivity. }
  exists s'; split; [exact E|exact T].
Defined.

(** 254 mm reach the fill-level sink as 25.4 cm. *)
Lemma fill_level_conversion_witness :
  exists s',
    ad_process 0 (event 30 7 1132331008) (-40) (fresh false (dir [A1] 4))
    = Some (tt, s')
    /\ trace s' = [lcz_lwm2m_managed_fill_level_set 0 0 25.4%float].
Proof.
  destruct (@fill_level_conversion directory kconfig constants lib collaborators
              0 (event 30 7 1132331008) (-40) (fresh false (dir [A1] 4))
              eq_refl eq_refl)
    as (s' & E & T & V).
  exists s'; split; [exact E|]. rewrite <- (V eq_refl). exact T.
Defined.

(** A first temperature event: the counters are accounted afterwards. *)
Lemma conversions_stay_accounted_witness :
  let s := fresh false (dir [] 4) in
  conversions_accounted s
  /\ conversions_accounted (state_after (ad_handler A1 (-40) 0 [1; 1; 7; 2150]) s).
Proof.
  intros s. split; [reflexivity|].
  destruct (@conversions_stay_accounted directory kconfig constants lib collaborators toolchain
              s eq_refl) as (_ & Hh & _).
  apply (Hh A1 (-40) 0 [1; 1; 7; 2150]). reflexivity.
Defined.

(** A scan response with a name from a known address. *)
Lemma scan_response_frame_effects_witness :
  let s := tracked (slot 1 5 65535) true (dir [A1] 4) in
  exists s',
    ad_handler A1 (-40) 0 [3; 0; 0; 0; 1; 66; 84] s = Some (tt, s')
    /\ keeps_markers s s'
    /\ table_full s' = true.
Proof.
  intros s.
  destruct (@scan_response_frame_effects directory kconfig constants lib collaborators toolchain
              A1 (-40) 0 [3; 0; 0; 0; 1; 66; 84] [3; 0; 0; 0; 1; 66; 84] s
              eq_refl eq_refl eq_refl eq_refl eq_refl)
    as (s' & E & _ & M & F).
  exists s'; split; [exact E|split; [exact M|exact F]].
Defined.

(** A 1M frame with a temperature event. *)
Lemma primary_frame_effects_witness :
  let s := tracked (slot 1 5 1) false (dir [A1] 4) in
  exists s',
    ad_handler A1 (-40) 0 [1; 1; 7; 2150] s = Some (tt, s')
    /\ keeps_product_ids s s'.
Proof.
  intros s.
  destruct (@primary_frame_effects directory kconfig constants lib collaborators toolchain
              A1 (-40) 0 [1; 1; 7; 2150] s eq_refl eq_refl)
    as (s' & E & P & _).
  exists s'; split; [exact E|exact P].
Defined.

(** An event for the address at index 0 leaves the other slots alone. *)
Lemma ad_filter_touches_one_slot_witness :
  let s := tracked (slot 1 5 1) false (dir [A1] 4) in
  exists r s',
    ad_filter A1 (Some (event 1 6 2150)) (-40) s = Some (r, s')
    /\ (forall j, valid_index r = false \/ j <> Z.to_nat r ->
                  table s' !! j = table s !! j).
Proof.
  intros s.
  destruct (@ad_filter_touches_one_slot directory kconfig constants lib collaborators toolchain
              A1 (event 1 6 2150) (-40) s eq_refl)
    as (r & s' & E & O & _).
  exists r, s'; split; [exact E|exact O].
Defined.

(** The same temperature event twice from a new address: created and
    accepted, then rejected with the lookup as the only call. *)
Lemma repeated_event_suppressed_witness :
  let s := fresh false (dir [] 4) in
  let s1 := state_after (ad_filter A1 (Some (event 1 7 2150)) (-40)) s in
  ad_filter A1 (Some (event 1 7 2150)) (-40) s = Some (0, s1)
  /\ exists s2,
      ad_filter A1 (Some (event 1 7 2150)) (-38) s1 = Some (0, s2)
      /\ trace s2 = trace s1 ++ [lcz_lwm2m_gw_obj_lookup_ble A1].
Proof.
  intros s s1. split; [reflexivity|].
  destruct (@repeated_event_suppressed directory kconfig constants lib collaborators toolchain
              A1 (event 1 7 2150) (-40) (-38) 0 s s1
              eq_refl eq_refl eq_refl eq_refl)
    as (Hnz & _).
  destruct (Hnz ltac:(discriminate)) as (s2 & E & _ & _ & T).
  exists s2; split; [exact E|exact T].
Defined.

(** A known address on a full table: resolved, no creation asked. *)
Lemma known_device_ignores_capacity_flag_witness :
  let s := tracked (slot 0 0 0) true (dir [A1] 4) in
  exists s',
    ad_filter A1 (Some (event 1 7 2150)) (-40) s = Some (0, s')
    /\ count_calls is_create (trace s') = O
    /\ table_full s' = true.
Proof.
  intros s.
  destruct (@known_device_ignores_capacity_flag directory kconfig constants lib
              collaborators toolchain A1 (event 1 7 2150) (-40) s eq_refl eq_refl eq_refl)
    as (_ & s' & E & C & F).
  exists s'; split; [exact E|split; [exact C|exact F]].
Defined.

(** A full table that resolves A2 by the lookup alone asks for a creation
    once index 0 has been removed. *)
Lemma removal_reenables_creation_witness :
  let s := fresh true (dir [A1] 4) in
  exists s1 i s2 log,
    gw_obj_removed 0 s = Some (0, s1)
    /\ get_index A2 true s1 = Some (i, s2)
    /\ trace s2 = [lcz_lwm2m_gw_obj_lookup_ble A2; lcz_lwm2m_gw_obj_create A2] ++ log.
Proof.
  intros s.
  destruct (@removal_reenables_creation directory kconfig constants collaborators toolchain
              A2 0 s eq_refl eq_refl eq_refl eq_refl)
    as (_ & s1 & i & s2 & log & E1 & E2 & T & _).
  exists s1, i, s2, log; split; [exact E1|split; [exact E2|exact T]].
Defined.

(** Slot 0 last saw temperature event 5; after its removal the same event
    for an address resolved to slot 0 is still rejected. *)
Lemma removal_keeps_markers_witness :
  let s := tracked (slot 1 5 1) false (dir [A1] 4) in
  exists s1 s2,
    gw_obj_removed 0 s = Some (0, s1)
    /\ ad_filter A1 (Some (event 1 5 2150)) (-40) s1 = Some (0, s2)
    /\ trace s2 = [lcz_lwm2m_gw_obj_lookup_ble A1].
Proof.
  intros s.
  destruct (@removal_keeps_markers directory kconfig constants lib collaborators toolchain
              A1 (event 1 5 2150) (-40) 0 (slot 1 5 1) s
              eq_refl eq_refl eq_refl eq_refl eq_refl ltac:(discriminate)
              eq_refl eq_refl)
    as (s1 & s2 & E1 & _ & E2 & _ & T).
  exists s1, s2; split; [exact E1|split; [exact E2|exact T]].
Defined.

(** With a directory that refuses names, both frames ask for their name. *)
Lemma failed_name_write_retried_witness :
  let s := fresh false (dir [A1] 4) in
  exists s1 s2,
    @name_handler directory kconfig lib refusing 0 [3; 0; 0; 0; 0; 66; 84] s
    = Some (tt, s1)
    /\ @name_handler directory kconfig lib refusing 0 [3; 0; 0; 0; 0; 88] s1
       = Some (tt, s2)
    /\ trace s2 = [lcz_lwm2m_gw_obj_inst_created 0;
                   lcz_lwm2m_gw_obj_set_endpoint_name 0 [66; 84] 2;
                   lcz_lwm2m_gw_obj_inst_created 0;
                   lcz_lwm2m_gw_obj_set_endpoint_name 0 [88] 1].
Proof.
  intros s.
  destruct (@failed_name_write_retried directory kconfig lib refusing
              0 [3; 0; 0; 0; 0; 66; 84] [3; 0; 0; 0; 0; 88] [66; 84] [88] s
              eq_refl eq_refl eq_refl eq_refl ltac:(discriminate) eq_refl)
    as (s1 & s2 & E1 & _ & E2 & T).
  exists s1, s2; split; [exact E1|split; [exact E2|exact T]].
Defined.

(** A coded frame with a battery event and product id 0, from an address
    whose slot has no product id yet: the sink gets 0 volts and 0 percent. *)
Lemma coded_frame_converts_before_correlating_witness :
  let s := tracked (slot 0 0 65535) false (dir [A1] 4) in
  exists s',
    ad_handler A1 (-40) 0 [2; 12; 7; 3777; 0] s = Some (tt, s')
    /\ In (lcz_lwm2m_managed_battery_set 0 0 0%float 0) (trace s').
Proof.
  intros s.
  destruct (@coded_frame_converts_before_correlating
              directory kconfig constants lib collaborators toolchain
              A1 (-40) 0 [2; 12; 7; 3777; 0] [2; 12; 7; 3777; 0]
              (slot 0 0 65535) s
              eq_refl eq_refl eq_refl eq_refl eq_refl eq_refl eq_refl
              (or_introl eq_refl) eq_refl eq_refl eq_refl)
    as (s' & v & level & E & _ & I & V).
  destruct (V ltac:(discriminate) ltac:(discriminate)) as [Hv Hl].
  rewrite Hv, Hl in I.
  exists s'; split; [exact E|exact I].
Defined.

(** An event from an unknown address while the table is full: dropped, the
    table untouched. *)
Lemma dropped_event_is_silent_witness :
  let s := fresh true (dir [A1] 4) in
  exists r s',
    ad_filter A2 (Some (event 1 7 2150)) (-40) s = Some (r, s')
    /\ r = -2
    /\ table s' = table s.
Proof.
  intros s.
  destruct (@dropped_event_is_silent directory kconfig constants lib collaborators toolchain
              A2 (Some (event 1 7 2150)) (-40) s eq_refl)
    as (r & s' & E & D).
  assert (Hr : r = -2).
  { pose proof (f_equal (option_map fst) E) as Er.
    vm_compute in Er. injection Er as <-. reflexivity. }
  exists r, s'; split; [exact E|]. split; [exact Hr|].
  apply D. rewrite Hr. reflexivity.
Defined.

(** A scan response with product id 0 (BT510) for the address at index 0,
    then a battery event: 3777 is dispatched as 3.777 volts. *)
Lemma response_selects_conversion_witness :
  let s := tracked (slot 0 0 65535) false (dir [A1] 4) in
  exists s1 s2,
    rsp_handler A1 (Some {| productId := 0 |}) s = Some (0, s1)
    /\ ad_process 0 (event 12 7 3777) (-40) s1 = Some (tt, s2)
    /\ trace s2 = [lcz_lwm2m_gw_obj_lookup_ble A1;
                   lcz_lwm2m_managed_battery_set 0 0 3.777%float 100].
Proof.
  intros s.
  destruct (@response_selects_conversion directory kconfig constants lib collaborators toolchain
              A1 {| productId := 0 |} (event 12 7 3777) (-40) (slot 0 0 65535) s
              eq_refl eq_refl (or_introl eq_refl) eq_refl eq_refl)
    as (s1 & s2 & E1 & _ & E2 & T).
  exists s1, s2; split; [exact E1|split; [exact E2|exact T]].
Defined.

(** A first 1M frame: counted in [ads] and [legacy_ads] only. *)
Lemma frames_counted_by_shape_witness :
  let s := fresh false (dir [A1] 4) in
  let s' := state_after (ad_handler A1 (-40) 0 [1; 1; 7; 2150]) s in
  stats s' ads = 1 /\ stats s' legacy_ads = 1
  /\ stats s' coded_ads = 0 /\ stats s' rsp_ads = 0.
Proof.
  intros s s'.
  exact (@frames_counted_by_shape directory kconfig constants lib collaborators toolchain
           A1 (-40) 0 [1; 1; 7; 2150] s s' eq_refl eq_refl).
Defined.

(** A creation refused for a blocked address: nothing is read for the log. *)
Lemma creation_log_calls_witness :
  let d := {| known := []; blocked := [A2]; capacity := 4; names := [] |} in
  exists s',
    get_index A2 true (fresh false d) = Some (-1, s')
    /\ table_full s' = false
    /\ trace s' = [lcz_lwm2m_gw_obj_lookup_ble A2; lcz_lwm2m_gw_obj_create A2].
Proof.
  intros d.
  destruct (@creation_log_calls directory kconfig collaborators toolchain
              A2 (fresh false d) eq_refl eq_refl)
    as (i & s' & E & B & _).
  destruct (B eq_refl eq_refl) as (Hi & F & T).
  rewrite Hi in E.
  exists s'; split; [exact E|split; [exact F|exact T]].
Defined.

End SampleRuns.
